(** * Question-Generator: chunking, cleaning and response parsing

    A shallow embedding of the pure text-processing code of the
    repository ([text_chunker.py], [document_processor.py],
    [question_generator.py] and the dispatch of [main.py]) together with
    the properties stated about it.

    Python [str] values are modelled as lists of characters.  A character
    is a code point below 256 (the Latin-1 block), carried by [ascii]; the
    character predicates below are the Unicode ones that Python uses,
    restricted to that range.  Python [int] is [Z]. *)

From Stdlib Require Import Ascii String List ZArith NArith Lia Bool Arith.
From Stdlib Require Import DecimalString.
Import ListNotations.


(** ** Characters *)

Module Char.

Definition code (c : ascii) : N := N_of_ascii c.

Definition in_range (lo hi : N) (c : ascii) : bool :=
  ((lo <=? code c) && (code c <=? hi))%N.

Definition is_code (n : N) (c : ascii) : bool := (code c =? n)%N.

(** [str.isspace] on one character, also the class [\s] of [re] on [str]
    patterns: TAB..CR, FS..US, SPACE, NEL, NBSP. *)
Definition isspace (c : ascii) : bool :=
  in_range 9 13 c || in_range 28 32 c || is_code 133 c || is_code 160 c.

(** The class [\d] of [re]: decimal digits. *)
Definition isdecimal (c : ascii) : bool := in_range 48 57 c.

(** [str.isdigit]: decimal digits and the superscripts 1, 2, 3. *)
Definition isdigit (c : ascii) : bool :=
  isdecimal c || is_code 178 c || is_code 179 c || is_code 185 c.

Definition isalpha (c : ascii) : bool :=
  in_range 65 90 c || in_range 97 122 c || is_code 170 c || is_code 181 c || is_code 186 c
  || in_range 192 214 c || in_range 216 246 c || in_range 248 255 c.

(** The class [\w] of [re]: alphanumeric (letters, digits, the vulgar
    fractions) or underscore. *)
Definition isword (c : ascii) : bool :=
  isalpha c || isdigit c || in_range 188 190 c || is_code 95 c.

(** [str.islower] on one character. *)
Definition islower (c : ascii) : bool :=
  in_range 97 122 c || is_code 170 c || is_code 181 c || is_code 186 c
  || in_range 223 246 c || in_range 248 255 c.

(** [str.lower] on one character. *)
Definition lower (c : ascii) : ascii :=
  if in_range 65 90 c || in_range 192 214 c || in_range 216 222 c
  then ascii_of_N (code c + 32)
  else c.

Definition eqb_nocase (a b : ascii) : bool := Ascii.eqb (lower a) (lower b).

Definition nl : ascii := "010"%char.
Definition tab : ascii := "009"%char.

End Char.

(** ** Strings *)

Definition pystr := list ascii.

(** Reads a literal the way Python reads ['...']: [\n], [\t] and [\\] are
    escapes. *)
Fixpoint unescape (s : string) : pystr :=
  match s with
  | EmptyString => []
  | String "\" (String "n" s') => Char.nl :: unescape s'
  | String "\" (String "t" s') => Char.tab :: unescape s'
  | String "\" (String "\" s') => "\"%char :: unescape s'
  | String c s' => c :: unescape s'
  end.

Definition py (s : string) : pystr := unescape s.
Arguments py s%_string_scope.

(** The empty string. *)
Definition empty : pystr := [].

Definition pystr_eqb (a b : pystr) : bool :=
  if list_eq_dec ascii_dec a b then true else false.

(** [len(x)] of a string or list. *)
Definition len {A} (s : list A) : Z := Z.of_nat (length s).

(** Truth value of a string or list: non-empty. *)
Definition truthy {A} (l : list A) : bool :=
  match l with [] => false | _ => true end.

Fixpoint dropwhile {A} (p : A -> bool) (l : list A) : list A :=
  match l with
  | [] => []
  | x :: l' => if p x then dropwhile p l' else l
  end.

Definition lstrip (s : pystr) : pystr := dropwhile Char.isspace s.
Definition rstrip (s : pystr) : pystr := rev (dropwhile Char.isspace (rev s)).
(** [s.strip()] *)
Definition strip (s : pystr) : pystr := rstrip (lstrip s).

(** [s.rstrip(chars)] *)
Definition rstrip_chars (chars : pystr) (s : pystr) : pystr :=
  rev (dropwhile (fun c => existsb (Ascii.eqb c) chars) (rev s)).

(** [s.lower()] *)
Definition lower (s : pystr) : pystr := map Char.lower s.

(** [s.startswith(p)] *)
Fixpoint startswith (s p : pystr) {struct p} : bool :=
  match p, s with
  | [], _ => true
  | a :: p', b :: s' => Ascii.eqb a b && startswith s' p'
  | _ :: _, [] => false
  end.

(** [s.endswith(p)] *)
Definition endswith (s p : pystr) : bool := startswith (rev s) (rev p).

(** [sub in s] *)
Fixpoint contains (sub s : pystr) : bool :=
  startswith s sub ||
  match s with
  | [] => false
  | _ :: s' => contains sub s'
  end.

(** [s.partition(sep)] when the separator occurs: text before the first
    occurrence and text after it. *)
Fixpoint partition (sep s : pystr) : option (pystr * pystr) :=
  if startswith s sep then Some ([], skipn (length sep) s)
  else match s with
       | [] => None
       | c :: s' =>
           match partition sep s' with
           | Some (a, b) => Some (c :: a, b)
           | None => None
           end
       end.

(** [s.split(sep, maxsplit)] for a non-empty separator and
    [maxsplit >= 0]: at most [maxsplit] cuts, leftmost first. *)
Fixpoint split_max (maxsplit : nat) (sep s : pystr) : list pystr :=
  match maxsplit with
  | O => [s]
  | S n =>
      match partition sep s with
      | Some (a, b) => a :: split_max n sep b
      | None => [s]
      end
  end.

(** [s.split(sep)]: no bound on the cuts.  A non-empty separator cannot be
    cut out more than [len(s)] times.  (Python raises on an empty
    separator; every separator in the program is a non-empty literal.) *)
Definition split (sep s : pystr) : list pystr := split_max (length s) sep s.

(** [sep.join(parts)] *)
Fixpoint join (sep : pystr) (parts : list pystr) : pystr :=
  match parts with
  | [] => []
  | [x] => x
  | x :: rest => x ++ sep ++ join sep rest
  end.

(** [s.replace(old, new)] for a non-empty [old]. *)
Definition replace (old new s : pystr) : pystr := join new (split old s).

(** [l[-1]]; [None] stands for IndexError. *)
Fixpoint last_item {A} (l : list A) : option A :=
  match l with
  | [] => None
  | [x] => Some x
  | _ :: l' => last_item l'
  end.

(** [str(n)] for an int. *)
Definition str_of_int (n : Z) : pystr :=
  list_ascii_of_string (NilZero.string_of_int (Z.to_int n)).

(** ** Regular expressions

    The fragment of Python's [re] that the program uses, with the
    backtracking order of [re]: greedy repetition, leftmost match.  A
    pattern is written as its syntax tree, next to the pattern text of
    the source. *)

Module Re.

Inductive cclass :=
| CChar (c : ascii)          (* a literal character *)
| CSpace                     (* \s *)
| CDigit                     (* \d *)
| CWord                      (* \w *)
| CSet (l : list ascii).     (* [...] of literal characters *)

Inductive regex :=
| Eps
| Chr (c : cclass)
| Seq (a b : regex)
| Star (a : regex)           (* a*, greedy *)
| Opt (a : regex)            (* a?, greedy *)
| Group (n : nat) (a : regex) (* the n-th capturing group *)
| Bol                        (* ^ without MULTILINE *)
| Eol                        (* $ without MULTILINE *)
| LookBehind (c : cclass).   (* (?<=c) for a one-character class *)

(** a+ *)
Definition Plus (a : regex) : regex := Seq a (Star a).

(** a{n} *)
Fixpoint Times (n : nat) (a : regex) : regex :=
  match n with
  | O => Eps
  | S n' => Seq a (Times n' a)
  end.

(** A literal string. *)
Fixpoint Lit (s : pystr) : regex :=
  match s with
  | [] => Eps
  | c :: s' => Seq (Chr (CChar c)) (Lit s')
  end.

(** A sequence of pattern items. *)
Fixpoint Cat (l : list regex) : regex :=
  match l with
  | [] => Eps
  | [r] => r
  | r :: l' => Seq r (Cat l')
  end.

(** [ic] is the flag [re.IGNORECASE]. *)
Definition cmatch (ic : bool) (c : cclass) (x : ascii) : bool :=
  match c with
  | CChar a => if ic then Char.eqb_nocase a x else Ascii.eqb a x
  | CSpace => Char.isspace x
  | CDigit => Char.isdecimal x
  | CWord => Char.isword x
  | CSet l => existsb (fun a => if ic then Char.eqb_nocase a x else Ascii.eqb a x) l
  end.

(** A position in the subject string: the text before it (nearest
    character first), the text after it, and the groups captured so far. *)
Record mstate := MState {
  before : pystr;
  after : pystr;
  groups : list (nat * pystr)
}.

Definition consumed (st st' : mstate) : nat :=
  length (after st) - length (after st').

Definition set_group (n : nat) (st st' : mstate) : mstate :=
  MState (before st') (after st')
         ((n, firstn (consumed st st') (after st)) :: groups st').

(** [\n] at the end of the subject *)
Definition at_end (s : pystr) : bool :=
  match s with
  | [] => true
  | [c] => Ascii.eqb c Char.nl
  | _ => false
  end.

(** Greedy repetition of [body]: one more round if it succeeds and moves
    on, otherwise what comes after.  [fuel] bounds the rounds by the
    length of the text left. *)
Fixpoint star_loop (body : mstate -> (mstate -> option mstate) -> option mstate)
                   (k : mstate -> option mstate) (fuel : nat) (st : mstate)
  : option mstate :=
  match fuel with
  | O => k st
  | S fuel' =>
      match body st (fun st' =>
              if length (after st') <? length (after st)
              then star_loop body k fuel' st' else None) with
      | Some res => Some res
      | None => k st
      end
  end.

(** The matcher, in continuation-passing style: [k] is what remains to be
    matched after [r]; the first success in priority order is returned. *)
Fixpoint m (ic : bool) (r : regex) (st : mstate)
           (k : mstate -> option mstate) {struct r} : option mstate :=
  match r with
  | Eps => k st
  | Chr c =>
      match after st with
      | x :: rest =>
          if cmatch ic c x then k (MState (x :: before st) rest (groups st))
          else None
      | [] => None
      end
  | Seq a b => m ic a st (fun st' => m ic b st' k)
  | Star a => star_loop (m ic a) k (length (after st)) st
  | Opt a =>
      match m ic a st k with
      | Some res => Some res
      | None => k st
      end
  | Group n a => m ic a st (fun st' => k (set_group n st st'))
  | Bol => match before st with [] => k st | _ :: _ => None end
  | Eol => if at_end (after st) then k st else None
  | LookBehind c =>
      match before st with
      | x :: _ => if cmatch ic c x then k st else None
      | [] => None
      end
  end.

(** A match attempt at one position. *)
Definition match_here (ic : bool) (r : regex) (bef aft : pystr) : option mstate :=
  m ic r (MState bef aft []) Some.

(** [re.match(r, s)]: a match at the start of [s]. *)
Definition re_match (ic : bool) (r : regex) (s : pystr) : option mstate :=
  match_here ic r [] s.

(** [re.search]: the leftmost position with a match; the result is
    [match.start()] and the final state. *)
Fixpoint search_from (ic : bool) (r : regex) (bef aft : pystr) (pos : nat)
  : option (nat * mstate) :=
  match match_here ic r bef aft with
  | Some st' => Some (pos, st')
  | None =>
      match aft with
      | [] => None
      | c :: rest => search_from ic r (c :: bef) rest (S pos)
      end
  end.

Definition re_search (ic : bool) (r : regex) (s : pystr) : option (nat * mstate) :=
  search_from ic r [] s 0.

(** A replacement template: literal text and group references. *)
Inductive ritem :=
| RText (s : pystr)
| RGroup (n : nat).

Fixpoint group_text (n : nat) (g : list (nat * pystr)) : pystr :=
  match g with
  | [] => []
  | (i, s) :: g' => if Nat.eqb i n then s else group_text n g'
  end.

Definition expand (repl : list ritem) (st' : mstate) : pystr :=
  flat_map (fun it => match it with
                      | RText s => s
                      | RGroup n => group_text n (groups st')
                      end) repl.

(** [re.sub(r, repl, s)]: non-overlapping matches, left to right.  [skip]
    counts the characters of the current match still to be passed. *)
Fixpoint sub_loop (ic : bool) (r : regex) (repl : list ritem)
                  (bef aft : pystr) (skip : nat) : pystr :=
  match aft with
  | [] =>
      match skip with
      | O => match match_here ic r bef [] with
             | Some st' => expand repl st'
             | None => []
             end
      | S _ => []
      end
  | c :: rest =>
      match skip with
      | S n => sub_loop ic r repl (c :: bef) rest n
      | O =>
          match match_here ic r bef aft with
          | Some st' =>
              expand repl st' ++
              match length aft - length (after st') with
              | O => c :: sub_loop ic r repl (c :: bef) rest 0
              | S n => sub_loop ic r repl (c :: bef) rest n
              end
          | None => c :: sub_loop ic r repl (c :: bef) rest 0
          end
      end
  end.

Definition re_sub (ic : bool) (r : regex) (repl : list ritem) (s : pystr) : pystr :=
  sub_loop ic r repl [] s 0.

(** [re.split(r, s)] for a pattern without groups that matches no empty
    string (the one pattern the program splits on starts with [\s+]):
    the pieces between the non-overlapping matches.  [cur] is the piece
    being read, last character first. *)
Fixpoint split_loop (ic : bool) (r : regex) (bef aft : pystr) (skip : nat)
                    (cur : pystr) : list pystr :=
  match aft with
  | [] => [rev cur]
  | c :: rest =>
      match skip with
      | S n => split_loop ic r (c :: bef) rest n cur
      | O =>
          match match_here ic r bef aft with
          | Some st' =>
              match length aft - length (after st') with
              | O => split_loop ic r (c :: bef) rest 0 (c :: cur)
              | S n => rev cur :: split_loop ic r (c :: bef) rest n []
              end
          | None => split_loop ic r (c :: bef) rest 0 (c :: cur)
          end
      end
  end.

Definition re_split (ic : bool) (r : regex) (s : pystr) : list pystr :=
  split_loop ic r [] s 0 [].

End Re.

Import Re.

(** ** text_chunker.py *)

Local Open Scope Z_scope.

Record TextChunker := mkTextChunker {
  max_tokens : Z;
  overlap : Z;
  max_chars : Z;
  overlap_chars : Z
}.

(** [TextChunker.__init__]; the defaults are 3000 and 200. *)
Definition TextChunker_init (max_tokens overlap : Z) : TextChunker :=
  {| max_tokens := max_tokens;
     overlap := overlap;
     max_chars := max_tokens * 4;
     overlap_chars := overlap * 4 |}.

Definition estimate_tokens (self : TextChunker) (text : pystr) : Z :=
  len text / 4.

(** The variables of the two accumulation loops. *)
Record acc := Acc {
  chunks : list pystr;
  current_chunk : list pystr;
  current_length : Z
}.

(** [current_chunk = [current_chunk[-1]] if current_chunk else []] *)
Definition keep_last (cur : list pystr) : list pystr :=
  match last_item cur with
  | Some x => [x]
  | None => []
  end.

(** [len(current_chunk[0]) if current_chunk else 0] *)
Definition first_len (cur : list pystr) : Z :=
  match cur with
  | x :: _ => len x
  | [] => 0
  end.

(** [(?<=[.!?])\s+] *)
Definition sentence_break : regex :=
  Seq (LookBehind (CSet (py ".!?"))) (Plus (Chr CSpace)).

(** One iteration of the loop of [_split_long_paragraph]. *)
Definition sentence_step (self : TextChunker) (st : acc) (sentence : pystr) : acc :=
  let sentence := strip sentence in
  if negb (truthy sentence) then st
  else
    let sentence_length := len sentence in
    let st :=
      if (current_length st + sentence_length >? max_chars self)
         && truthy (current_chunk st)
      then
        let kept := keep_last (current_chunk st) in
        Acc (chunks st ++ [join (py " ") (current_chunk st)]) kept (first_len kept)
      else st in
    Acc (chunks st) (current_chunk st ++ [sentence])
        (current_length st + sentence_length).

Definition _split_long_paragraph (self : TextChunker) (paragraph : pystr) : list pystr :=
  let sentences := re_split false sentence_break paragraph in
  let st := fold_left (sentence_step self) sentences (Acc [] [] 0) in
  if truthy (current_chunk st)
  then chunks st ++ [join (py " ") (current_chunk st)]
  else chunks st.

(** One iteration of the loop of [chunk_by_paragraphs]. *)
Definition paragraph_step (self : TextChunker) (st : acc) (para : pystr) : acc :=
  let para := strip para in
  if negb (truthy para) then st
  else
    let para_length := len para in
    if para_length >? max_chars self then
      let st :=
        if truthy (current_chunk st)
        then Acc (chunks st ++ [join (py "\n\n") (current_chunk st)]) [] 0
        else st in
      Acc (chunks st ++ _split_long_paragraph self para)
          (current_chunk st) (current_length st)
    else
      let st :=
        if (current_length st + para_length >? max_chars self)
           && truthy (current_chunk st)
        then
          let kept := keep_last (current_chunk st) in
          Acc (chunks st ++ [join (py "\n\n") (current_chunk st)]) kept (first_len kept)
        else st in
      Acc (chunks st) (current_chunk st ++ [para])
          (current_length st + para_length).

Definition chunk_by_paragraphs (self : TextChunker) (text : pystr) : list pystr :=
  let paragraphs := split (py "\n\n") text in
  let st := fold_left (paragraph_step self) paragraphs (Acc [] [] 0) in
  if truthy (current_chunk st)
  then chunks st ++ [join (py "\n\n") (current_chunk st)]
  else chunks st.

Definition chunk_text (self : TextChunker) (text : pystr) : list pystr :=
  let estimated_tokens := estimate_tokens self text in
  if estimated_tokens <=? max_tokens self then [text]
  else chunk_by_paragraphs self text.

Local Close Scope Z_scope.

(** ** document_processor.py *)

Definition c_nl : regex := Chr (CChar Char.nl).
Definition c_space : regex := Chr CSpace.
Definition c_digit : regex := Chr CDigit.
Definition c_word : regex := Chr CWord.
Definition chr (s : string) : regex := Lit (py s).

(** [any(f(x) for x in l)] *)
Definition any {A} (f : A -> bool) (l : list A) : bool := existsb f l.

(** [\n\s*KEYWORD\s*\n] *)
Definition heading_pattern (keyword : string) : regex :=
  Cat [c_nl; Star c_space; chr keyword; Star c_space; c_nl].

Definition ref_patterns : list regex :=
  [ heading_pattern "REFERENCES";
    heading_pattern "References";
    heading_pattern "BIBLIOGRAPHY";
    heading_pattern "Bibliography";
    heading_pattern "WORKS CITED" ].

(** The loop of [_remove_references_section]: the first pattern of the
    list that matches anywhere cuts the text at its leftmost match. *)
Fixpoint cut_at_first (patterns : list regex) (text : pystr) : pystr :=
  match patterns with
  | [] => text
  | pattern :: rest =>
      match re_search true pattern text with
      | Some (start, _) => firstn start text
      | None => cut_at_first rest text
      end
  end.

Definition _remove_references_section (text : pystr) : pystr :=
  cut_at_first ref_patterns text.

Definition skip_patterns : list regex :=
  [ Cat [Bol; chr "Page"; Plus c_space; Plus c_digit];          (* ^Page\s+\d+ *)
    Cat [Bol; Plus c_digit; Star c_space; Eol];                 (* ^\d+\s*$ *)
    Cat [Bol; chr "Copyright"; Plus c_space];                   (* ^Copyright\s+ *)
    Cat [Bol; Times 4 c_digit; Plus c_space; chr "IEEE"];       (* ^\d{4}\s+IEEE *)
    Cat [Bol; chr "IEEE"; Plus c_space];                        (* ^IEEE\s+ *)
    Cat [Bol; chr "Proceedings"; Plus c_space; chr "of"];       (* ^Proceedings\s+of *)
    Cat [Bol; Star c_space; Plus c_digit; Star c_space; chr "|";
         Star c_space; chr "Page"];                             (* ^\s*\d+\s*\|\s*Page *)
    Cat [Bol; chr "Volume"; Plus c_space; Plus c_digit];        (* ^Volume\s+\d+ *)
    Cat [Bol; chr "Issue"; Plus c_space; Plus c_digit];         (* ^Issue\s+\d+ *)
    Cat [Bol; chr "DOI:"; Star c_space];                        (* ^DOI:\s* *)
    Cat [Bol; chr "http"; Opt (chr "s"); chr "://"];            (* ^https?:// *)
    Cat [Bol; chr "www."];                                      (* ^www\. *)
    Cat [Bol; Opt (chr "["); Plus c_digit; Opt (chr "]");
         Star c_space; Eol] ].                                  (* ^\[?\d+\]?\s*$ *)

Definition is_some {A} (o : option A) : bool :=
  match o with Some _ => true | None => false end.

(** The test of the loop of [_remove_common_headers_footers]: the line
    is kept unless it is blank or its trimmed text starts with one of the
    skip patterns. *)
Definition keeps_line (line : pystr) : bool :=
  let line_stripped := strip line in
  if negb (truthy line_stripped) then false
  else negb (any (fun pattern => is_some (re_match true pattern line_stripped))
                 skip_patterns).

Definition _remove_common_headers_footers (text : pystr) : pystr :=
  let lines := split (py "\n") text in
  let cleaned_lines := filter keeps_line lines in
  join (py "\n") cleaned_lines.

Definition author_patterns : list regex :=
  [ chr "@";
    chr ".edu";                                  (* \.edu *)
    chr ".com";                                  (* \.com *)
    Cat [chr "Department"; Plus c_space; chr "of"];
    Cat [chr "University"; Plus c_space; chr "of"];
    Cat [chr "Institute"; Plus c_space; chr "of"];
    Times 5 c_digit ].                           (* \d{5} *)

(** Index of the first line with one of the content keywords; 0 when
    there is none ([content_start_idx]). *)
Fixpoint content_start (lines : list pystr) (i : nat) : nat :=
  match lines with
  | [] => 0
  | line :: rest =>
      let line_lower := strip (lower line) in
      if any (fun keyword => contains keyword line_lower)
             [py "abstract"; py "introduction"; py "i. introduction"]
      then i
      else content_start rest (S i)
  end.

(** [for i in range(k - 1, -1, -1)]: the nearest line above the content
    start that is long and matches no author pattern. *)
Fixpoint title_index (lines : list pystr) (k : nat) : option nat :=
  match k with
  | O => None
  | S i =>
      let line := strip (nth i lines []) in
      if (20 <? length line)
         && negb (any (fun pattern => is_some (re_search true pattern line))
                      author_patterns)
      then Some i
      else title_index lines i
  end.

Definition _remove_author_affiliations (text : pystr) : pystr :=
  let lines := split (py "\n") text in
  let content_start_idx := content_start lines 0 in
  if 0 <? content_start_idx then
    match title_index lines content_start_idx with
    | Some i => join (py "\n") (skipn i lines)
    | None => text
    end
  else text.

(** The loop of [_handle_two_column_format]; [lines[i + 1]] is the head
    of the remaining lines. *)
Fixpoint column_lines (lines : list pystr) : list pystr :=
  match lines with
  | [] => []
  | line :: rest =>
      let line := strip line in
      if length line <? 3 then column_lines rest
      else
        match rest with
        | next :: _ =>
            let next_line := strip next in
            if truthy line
               && negb (any (endswith line) [py "."; py "!"; py "?"; py ":"])
               && truthy next_line
               && match next_line with c :: _ => Char.islower c | [] => false end
            then column_lines rest
            else line :: column_lines rest
        | [] => line :: column_lines rest
        end
  end.

(** [(\w+)-\s*\n\s*(\w+)] *)
Definition broken_word : regex :=
  Cat [Group 1 (Plus c_word); chr "-"; Star c_space; c_nl; Star c_space;
       Group 2 (Plus c_word)].

Definition _handle_two_column_format (text : pystr) : pystr :=
  let lines := split (py "\n") text in
  let cleaned_lines := column_lines lines in
  let text := join (py "\n") cleaned_lines in
  re_sub false broken_word [RGroup 1; RGroup 2] text.

Definition main_sections : list pystr :=
  [ py "abstract"; py "introduction"; py "background"; py "related work";
    py "methodology"; py "method"; py "approach"; py "implementation";
    py "experiments"; py "results"; py "evaluation"; py "discussion";
    py "conclusion"; py "future work" ].

(** The loop of [_extract_main_sections]: [content_lines]. *)
Fixpoint section_lines (in_main_section : bool) (lines : list pystr) : list pystr :=
  match lines with
  | [] => []
  | line :: rest =>
      let line_lower := strip (lower line) in
      let is_section_header := any (fun section => contains section line_lower) main_sections in
      if is_section_header then line :: section_lines true rest
      else if in_main_section then
        if any (fun keyword => contains keyword line_lower)
               [py "references"; py "acknowledgment"; py "appendix"]
        then []
        else line :: section_lines in_main_section rest
      else section_lines in_main_section rest
  end.

Definition _extract_main_sections (text : pystr) : pystr :=
  let lines := split (py "\n") text in
  let content_lines := section_lines false lines in
  if truthy content_lines then join (py "\n") content_lines else text.

(** [\n{3,}] *)
Definition many_newlines : regex := Seq (Times 3 c_nl) (Star c_nl).
(** [[ \t]+] *)
Definition blanks : regex := Plus (Chr (CSet (py " \t"))).
(** [\[\d+(?:,\s*\d+)*\]] *)
Definition citation : regex :=
  Cat [chr "["; Plus c_digit; Star (Cat [chr ","; Star c_space; Plus c_digit]);
       chr "]"].
(** The three characters that the source replaces by nothing. *)
Definition mojibake : pystr := ["239"; "191"; "189"]%char.

(** Step 6 of [clean_text]. *)
Definition normalize (text : pystr) : pystr :=
  let text := re_sub false many_newlines [RText (py "\n\n")] text in
  let text := re_sub false blanks [RText (py " ")] text in
  let lines := map strip (split (py "\n") text) in
  let text := join (py "\n") lines in
  let text := strip text in
  let text := replace mojibake empty text in
  re_sub false citation [RText empty] text.

(** Steps 2 to 6 of [clean_text]. *)
Definition clean_after_references (text : pystr) : pystr :=
  let text := _handle_two_column_format text in
  let text := _remove_author_affiliations text in
  let text := _remove_common_headers_footers text in
  let text := _extract_main_sections text in
  normalize text.

Record DocumentProcessor := mkDocumentProcessor {
  raw_text : pystr;
  cleaned_text : pystr
}.

(** [clean_text]: the processor after the call, and the value returned. *)
Definition clean_text (self : DocumentProcessor) : DocumentProcessor * pystr :=
  let text := raw_text self in
  let text := _remove_references_section text in
  let text := clean_after_references text in
  (mkDocumentProcessor (raw_text self) text, text).

(** The cleaner as a function of the raw text. *)
Definition clean (raw : pystr) : pystr :=
  snd (clean_text (mkDocumentProcessor raw [])).

(** ** question_generator.py *)

(** Exceptions: [None] is a raised exception. *)
Definition bind {A B} (o : option A) (f : A -> option B) : option B :=
  match o with
  | Some x => f x
  | None => None
  end.

Notation "x <- e ;; k" := (bind e (fun x => k))
  (at level 61, e at next level, right associativity).

(** The dictionary with the keys ['factual'] and ['conceptual']. *)
Record questions := Questions {
  factual : list pystr;
  conceptual : list pystr
}.

Definition prompt_head : list string :=
  [ "You are an expert educator creating study questions from academic or educational content.";
    EmptyString ]%string.

Definition prompt_body : list string :=
  [ EmptyString;
    "REQUIREMENTS:";
    "1. Generate 5-10 factual questions (who, what, when, where, which)";
    "   - These should test recall of specific facts from the document";
    "   - Prefer questions with one-word or short answers";
    "   ";
    "2. Generate 3-5 conceptual questions (why, how, explain)";
    "   - These should test deeper understanding";
    "   - Focus on concepts, relationships, and reasoning";
    EmptyString;
    "3. All questions must:";
    "   - Be directly answerable from the document content";
    "   - Be grammatically correct and clear";
    "   - Not be vague or ambiguous";
    "   - Not repeat or be too similar to each other";
    "   - Cover different sections/topics in the document";
    EmptyString;
    "4. Format your response EXACTLY as follows:";
    "FACTUAL QUESTIONS:";
    "1. [Question]";
    "2. [Question]";
    "...";
    EmptyString;
    "CONCEPTUAL QUESTIONS:";
    "1. [Question]";
    "2. [Question]";
    "...";
    EmptyString;
    "DOCUMENT:" ]%string.

Definition text_lines (l : list string) : pystr :=
  join (py "\n") (map list_ascii_of_string l).

Definition create_prompt (document_text : pystr)
                         (chunk_num total_chunks : option Z) : pystr :=
  let chunk_context :=
    match chunk_num, total_chunks with
    | Some k, Some n =>
        py "\n(Note: This is chunk " ++ str_of_int k ++ py " of " ++ str_of_int n
        ++ py " from a larger document)"
    | _, _ => []
    end in
  text_lines prompt_head ++ py "\n"
  ++ py "Given the following document" ++ chunk_context
  ++ py ", generate high-quality questions that help students understand and test their comprehension.\n"
  ++ text_lines prompt_body ++ py "\n"
  ++ document_text
  ++ py "\n\nNow generate the questions following the format above:".

(** [line.split('.', 1)[-1].split(')', 1)[-1].strip()] *)
Definition strip_enumerator (line : pystr) : option pystr :=
  rest <- last_item (split_max 1 (py ".") line) ;;
  rest <- last_item (split_max 1 (py ")") rest) ;;
  Some (strip rest).

(** The loop that [parse_response] runs on the lines of each section. *)
Fixpoint extract_questions (lines : list pystr) : option (list pystr) :=
  match lines with
  | [] => Some []
  | line :: rest =>
      let line := strip line in
      if truthy line
         && (match line with c :: _ => Char.isdigit c | [] => false end
             || startswith line (py "-"))
      then
        question <- strip_enumerator line ;;
        found <- extract_questions rest ;;
        if truthy question && (5 <? length question)
        then Some (question :: found)
        else Some found
      else extract_questions rest
  end.

Definition parse_response (response_text : pystr) : option questions :=
  let sections := split (py "CONCEPTUAL QUESTIONS:") response_text in
  let '(factual_section, conceptual_section) :=
    match sections with
    | [a; b] => (a, b)
    | _ => (response_text, empty)
    end in
  factual_part <- last_item (split (py "FACTUAL QUESTIONS:") factual_section) ;;
  let factual_lines := split (py "\n") (strip factual_part) in
  factual <- extract_questions factual_lines ;;
  let conceptual_lines := split (py "\n") (strip conceptual_section) in
  conceptual <- extract_questions conceptual_lines ;;
  Some (Questions factual conceptual).

(** [q.lower().strip().rstrip('?')] *)
Definition normalized (q : pystr) : pystr :=
  rstrip_chars (py "?") (strip (lower q)).

(** The loop of [_remove_duplicates]; [seen] is the set of keys met so
    far. *)
Fixpoint unique_from (seen : list pystr) (questions : list pystr) : list pystr :=
  match questions with
  | [] => []
  | q :: rest =>
      if existsb (pystr_eqb (normalized q)) seen
      then unique_from seen rest
      else q :: unique_from (normalized q :: seen) rest
  end.

Definition _remove_duplicates (questions : list pystr) : list pystr :=
  unique_from [] questions.

Section Generator.

(** The chat-completion call of the client: from the prompt to the text of
    the first choice, or an exception. *)
Variable generate : pystr -> option pystr.

Definition generate_from_text (document_text : pystr)
                              (chunk_num total_chunks : option Z) : option questions :=
  let prompt := create_prompt document_text chunk_num total_chunks in
  response_text <- generate prompt ;;
  parse_response response_text.

(** The loop of [generate_from_chunks]: chunk [i] of [n], and
    [all_questions] so far. *)
Fixpoint collect (n : Z) (i : Z) (chunks : list pystr) (all_questions : questions)
  : option questions :=
  match chunks with
  | [] => Some all_questions
  | chunk :: rest =>
      found <- generate_from_text chunk (Some i) (Some n) ;;
      collect n (i + 1)%Z rest
              (Questions (factual all_questions ++ factual found)
                         (conceptual all_questions ++ conceptual found))
  end.

Definition generate_from_chunks (chunks : list pystr) : option questions :=
  all_questions <- collect (len chunks) 1%Z chunks (Questions [] []) ;;
  let all_factual := _remove_duplicates (factual all_questions) in
  let all_conceptual := _remove_duplicates (conceptual all_questions) in
  Some (Questions (firstn 7 all_factual) (firstn 3 all_conceptual)).

(** ** main.py: from the cleaned document to the question set *)

Definition main_questions (max_tokens : Z) (document_text : pystr) : option questions :=
  let chunker := TextChunker_init max_tokens 200 in
  let chunks := chunk_text chunker document_text in
  if length chunks =? 1
  then generate_from_text document_text None None
  else generate_from_chunks chunks.

End Generator.


(** ** text_chunker.py: [get_chunk_info] *)

(** The dictionary with the keys ['num_chunks'], ['chunk_sizes'] and
    ['total_tokens']. *)
Record chunk_info := ChunkInfo {
  num_chunks : Z;
  chunk_sizes : list Z;
  total_tokens : Z
}.

(** [sum(l)] *)
Definition sum_ints (l : list Z) : Z := fold_left Z.add l 0%Z.

Definition get_chunk_info (self : TextChunker) (chunks : list pystr) : chunk_info :=
  {| num_chunks := len chunks;
     chunk_sizes := map (estimate_tokens self) chunks;
     total_tokens := sum_ints (map (estimate_tokens self) chunks) |}.

(** ** main.py: [format_output] *)

(** ["-" * 70] *)
Definition rule : pystr := repeat "-"%char 70.

(** [f"{i}. {question}"] over [enumerate(l, i)] *)
Fixpoint numbered (i : Z) (l : list pystr) : list pystr :=
  match l with
  | [] => []
  | question :: rest =>
      (str_of_int i ++ py ". " ++ question) :: numbered (i + 1)%Z rest
  end.

Definition format_output (questions : questions) (document_name : pystr) : pystr :=
  let output :=
    [ rule; py "GENERATED QUESTIONS"; rule;
      py "Source Document: " ++ document_name; rule;
      py "\nFACTUAL QUESTIONS"; rule ]
    ++ numbered 1 (firstn 7 (factual questions))
    ++ [ py "\nCONCEPTUAL QUESTIONS"; rule ]
    ++ numbered 1 (firstn 3 (conceptual questions)) in
  join (py "\n") output.

(** * Reference notions for the properties *)

(** The 256 characters, by code point. *)
Definition all_chars : list ascii := map ascii_of_nat (seq 0 256).

Definition codes_of (p : ascii -> bool) : list N :=
  map Char.code (filter p all_chars).

(** ** What a pattern matches

    [Match ic r p q]: the pattern [r] matches the text between the
    positions [p] and [q] of one subject string.  A position is the text
    before it (nearest character first) and the text after it. *)

Definition position := (pystr * pystr)%type.

Definition pos (st : mstate) : position := (before st, after st).

Inductive Match (ic : bool) : regex -> position -> position -> Prop :=
| M_Eps p :
    Match ic Eps p p
| M_Chr c x bef aft :
    cmatch ic c x = true ->
    Match ic (Chr c) (bef, x :: aft) (x :: bef, aft)
| M_Seq a b p q r :
    Match ic a p q -> Match ic b q r -> Match ic (Seq a b) p r
| M_Star_stop a p :
    Match ic (Star a) p p
| M_Star_more a p q r :
    Match ic a p q -> length (snd q) < length (snd p) ->
    Match ic (Star a) q r -> Match ic (Star a) p r
| M_Opt_some a p q :
    Match ic a p q -> Match ic (Opt a) p q
| M_Opt_none a p :
    Match ic (Opt a) p p
| M_Group n a p q :
    Match ic a p q -> Match ic (Group n a) p q
| M_Bol aft :
    Match ic Bol ([], aft) ([], aft)
| M_Eol bef aft :
    at_end aft = true -> Match ic Eol (bef, aft) (bef, aft)
| M_LookBehind c x bef aft :
    cmatch ic c x = true ->
    Match ic (LookBehind c) (x :: bef, aft) (x :: bef, aft).

(** Two states at one position. *)
Ltac same_pos := unfold pos in *; simpl in *; congruence.

(** A continuation of the matcher whose success depends on the position
    only, not on the groups captured on the way. *)
Definition blind (k : mstate -> option mstate) : Prop :=
  forall st1 st2, pos st1 = pos st2 -> (k st1 <> None <-> k st2 <> None).

(** [body] succeeds before [k] exactly when [r] matches up to a position
    from which [k] succeeds. *)
Definition finds (ic : bool)
                 (body : mstate -> (mstate -> option mstate) -> option mstate)
                 (r : regex) : Prop :=
  forall st k, blind k ->
    (body st k <> None <->
     exists st', Match ic r (pos st) (pos st') /\ k st' <> None).

(** A pattern every match of which contains a newline. *)
Fixpoint needs_newline (r : regex) : bool :=
  match r with
  | Chr (CChar a) => Ascii.eqb a Char.nl
  | Seq a b => needs_newline a || needs_newline b
  | Group _ a => needs_newline a
  | _ => false
  end.

(** [w] is the literal [s], letter case aside under IGNORECASE. *)
Definition spells (ic : bool) (s w : pystr) : Prop :=
  Forall2 (fun a x => cmatch ic (CChar a) x = true) s w.

(** A string without white space at either end. *)
Definition trimmed (s : pystr) : Prop := lstrip s = s /\ rstrip s = s.

(** The pattern matches some stretch of [text] that starts at index [i]. *)
Definition match_at (ic : bool) (r : regex) (text : pystr) (i : nat) : Prop :=
  i <= length text /\
  exists q, Match ic r (rev (firstn i text), skipn i text) q.

(** ** Reference headings

    A heading for [keyword] at index [i] of [text]: a newline, white
    space, the keyword in any letter case, white space, a newline. *)
Definition heading_at (keyword : string) (text : pystr) (i : nat) : Prop :=
  exists ws1 w ws2 rest,
    skipn i text = Char.nl :: ws1 ++ w ++ ws2 ++ Char.nl :: rest
    /\ forallb Char.isspace ws1 = true
    /\ forallb Char.isspace ws2 = true
    /\ lower w = lower (py keyword).

Definition first_heading (keyword : string) (text : pystr) (i : nat) : Prop :=
  heading_at keyword text i /\ forall j, j < i -> ~ heading_at keyword text j.

Definition no_heading (keyword : string) (text : pystr) : Prop :=
  forall i, ~ heading_at keyword text i.

(** The place where [_remove_references_section] cuts: the first
    REFERENCES heading if there is one, else the first BIBLIOGRAPHY
    heading, else the first WORKS CITED heading. *)
Definition cut_point (text : pystr) (i : nat) : Prop :=
  first_heading "REFERENCES" text i
  \/ (no_heading "REFERENCES" text /\ first_heading "BIBLIOGRAPHY" text i)
  \/ (no_heading "REFERENCES" text /\ no_heading "BIBLIOGRAPHY" text
      /\ first_heading "WORKS CITED" text i).

(** A text with a heading line [w] after [pre] and with [post] below the
    heading. *)
Definition with_heading (pre w post : pystr) : pystr :=
  pre ++ Char.nl :: w ++ Char.nl :: post.

(** ** Question texts

    A question as the response format expects it after the enumerator:
    more than five characters on one line, no white space at either end,
    no closing parenthesis, and neither section marker inside. *)
Definition question_text (q : pystr) : bool :=
  (5 <? length q)
  && pystr_eqb (strip q) q
  && negb (contains (py "\n") q)
  && negb (contains (py ")") q)
  && negb (contains (py "FACTUAL QUESTIONS:") q)
  && negb (contains (py "CONCEPTUAL QUESTIONS:") q).

(** A line from which [parse_response] takes a question: after trimming
    it starts with a digit or a dash. *)
Definition enumerated (line : pystr) : bool :=
  match strip line with
  | c :: _ => Char.isdigit c || Ascii.eqb c "-"
  | [] => false
  end.

(** ** Question sets

    No two entries are equal after the normalization of the code: lower
    case, trimmed, trailing question marks removed. *)
Definition distinct_questions (l : list pystr) : Prop :=
  NoDup (map normalized l).

(** A client that answers every prompt with the same text, in which the
    first factual question comes twice, in two letter cases. *)
Definition repeating_client (prompt : pystr) : option pystr :=
  Some (py "FACTUAL QUESTIONS:\n1. What is a chunk?\n2. what is a chunk\n\nCONCEPTUAL QUESTIONS:\n1. Why is there an overlap?").

(** ** Units and chunks

    The paragraphs and sentences that the accumulation loops collect are
    trimmed and not empty. *)
Definition unit_ok (u : pystr) : Prop := u <> [] /\ strip u = u.

(** The unit [u] is in a chunk already closed or in the chunk being
    built. *)
Definition kept_in (st : acc) (u : pystr) : Prop :=
  (exists c, In c (chunks st) /\ contains u c = true) \/ In u (current_chunk st).

(** What the loops return at the end: the closed chunks and the chunk
    being built, if any. *)
Definition closed (sep : pystr) (st : acc) : list pystr :=
  if truthy (current_chunk st)
  then chunks st ++ [join sep (current_chunk st)]
  else chunks st.

(** The non-blank paragraphs of a text, trimmed. *)
Definition paragraphs_of (text : pystr) : list pystr :=
  filter truthy (map strip (split (py "\n\n") text)).

(** Two chunks share a unit: the first ends with it, the second starts
    with it. *)
Definition shares (units : list pystr) (c1 c2 : pystr) : Prop :=
  exists p, In p units /\ endswith c1 p = true /\ startswith c2 p = true.

(** A relation that holds between every element and the next one. *)
Inductive chain {A} (R : A -> A -> Prop) : list A -> Prop :=
| chain_nil : chain R []
| chain_one x : chain R [x]
| chain_cons x y l : R x y -> chain R (y :: l) -> chain R (x :: y :: l).

(** All paragraphs are within the limit of the chunker. *)
Definition all_within (self : TextChunker) (text : pystr) : bool :=
  forallb (fun para => (len (strip para) <=? max_chars self)%Z)
          (split (py "\n\n") text).

(** The closed chunks and the units of the chunk being built are trimmed
    and not empty. *)
Definition acc_ok (st : acc) : Prop :=
  Forall unit_ok (chunks st) /\ Forall unit_ok (current_chunk st).

(** The state of the paragraph loop while no paragraph is over the limit:
    consecutive closed chunks share a unit, and the chunk being built
    starts with the unit that ends the last closed chunk. *)
Definition overlapping (units : list pystr) (st : acc) : Prop :=
  chain (shares units) (chunks st)
  /\ Forall (fun u => In u units) (current_chunk st)
  /\ (chunks st <> [] ->
      exists p rest c,
        current_chunk st = p :: rest
        /\ last_item (chunks st) = Some c
        /\ endswith c p = true).

(** ** Section headers

    A line that names a main section, and a line that ends the main
    sections: it names references, acknowledgment or appendix and no main
    section. *)
Definition is_header (line : pystr) : bool :=
  any (fun section => contains section (strip (lower line))) main_sections.

Definition ends_sections (line : pystr) : bool :=
  negb (is_header line)
  && any (fun keyword => contains keyword (strip (lower line)))
         [py "references"; py "acknowledgment"; py "appendix"].

(** A line on its own: no newline in it. *)
Definition one_line (line : pystr) : bool := negb (contains (py "\n") line).

(** ** Sizes

    The characters of a list of units, separators not counted. *)
Definition units_len (l : list pystr) : Z :=
  fold_right (fun u n => (len u + n)%Z) 0%Z l.

(** The state of the paragraph loop while no paragraph is over the limit:
    the counter is the size of the units of the chunk being built, and it
    is over the limit only right after an overlap, when the chunk holds
    two units. *)
Definition sized (self : TextChunker) (st : acc) : Prop :=
  Forall (fun c => (len c <= 3 * max_chars self + 2)%Z) (chunks st)
  /\ Forall (fun u => (1 <= len u <= max_chars self)%Z) (current_chunk st)
  /\ current_length st = units_len (current_chunk st)
  /\ ((current_length st <= max_chars self)%Z \/ length (current_chunk st) <= 2).

(** ** The questions of a response, line by line *)

(** The text after the first [sep] in [s]; all of [s] when there is
    none. *)
Definition text_after (sep s : pystr) : pystr :=
  match partition sep s with
  | Some (_, b) => b
  | None => s
  end.

(** The question of an enumerated line: what follows the first dot of
    the trimmed line and, in that, what follows the first closing
    parenthesis, trimmed. *)
Definition question_of (line : pystr) : pystr :=
  strip (text_after (py ")") (text_after (py ".") (strip line))).

(** The questions of the lines of a section: those of the enumerated
    lines, in their order, that are longer than five characters. *)
Definition listed (lines : list pystr) : list pystr :=
  filter (fun q => 5 <? length q) (map question_of (filter enumerated lines)).

(** ** The printed output

    The lines of the text that [format_output] returns. *)
Definition output_lines (qs : questions) (document_name : pystr) : list pystr :=
  split (py "\n") (format_output qs document_name).

(** ** Settled text

    What a second pass of the cleaner would act on, line by line.  The
    line ends a sentence: its last character is one of [.!?:]. *)
Definition ends_sentence (line : pystr) : bool :=
  match last_item line with
  | Some c => existsb (Ascii.eqb c) (py ".!?:")
  | None => false
  end.

Definition starts_lower (line : pystr) : bool :=
  match line with
  | c :: _ => Char.islower c
  | [] => false
  end.

(** A line that reads as the first half of a wrapped line: it does not
    end a sentence and the next line starts in lower case. *)
Definition wrapped (line next : pystr) : bool :=
  negb (ends_sentence line) && starts_lower next.

(** A word broken at the end of the line: the line ends with a word
    character and a hyphen, and the next line starts with a word
    character. *)
Definition broken (line next : pystr) : bool :=
  match rev line, next with
  | h :: w :: _, c :: _ => Ascii.eqb h "-" && Char.isword w && Char.isword c
  | _, _ => false
  end.

(** [R] holds of every line and the line after it. *)
Fixpoint each_pair (R : pystr -> pystr -> bool) (lines : list pystr) : bool :=
  match lines with
  | [] => true
  | a :: rest =>
      match rest with
      | b :: _ => R a b
      | [] => true
      end && each_pair R rest
  end.

(** The line names the abstract or the introduction. *)
Definition names_content (line : pystr) : bool :=
  contains (py "abstract") (strip (lower line))
  || contains (py "introduction") (strip (lower line)).

(** The line is a reference heading: one of the heading words alone, in
    any letter case. *)
Definition reference_word (line : pystr) : bool :=
  existsb (pystr_eqb (lower line))
          [py "references"; py "bibliography"; py "works cited"].

(** An opening bracket with a decimal digit right after it, as every
    citation marker starts. *)
Fixpoint bracket_digit (s : pystr) : bool :=
  match s with
  | [] => false
  | a :: rest =>
      match rest with
      | b :: _ => Ascii.eqb a "[" && Char.isdecimal b
      | [] => false
      end || bracket_digit rest
  end.

(** A text is settled when it is empty, or when
    - every line is trimmed and has three characters at least;
    - no line reads as the first half of a wrapped line or ends in a
      broken word;
    - no line is blank or starts with a skip pattern, and none is a
      reference heading;
    - the first line names the abstract or the introduction, or no line
      does;
    - no line names a main section, or the first line does and no line
      ends the main sections;
    - the text holds no tab, no two blanks in a row, none of the three
      characters that the cleaner deletes in a row, and no opening
      bracket with a digit after it. *)
Definition settled (text : pystr) : bool :=
  let lines := split (py "\n") text in
  negb (truthy text)
  || (forallb (fun l => pystr_eqb (strip l) l && (3 <=? length l)) lines
      && each_pair (fun l n => negb (wrapped l n) && negb (broken l n)) lines
      && forallb keeps_line lines
      && forallb (fun l => negb (reference_word l)) lines
      && (names_content (hd [] lines)
          || forallb (fun l => negb (names_content l)) lines)
      && (forallb (fun l => negb (is_header l)) lines
          || is_header (hd [] lines)
             && forallb (fun l => negb (ends_sections l)) lines)
      && negb (contains (py "\t") text)
      && negb (contains (py "  ") text)
      && negb (contains mojibake text)
      && negb (bracket_digit text)).

(** A line of a settled text: trimmed, three characters at least, and on
    one line. *)
Definition line_ok (l : pystr) : Prop :=
  strip l = l /\ 3 <= length l /\ ~ In Char.nl l.

(** The text [b] is what is left of the lines joined by newlines, read
    from some place in some line on. *)
Definition reads_from (lines : list pystr) (b : pystr) : Prop :=
  exists pre p s rest,
    lines = pre ++ (p ++ s) :: rest /\ b = join (py "\n") (s :: rest).

(** ** The model on small inputs *)

Example isspace_codes :
  codes_of Char.isspace = [9; 10; 11; 12; 13; 28; 29; 30; 31; 32; 133; 160]%N.
Proof. vm_compute. reflexivity. Qed.
Example isdigit_codes :
  codes_of Char.isdigit = [48; 49; 50; 51; 52; 53; 54; 55; 56; 57; 178; 179; 185]%N.
Proof. vm_compute. reflexivity. Qed.
Example islower_count : length (codes_of Char.islower) = 61.
Proof. vm_compute. reflexivity. Qed.
Example isword_count : length (codes_of Char.isword) = 134.
Proof. vm_compute. reflexivity. Qed.
Example lower_changes :
  codes_of (fun c => negb (Ascii.eqb (Char.lower c) c))
  = map N.of_nat (seq 65 26 ++ seq 192 23 ++ seq 216 7).
Proof. vm_compute. reflexivity. Qed.

Example py_escape : py "a\n\tb" = ["a"; Char.nl; Char.tab; "b"]%char.
Proof. reflexivity. Qed.
Example split_ex : split (py "\n\n") (py "a\n\nb\n\n\nc") = [py "a"; py "b"; py "\nc"].
Proof. reflexivity. Qed.
Example split_max_ex : split_max 1 (py ".") (py "1. a.b") = [py "1"; py " a.b"].
Proof. reflexivity. Qed.
Example strip_ex : strip (py "  \n a b \t") = py "a b".
Proof. reflexivity. Qed.
Example replace_ex : replace (py "ab") empty (py "aabbab") = py "ab".
Proof. reflexivity. Qed.
Example str_of_int_ex : str_of_int 12 = py "12" /\ str_of_int 0 = py "0".
Proof. split; reflexivity. Qed.
Example re_sub_ex :
  re_sub false (Star (Chr (CChar "x"))) [RText (py "-")] (py "abxd") = py "-a-b--d-".
Proof. reflexivity. Qed.
Example re_split_ex :
  re_split false (Seq (LookBehind (CSet (py ".!?"))) (Plus (Chr CSpace)))
           (py "A b.  C d! E") = [py "A b."; py "C d!"; py "E"].
Proof. reflexivity. Qed.
Example re_search_ex :
  option_map fst (re_search true
     (Cat [Chr (CChar Char.nl); Star (Chr CSpace); Lit (py "REFERENCES");
           Star (Chr CSpace); Chr (CChar Char.nl)])
     (py "abc\n\n  References \n\n[1] x")) = Some 3.
Proof. reflexivity. Qed.
Example chunk_ex :
  chunk_text (TextChunker_init 3 200)
    (py "One two.\n\nThree four five six seven. Eight nine ten.\n\nEnd.") =
  [py "One two."; py "Three four five six seven.";
   py "Three four five six seven. Eight nine ten."; py "End."].
Proof. reflexivity. Qed.
Example clean_ex :
  clean (py "Deep Learning for Everything and More\nA. Author\nauthor@uni.edu\nAbstract\nWe study things [1].\n12\nIntroduction\nIt works.\nReferences\n[1] Foo.\n")
  = py "Abstract\nWe study things .\nIntroduction\nIt works.".
Proof. vm_compute. reflexivity. Qed.
Example parse_ex :
  parse_response (py "Sure!\nFACTUAL QUESTIONS:\n1. What is a list?\n2) Who wrote it?\n- Where?\n\nCONCEPTUAL QUESTIONS:\n1. Why does it work?")
  = Some (Questions [py "What is a list?"; py "Who wrote it?"; py "- Where?"]
                    [py "Why does it work?"]).
Proof. vm_compute. reflexivity. Qed.
Example dedup_ex :
  _remove_duplicates [py "What is X?"; py "what is x"; py "Why Y?"]
  = [py "What is X?"; py "Why Y?"].
Proof. vm_compute. reflexivity. Qed.
Example prompt_ex :
  firstn 61 (skipn 91 (create_prompt (py "d") (Some 2%Z) (Some 3%Z)))
  = py "Given the following document\n(Note: This is chunk 2 of 3 from".
Proof. vm_compute. reflexivity. Qed.

(** * Lemmas on the string operations *)

Section Strings.

Lemma dropwhile_idem {A} (p : A -> bool) (l : list A) :
  dropwhile p (dropwhile p l) = dropwhile p l.
Proof.
  induction l as [|x l IH]; simpl.
  - reflexivity.
  - destruct (p x) eqn:E.
    + exact IH.
    + simpl. rewrite E. reflexivity.
Qed.

Lemma dropwhile_head {A} (p : A -> bool) (l : list A) x l' :
  dropwhile p l = x :: l' -> p x = false.
Proof.
  induction l as [|y l IH]; simpl.
  - discriminate.
  - destruct (p y) eqn:E.
    + exact IH.
    + intros H. injection H as -> _. exact E.
Qed.

Lemma dropwhile_stop {A} (p : A -> bool) x (l : list A) :
  p x = false -> dropwhile p (x :: l) = x :: l.
Proof. intros H. simpl. rewrite H. reflexivity. Qed.

Lemma dropwhile_all {A} (p : A -> bool) (ws l : list A) :
  forallb p ws = true -> dropwhile p (ws ++ l) = dropwhile p l.
Proof.
  induction ws as [|w ws IH]; simpl.
  - reflexivity.
  - intros H. apply andb_prop in H as [Hw Hws]. rewrite Hw. exact (IH Hws).
Qed.

Lemma dropwhile_app_last {A} (p : A -> bool) (l : list A) c :
  p c = false -> dropwhile p (l ++ [c]) = dropwhile p l ++ [c].
Proof.
  intros Hc. induction l as [|x l IH]; simpl.
  - rewrite Hc. reflexivity.
  - destruct (p x); [exact IH | reflexivity].
Qed.

Lemma rstrip_cons (c : ascii) (s : pystr) :
  Char.isspace c = false -> rstrip (c :: s) = c :: rstrip s.
Proof.
  intros Hc. unfold rstrip. simpl.
  rewrite (dropwhile_app_last _ _ _ Hc), rev_app_distr. reflexivity.
Qed.

Lemma rstrip_idem (s : pystr) : rstrip (rstrip s) = rstrip s.
Proof.
  unfold rstrip. rewrite rev_involutive, dropwhile_idem. reflexivity.
Qed.

Lemma strip_trimmed (s : pystr) : trimmed (strip s).
Proof.
  unfold trimmed, strip. split.
  - destruct (lstrip s) as [|c r] eqn:E.
    + reflexivity.
    + pose proof (dropwhile_head _ _ _ _ E) as Hc.
      rewrite (rstrip_cons _ _ Hc). apply dropwhile_stop. exact Hc.
  - apply rstrip_idem.
Qed.

Lemma trimmed_strip (s : pystr) : trimmed s -> strip s = s.
Proof. intros [Hl Hr]. unfold strip. rewrite Hl. exact Hr. Qed.

Lemma strip_idem (s : pystr) : strip (strip s) = strip s.
Proof. apply trimmed_strip, strip_trimmed. Qed.

Lemma strip_fixed_trimmed (s : pystr) : strip s = s -> trimmed s.
Proof. intros H. rewrite <- H. apply strip_trimmed. Qed.

Lemma dropwhile_length {A} (p : A -> bool) (l : list A) :
  length (dropwhile p l) <= length l.
Proof.
  induction l as [|x l IH]; simpl.
  - lia.
  - destruct (p x); simpl; lia.
Qed.

Lemma trimmed_first (c : ascii) (s : pystr) :
  trimmed (c :: s) -> Char.isspace c = false.
Proof.
  intros [Hl _]. unfold lstrip in Hl. simpl in Hl.
  destruct (Char.isspace c); [|reflexivity].
  pose proof (dropwhile_length Char.isspace s) as Hlen.
  rewrite Hl in Hlen. simpl in Hlen. lia.
Qed.

Lemma trimmed_last (s : pystr) (c : ascii) :
  trimmed (s ++ [c]) -> Char.isspace c = false.
Proof.
  intros [_ Hr]. unfold rstrip in Hr.
  rewrite rev_app_distr in Hr. simpl in Hr.
  destruct (Char.isspace c); [|reflexivity].
  apply (f_equal (@length ascii)) in Hr.
  rewrite length_rev, length_app in Hr. simpl in Hr.
  pose proof (dropwhile_length Char.isspace (rev s)) as Hlen.
  rewrite length_rev in Hlen. lia.
Qed.

(** White space before a string is stripped with it. *)
Lemma strip_leading (ws s : pystr) :
  forallb Char.isspace ws = true -> strip (ws ++ s) = strip s.
Proof.
  intros H. unfold strip, lstrip. rewrite (dropwhile_all _ _ _ H). reflexivity.
Qed.

Lemma rstrip_trailing (s ws : pystr) :
  forallb Char.isspace ws = true -> rstrip (s ++ ws) = rstrip s.
Proof.
  intros H. unfold rstrip. rewrite rev_app_distr.
  rewrite dropwhile_all; [reflexivity|].
  rewrite forallb_forall in *. intros x Hx. apply H, in_rev. exact Hx.
Qed.

Lemma rstrip_app (a b : pystr) :
  b <> [] -> rstrip b = b -> rstrip (a ++ b) = a ++ b.
Proof.
  intros Hb Hr.
  destruct (exists_last Hb) as [b' [c ->]].
  assert (Hc : Char.isspace c = false).
  { unfold rstrip in Hr. rewrite rev_app_distr in Hr. simpl in Hr.
    destruct (Char.isspace c); [|reflexivity].
    apply (f_equal (@length ascii)) in Hr.
    rewrite length_rev, length_app in Hr. simpl in Hr.
    pose proof (dropwhile_length Char.isspace (rev b')) as Hlen.
    rewrite length_rev in Hlen. lia. }
  unfold rstrip. rewrite app_assoc, rev_app_distr. simpl. rewrite Hc.
  simpl. rewrite rev_involutive. reflexivity.
Qed.

(** A string that starts and ends with characters that are not white
    space is its own strip, whatever is put before its trimmed end. *)
Lemma strip_fixed (c : ascii) (a b : pystr) :
  Char.isspace c = false -> b <> [] -> rstrip b = b ->
  strip (c :: a ++ b) = c :: a ++ b.
Proof.
  intros Hc Hb Hr. unfold strip, lstrip.
  rewrite (dropwhile_stop _ _ _ Hc).
  exact (rstrip_app (c :: a) b Hb Hr).
Qed.

(** *** startswith, contains, partition, split *)

Lemma startswith_app (p s : pystr) : startswith (p ++ s) p = true.
Proof.
  induction p as [|a p IH]; simpl.
  - reflexivity.
  - rewrite Ascii.eqb_refl. exact IH.
Qed.

Lemma startswith_iff (s p : pystr) :
  startswith s p = true <-> exists t, s = p ++ t.
Proof.
  revert s. induction p as [|a p IH]; intros s; simpl.
  - split; [intros _; exists s; reflexivity | reflexivity].
  - destruct s as [|b s].
    + split; [discriminate | intros [t H]; discriminate].
    + split.
      * intros H. apply andb_prop in H as [Hab Hs].
        apply Ascii.eqb_eq in Hab. subst b.
        apply IH in Hs as [t ->]. exists t. reflexivity.
      * intros [t H]. injection H as -> ->.
        rewrite Ascii.eqb_refl. simpl. apply IH. exists t. reflexivity.
Qed.

(** A pattern without newline that starts a text running over a newline
    already starts the part before the newline. *)
Lemma startswith_before_newline (p u v : pystr) :
  ~ In Char.nl p ->
  startswith (u ++ Char.nl :: v) p = true -> startswith u p = true.
Proof.
  revert u. induction p as [|a p IH]; intros u Hnl; simpl.
  - reflexivity.
  - destruct u as [|b u]; simpl.
    + intros H. apply andb_prop in H as [Hab _].
      apply Ascii.eqb_eq in Hab. exfalso. apply Hnl. left. exact Hab.
    + intros H. apply andb_prop in H as [Hab Hs].
      rewrite Hab. simpl. apply IH; [|exact Hs].
      intros Hin. apply Hnl. right. exact Hin.
Qed.

Lemma contains_nil_pattern (s : pystr) : contains [] s = true.
Proof. destruct s; reflexivity. Qed.

Lemma partition_none (sep s : pystr) :
  contains sep s = false -> partition sep s = None.
Proof.
  induction s as [|c s IH]; simpl.
  - intros H. rewrite orb_false_r in H. rewrite H. reflexivity.
  - intros H. apply orb_false_elim in H as [H1 H2].
    rewrite H1, (IH H2). reflexivity.
Qed.

Lemma partition_some_contains (sep s : pystr) a b :
  partition sep s = Some (a, b) -> contains sep s = true.
Proof.
  revert a b. induction s as [|c s IH]; intros a b; simpl.
  - destruct (startswith [] sep); [reflexivity | discriminate].
  - destruct (startswith (c :: s) sep); [reflexivity|].
    destruct (partition sep s) as [[a' b']|] eqn:E; [|discriminate].
    intros _. simpl. exact (IH a' b' eq_refl).
Qed.

Lemma partition_here (sep rest : pystr) :
  partition sep (sep ++ rest) = Some ([], rest).
Proof.
  destruct sep as [|a sep].
  - destruct rest; reflexivity.
  - cbn [partition app].
    change (a :: sep ++ rest) with ((a :: sep) ++ rest).
    rewrite startswith_app.
    rewrite skipn_app, skipn_all, Nat.sub_diag. reflexivity.
Qed.

(** The search for a separator without newline passes a line in which
    the separator does not occur. *)
Lemma partition_line (sep u v : pystr) :
  ~ In Char.nl sep -> sep <> [] -> contains sep u = false ->
  partition sep (u ++ Char.nl :: v)
  = match partition sep v with
    | Some (a, b) => Some (u ++ Char.nl :: a, b)
    | None => None
    end.
Proof.
  intros Hnl Hne. induction u as [|c u IH]; intros Hu.
  - cbn [app partition].
    destruct (startswith (Char.nl :: v) sep) eqn:E.
    + exfalso. destruct sep as [|a sep]; [congruence|].
      simpl in E. apply andb_prop in E as [E _].
      apply Ascii.eqb_eq in E. apply Hnl. left. exact E.
    + reflexivity.
  - simpl in Hu. apply orb_false_elim in Hu as [H1 H2].
    cbn [app partition].
    destruct (startswith (c :: u ++ Char.nl :: v) sep) eqn:E.
    + apply (startswith_before_newline sep (c :: u) v Hnl) in E. congruence.
    + rewrite (IH H2). destruct (partition sep v) as [[a b]|]; reflexivity.
Qed.

Lemma contains_char_false (c : ascii) (s : pystr) :
  ~ In c s -> contains [c] s = false.
Proof.
  induction s as [|x s IH]; intros Hin; simpl.
  - reflexivity.
  - rewrite IH by (intros H; apply Hin; right; exact H).
    destruct (Ascii.eqb c x) eqn:E; [|reflexivity].
    apply Ascii.eqb_eq in E. exfalso. apply Hin. left. symmetry. exact E.
Qed.

Lemma partition_char (c : ascii) (u v : pystr) :
  ~ In c u -> partition [c] (u ++ c :: v) = Some (u, v).
Proof.
  induction u as [|x u IH]; intros Hin.
  - cbn [app]. change (c :: v) with ([c] ++ v). apply partition_here.
  - cbn [app partition startswith].
    destruct (Ascii.eqb c x) eqn:E.
    + apply Ascii.eqb_eq in E. exfalso. apply Hin. left. symmetry. exact E.
    + simpl. rewrite IH by (intros H; apply Hin; right; exact H). reflexivity.
Qed.

Lemma split_max_none (n : nat) (sep s : pystr) :
  contains sep s = false -> split_max n sep s = [s].
Proof.
  intros H. destruct n; simpl.
  - reflexivity.
  - rewrite (partition_none _ _ H). reflexivity.
Qed.

Lemma split_none (sep s : pystr) :
  contains sep s = false -> split sep s = [s].
Proof. apply split_max_none. Qed.

Lemma split_max_once (n : nat) (sep s a b : pystr) :
  partition sep s = Some (a, b) -> contains sep b = false ->
  split_max (S n) sep s = [a; b].
Proof.
  intros Hs Hb. simpl. rewrite Hs, (split_max_none _ _ _ Hb). reflexivity.
Qed.

Lemma split_once (sep s a b : pystr) :
  partition sep s = Some (a, b) -> contains sep b = false ->
  split sep s = [a; b].
Proof.
  intros Hs Hb. unfold split.
  destruct (length s) eqn:E.
  - destruct s; [|discriminate].
    pose proof (partition_some_contains _ _ _ _ Hs) as Hc.
    assert (b = []) as ->.
    { simpl in Hs. destruct (startswith [] sep); [|discriminate].
      injection Hs as _ <-. apply skipn_nil. }
    congruence.
  - exact (split_max_once n _ _ _ _ Hs Hb).
Qed.

Lemma split_max_nonempty (n : nat) (sep s : pystr) :
  exists x, last_item (split_max n sep s) = Some x.
Proof.
  revert s. induction n as [|n IH]; intros s; simpl.
  - exists s. reflexivity.
  - destruct (partition sep s) as [[a b]|].
    + destruct (IH b) as [x Hx]. exists x.
      destruct (split_max n sep b); [discriminate | exact Hx].
    + exists s. reflexivity.
Qed.

End Strings.

Section Occurrences.

Lemma startswith_app_r (s t p : pystr) :
  startswith s p = true -> startswith (s ++ t) p = true.
Proof.
  intros H. apply startswith_iff in H as [u ->].
  rewrite <- app_assoc. apply startswith_app.
Qed.

Lemma startswith_nil_false (p : pystr) : p <> [] -> startswith [] p = false.
Proof. destruct p; [congruence | reflexivity]. Qed.

(** A separator without newline occurs in a text of two lines when it
    occurs in one of the lines. *)
Lemma contains_line (sep u v : pystr) :
  ~ In Char.nl sep -> sep <> [] ->
  contains sep (u ++ Char.nl :: v) = contains sep u || contains sep v.
Proof.
  intros Hnl Hne. induction u as [|c u IH].
  - cbn [app contains]. rewrite (startswith_nil_false sep Hne).
    destruct (startswith (Char.nl :: v) sep) eqn:E; [|reflexivity].
    exfalso. destruct sep as [|a sep]; [congruence|].
    simpl in E. apply andb_prop in E as [E _].
    apply Ascii.eqb_eq in E. apply Hnl. left. exact E.
  - cbn [app contains]. rewrite IH, orb_assoc. f_equal. f_equal.
    destruct (startswith (c :: u) sep) eqn:E.
    + apply (startswith_app_r (c :: u) (Char.nl :: v)) in E. exact E.
    + destruct (startswith (c :: u ++ Char.nl :: v) sep) eqn:E'; [|reflexivity].
      apply (startswith_before_newline sep (c :: u) v Hnl) in E'. congruence.
Qed.

Lemma contains_char_iff (c : ascii) (s : pystr) :
  contains [c] s = false <-> ~ In c s.
Proof.
  split.
  - intros H Hin. induction s as [|x s IH]; simpl in *.
    + exact Hin.
    + apply orb_false_elim in H as [H1 H2]. destruct Hin as [-> | Hin].
      * rewrite Ascii.eqb_refl in H1. discriminate.
      * exact (IH H2 Hin).
  - apply contains_char_false.
Qed.

End Occurrences.

(** * The matcher finds what the patterns match *)

Section Matcher.

Variable ic : bool.

Lemma finds_blind body r k :
  finds ic body r -> blind k -> blind (fun st => body st k).
Proof.
  intros Hf Hk st1 st2 Hpos.
  rewrite (Hf st1 k Hk), (Hf st2 k Hk), Hpos. reflexivity.
Qed.

Lemma state_at (p : position) : exists st, pos st = p.
Proof. destruct p as [b a]. exists (MState b a []). reflexivity. Qed.

Lemma pos_after st1 st2 : pos st1 = pos st2 -> after st1 = after st2.
Proof. unfold pos. congruence. Qed.

Lemma star_loop_finds body a k :
  finds ic body a -> blind k ->
  forall fuel st, length (after st) <= fuel ->
    (star_loop body k fuel st <> None <->
     exists st', Match ic (Star a) (pos st) (pos st') /\ k st' <> None).
Proof.
  intros Hbody Hk. induction fuel as [|fuel IH]; intros st Hlen.
  - simpl. split.
    + intros H. exists st. split; [constructor | exact H].
    + intros [st' [HM Hst']].
      inversion HM as [| | |a0 p Hp|a0 p q r Ha Hlt Hs| | | | | |]; subst.
      * apply (Hk st st'); [same_pos | assumption].
      * simpl in Hlt. lia.
  - set (k2 := fun st' : mstate =>
                 if length (after st') <? length (after st)
                 then star_loop body k fuel st' else None).
    assert (Hk2 : blind k2).
    { intros st1 st2 Hpos. unfold k2.
      rewrite <- (pos_after _ _ Hpos).
      destruct (length (after st1) <? length (after st)) eqn:E; [|tauto].
      apply Nat.ltb_lt in E.
      rewrite (IH st1) by lia.
      rewrite (IH st2) by (rewrite <- (pos_after _ _ Hpos); lia).
      rewrite Hpos. reflexivity. }
    change (star_loop body k (S fuel) st)
      with (match body st k2 with Some res => Some res | None => k st end).
    pose proof (Hbody st k2 Hk2) as Hb.
    split.
    + intros H. destruct (body st k2) as [res|] eqn:E.
      * assert (Hsome : Some res <> (None : option mstate)) by discriminate.
        apply Hb in Hsome as [st1 [Ha Hst1]].
        unfold k2 in Hst1.
        destruct (length (after st1) <? length (after st)) eqn:E1; [|congruence].
        apply Nat.ltb_lt in E1.
        apply IH in Hst1 as [st' [Hs Hst']]; [|lia].
        exists st'. split; [|exact Hst'].
        eapply M_Star_more; eauto.
      * exists st. split; [constructor | exact H].
    + intros [st' [HM Hst']].
      inversion HM as [| | |a0 p Hp|a0 p q r Ha Hlt Hs| | | | | |]; subst.
      * destruct (body st k2); [discriminate|].
        apply (Hk st st'); [same_pos | assumption].
      * destruct (state_at q) as [st1 Hst1]. subst q.
        assert (Hne : body st k2 <> None).
        { apply Hb. exists st1. split; [exact Ha|].
          unfold k2. simpl in Hlt.
          apply Nat.ltb_lt in Hlt as Hlt'. rewrite Hlt'.
          apply IH; [lia|]. exists st'. split; assumption. }
        destruct (body st k2); [discriminate | congruence].
Qed.

Theorem m_finds : forall r, finds ic (m ic r) r.
Proof.
  induction r as [|c|a IHa b IHb|a IHa|a IHa|n a IHa| | |c];
    intros st k Hk; simpl.
  - (* Eps *)
    split.
    + intros H. exists st. split; [constructor | exact H].
    + intros [st' [HM H]]. inversion HM; subst.
      apply (Hk st st'); [same_pos | assumption].
  - (* Chr *)
    destruct st as [bef aft g]. simpl. unfold pos. simpl.
    destruct aft as [|x rest].
    + split; [congruence|].
      intros [st' [HM _]]. inversion HM.
    + destruct (cmatch ic c x) eqn:E.
      * split.
        -- intros H. eexists. split; [|exact H].
           unfold pos. simpl. constructor. exact E.
        -- intros [st' [HM H]]. inversion HM; subst.
           apply (Hk _ st'); [|exact H]. unfold pos. simpl. congruence.
      * split; [congruence|].
        intros [st' [HM _]]. inversion HM; subst. congruence.
  - (* Seq *)
    rewrite (IHa st _ (finds_blind _ b k IHb Hk)).
    split.
    + intros [st1 [Ha H1]]. apply (IHb st1 k Hk) in H1 as [st' [Hb H]].
      exists st'. split; [|exact H]. econstructor; eauto.
    + intros [st' [HM H]]. inversion HM; subst.
      destruct (state_at q) as [st1 Hst1]. subst q.
      exists st1. split; [assumption|].
      apply (IHb st1 k Hk). exists st'. split; assumption.
  - (* Star *)
    apply star_loop_finds; [exact IHa | exact Hk | lia].
  - (* Opt *)
    pose proof (IHa st k Hk) as Ha.
    split.
    + intros H. destruct (m ic a st k) as [res|] eqn:E.
      * assert (Hsome : Some res <> (None : option mstate)) by discriminate.
        apply Ha in Hsome as [st' [HM Hst']].
        exists st'. split; [constructor; exact HM | exact Hst'].
      * exists st. split; [apply M_Opt_none | exact H].
    + intros [st' [HM H]]. inversion HM; subst.
      * assert (Hne : m ic a st k <> None).
        { apply Ha. exists st'. split; assumption. }
        destruct (m ic a st k); [discriminate | congruence].
      * destruct (m ic a st k); [discriminate|].
        apply (Hk st st'); [same_pos | assumption].
  - (* Group *)
    assert (Hk' : blind (fun st' => k (set_group n st st'))).
    { intros st1 st2 Hpos. apply Hk. unfold pos, set_group in *. simpl.
      exact Hpos. }
    rewrite (IHa st _ Hk').
    split.
    + intros [st1 [Ha H]]. exists (set_group n st st1).
      split; [|exact H]. constructor. exact Ha.
    + intros [st' [HM H]]. inversion HM; subst.
      exists st'. split; [assumption|].
      apply (Hk (set_group n st st') st'); [reflexivity | exact H].
  - (* Bol *)
    destruct st as [bef aft g]. unfold pos. simpl.
    destruct bef as [|x bef].
    + split.
      * intros H. eexists. split; [|exact H]. unfold pos. simpl. constructor.
      * intros [st' [HM H]]. inversion HM; subst.
        apply (Hk _ st'); [|exact H]. unfold pos. simpl. congruence.
    + split; [congruence|].
      intros [st' [HM _]]. inversion HM.
  - (* Eol *)
    destruct st as [bef aft g]. unfold pos. simpl.
    destruct (at_end aft) eqn:E.
    + split.
      * intros H. eexists. split; [|exact H]. unfold pos. simpl.
        constructor. exact E.
      * intros [st' [HM H]]. inversion HM; subst.
        apply (Hk _ st'); [|exact H]. unfold pos. simpl. congruence.
    + split; [congruence|].
      intros [st' [HM _]]. inversion HM; subst. congruence.
  - (* LookBehind *)
    destruct st as [bef aft g]. unfold pos. simpl.
    destruct bef as [|x bef].
    + split; [congruence|].
      intros [st' [HM _]]. inversion HM.
    + destruct (cmatch ic c x) eqn:E.
      * split.
        -- intros H. eexists. split; [|exact H]. unfold pos. simpl.
           constructor. exact E.
        -- intros [st' [HM H]]. inversion HM; subst.
           apply (Hk _ st'); [|exact H]. unfold pos. simpl. congruence.
      * split; [congruence|].
        intros [st' [HM _]]. inversion HM; subst. congruence.
Qed.

Lemma blind_Some : blind Some.
Proof. intros st1 st2 _. split; intros _; discriminate. Qed.

(** A match attempt succeeds exactly where the pattern matches. *)
Theorem match_here_iff (r : regex) (bef aft : pystr) :
  match_here ic r bef aft <> None <-> exists q, Match ic r (bef, aft) q.
Proof.
  unfold match_here. rewrite (m_finds r _ Some blind_Some).
  unfold pos. simpl. split.
  - intros [st' [HM _]]. exists (pos st'). exact HM.
  - intros [q HM]. destruct (state_at q) as [st' <-].
    exists st'. split; [exact HM | discriminate].
Qed.

Lemma match_here_none (r : regex) (bef aft : pystr) :
  (forall q, ~ Match ic r (bef, aft) q) -> match_here ic r bef aft = None.
Proof.
  intros H. destruct (match_here ic r bef aft) eqn:E; [|reflexivity].
  exfalso.
  assert (Hne : match_here ic r bef aft <> None) by congruence.
  apply match_here_iff in Hne as [q HM]. exact (H q HM).
Qed.

End Matcher.

(** * Searching and substituting *)

Section Search.

Variable ic : bool.
Variable r : regex.

Lemma rev_firstn_step (c : ascii) (rest bef : pystr) (j : nat) :
  rev (firstn (S j) (c :: rest)) ++ bef = rev (firstn j rest) ++ c :: bef.
Proof. simpl. rewrite <- app_assoc. reflexivity. Qed.

Lemma search_from_none :
  forall aft bef pos0,
    (forall j, j <= length aft ->
       forall q, ~ Match ic r (rev (firstn j aft) ++ bef, skipn j aft) q) ->
    search_from ic r bef aft pos0 = None.
Proof.
  induction aft as [|c rest IH]; intros bef pos0 Hno; simpl.
  - rewrite (match_here_none ic r bef []); [reflexivity|].
    exact (Hno 0 (Nat.le_refl 0)).
  - rewrite (match_here_none ic r bef (c :: rest));
      [|exact (Hno 0 (Nat.le_0_l _))].
    apply IH. intros j Hj q.
    rewrite <- rev_firstn_step. apply (Hno (S j)). simpl. lia.
Qed.

Lemma search_from_first :
  forall aft bef pos0 i,
    i <= length aft ->
    (exists q, Match ic r (rev (firstn i aft) ++ bef, skipn i aft) q) ->
    (forall j, j < i ->
       forall q, ~ Match ic r (rev (firstn j aft) ++ bef, skipn j aft) q) ->
    exists st', search_from ic r bef aft pos0 = Some (pos0 + i, st').
Proof.
  induction aft as [|c rest IH]; intros bef pos0 i Hi Hyes Hno.
  - assert (i = 0) as -> by (simpl in Hi; lia).
    simpl in Hyes. apply match_here_iff in Hyes.
    simpl. destruct (match_here ic r bef []) as [st'|]; [|congruence].
    exists st'. rewrite Nat.add_0_r. reflexivity.
  - destruct i as [|i].
    + simpl in Hyes. apply match_here_iff in Hyes.
      simpl. destruct (match_here ic r bef (c :: rest)) as [st'|]; [|congruence].
      exists st'. rewrite Nat.add_0_r. reflexivity.
    + simpl search_from.
      rewrite (match_here_none ic r bef (c :: rest));
        [|exact (Hno 0 (Nat.lt_0_succ _))].
      destruct (IH (c :: bef) (S pos0) i) as [st' Hst'].
      * simpl in Hi. lia.
      * rewrite <- rev_firstn_step. exact Hyes.
      * intros j Hj q. rewrite <- rev_firstn_step. apply (Hno (S j)). lia.
      * exists st'. rewrite Hst'. f_equal. f_equal. lia.
Qed.

Lemma search_from_some :
  forall aft bef pos0 p st',
    search_from ic r bef aft pos0 = Some (p, st') ->
    exists i, p = pos0 + i /\ i <= length aft
      /\ (exists q, Match ic r (rev (firstn i aft) ++ bef, skipn i aft) q)
      /\ (forall j, j < i ->
            forall q, ~ Match ic r (rev (firstn j aft) ++ bef, skipn j aft) q).
Proof.
  induction aft as [|c rest IH]; intros bef pos0 p st'; simpl.
  - destruct (match_here ic r bef []) as [st0|] eqn:E; [|discriminate].
    intros H. injection H as <- <-. exists 0. repeat split.
    + lia.
    + lia.
    + apply match_here_iff. simpl. congruence.
    + intros j Hj. lia.
  - destruct (match_here ic r bef (c :: rest)) as [st0|] eqn:E.
    + intros H. injection H as <- <-. exists 0. repeat split.
      * lia.
      * lia.
      * apply match_here_iff. simpl. congruence.
      * intros j Hj. lia.
    + intros H. apply IH in H as [i [Hp [Hi [Hyes Hno]]]].
      exists (S i). repeat split.
      * lia.
      * simpl. lia.
      * rewrite rev_firstn_step. exact Hyes.
      * intros [|j] Hj q HM.
        -- simpl in HM.
           assert (Hne : match_here ic r bef (c :: rest) <> None).
           { apply match_here_iff. exists q. exact HM. }
           congruence.
        -- rewrite rev_firstn_step in HM. apply (Hno j) in HM; [exact HM|lia].
Qed.

Lemma search_from_none_inv :
  forall aft bef pos0,
    search_from ic r bef aft pos0 = None ->
    forall j, j <= length aft ->
      forall q, ~ Match ic r (rev (firstn j aft) ++ bef, skipn j aft) q.
Proof.
  induction aft as [|c rest IH]; intros bef pos0; simpl.
  - destruct (match_here ic r bef []) as [st0|] eqn:E; [discriminate|].
    intros _ j Hj q HM. assert (j = 0) as -> by lia. simpl in HM.
    assert (Hne : match_here ic r bef [] <> None).
    { apply match_here_iff. exists q. exact HM. }
    congruence.
  - destruct (match_here ic r bef (c :: rest)) as [st0|] eqn:E; [discriminate|].
    intros H [|j] Hj q HM.
    + simpl in HM.
      assert (Hne : match_here ic r bef (c :: rest) <> None).
      { apply match_here_iff. exists q. exact HM. }
      congruence.
    + rewrite rev_firstn_step in HM.
      apply (IH _ _ H j) in HM; [exact HM|lia].
Qed.

(** [re.search] returns the leftmost index at which the pattern matches. *)
Theorem re_search_first (text : pystr) (i : nat) :
  match_at ic r text i ->
  (forall j, j < i -> ~ match_at ic r text j) ->
  exists st', re_search ic r text = Some (i, st').
Proof.
  intros [Hi Hyes] Hno. unfold re_search.
  destruct (search_from_first text [] 0 i Hi) as [st' Hst'].
  - rewrite app_nil_r. exact Hyes.
  - intros j Hj q HM. apply (Hno j Hj). split; [lia|].
    exists q. rewrite app_nil_r in HM. exact HM.
  - exists st'. exact Hst'.
Qed.

Theorem re_search_none (text : pystr) :
  (forall j, ~ match_at ic r text j) -> re_search ic r text = None.
Proof.
  intros Hno. apply search_from_none. intros j Hj q HM.
  apply (Hno j). split; [exact Hj|].
  exists q. rewrite app_nil_r in HM. exact HM.
Qed.

Theorem re_search_some (text : pystr) (i : nat) st' :
  re_search ic r text = Some (i, st') ->
  match_at ic r text i /\ (forall j, j < i -> ~ match_at ic r text j).
Proof.
  intros H. apply search_from_some in H as [i' [Hp [Hi [Hyes Hno]]]].
  simpl in Hp. subst i'. split.
  - split; [exact Hi|]. destruct Hyes as [q HM]. exists q.
    rewrite app_nil_r in HM. exact HM.
  - intros j Hj [_ [q HM]]. apply (Hno j Hj q). rewrite app_nil_r. exact HM.
Qed.

Theorem re_search_none_inv (text : pystr) :
  re_search ic r text = None -> forall j, ~ match_at ic r text j.
Proof.
  intros H j [Hj [q HM]].
  apply (search_from_none_inv _ _ _ H j Hj q). rewrite app_nil_r. exact HM.
Qed.

(** Where no attempt succeeds, [re.sub] changes nothing. *)
Lemma sub_loop_unmatched (repl : list ritem) (P : pystr -> Prop) :
  (forall c s, P (c :: s) -> P s) ->
  (forall bef aft, P aft -> match_here ic r bef aft = None) ->
  forall aft bef, P aft -> sub_loop ic r repl bef aft 0 = aft.
Proof.
  intros Htail Hnone. induction aft as [|c rest IH]; intros bef HP; simpl.
  - rewrite (Hnone bef [] HP). reflexivity.
  - rewrite (Hnone bef (c :: rest) HP).
    rewrite (IH (c :: bef) (Htail c rest HP)). reflexivity.
Qed.

End Search.

(** ** What a match spans *)

Section Spans.

Variable ic : bool.

Lemma eqb_nocase_newline (x : ascii) :
  Char.eqb_nocase Char.nl x = true -> x = Char.nl.
Proof.
  destruct x as [[] [] [] [] [] [] [] []]; vm_compute; intros H;
    try reflexivity; discriminate.
Qed.

Lemma cmatch_newline (x : ascii) :
  cmatch ic (CChar Char.nl) x = true -> x = Char.nl.
Proof.
  cbn [cmatch]. destruct ic.
  - apply eqb_nocase_newline.
  - intros H. apply Ascii.eqb_eq in H. symmetry. exact H.
Qed.

(** A match spans a stretch [w] of the text after its start. *)
Lemma Match_span r p q :
  Match ic r p q ->
  exists w, snd p = w ++ snd q /\ fst q = rev w ++ fst p
            /\ (needs_newline r = true -> In Char.nl w).
Proof.
  induction 1 as [p|c x bef aft Hc|a b p q r' Ha IHa Hb IHb|a p
                 |a p q r' Ha IHa Hlt Hs IHs|a p q Ha IHa|a p|n a p q Ha IHa
                 |aft|bef aft He|c x bef aft Hc].
  - exists []. simpl. repeat split; try reflexivity. discriminate.
  - exists [x]. simpl. repeat split; try reflexivity.
    destruct c; try discriminate. intros H.
    apply Ascii.eqb_eq in H. subst c. left.
    apply cmatch_newline. exact Hc.
  - destruct IHa as [wa [Ha1 [Ha2 Ha3]]]. destruct IHb as [wb [Hb1 [Hb2 Hb3]]].
    exists (wa ++ wb). repeat split.
    + rewrite Ha1, Hb1, app_assoc. reflexivity.
    + rewrite Hb2, Ha2, rev_app_distr, app_assoc. reflexivity.
    + simpl. intros H. apply in_or_app. apply orb_prop in H as [H|H]; auto.
  - exists []. simpl. repeat split; try reflexivity. discriminate.
  - destruct IHa as [wa [Ha1 [Ha2 _]]]. destruct IHs as [wb [Hb1 [Hb2 _]]].
    exists (wa ++ wb). repeat split.
    + rewrite Ha1, Hb1, app_assoc. reflexivity.
    + rewrite Hb2, Ha2, rev_app_distr, app_assoc. reflexivity.
    + discriminate.
  - destruct IHa as [w [H1 [H2 _]]]. exists w. repeat split; auto. discriminate.
  - exists []. simpl. repeat split; try reflexivity. discriminate.
  - destruct IHa as [w [H1 [H2 H3]]]. exists w. repeat split; auto.
  - exists []. simpl. repeat split; try reflexivity. discriminate.
  - exists []. simpl. repeat split; try reflexivity. discriminate.
  - exists []. simpl. repeat split; try reflexivity. discriminate.
Qed.

Lemma match_here_needs_newline r bef aft :
  needs_newline r = true -> ~ In Char.nl aft -> match_here ic r bef aft = None.
Proof.
  intros Hr Hnl. apply match_here_none. intros q HM.
  destruct (Match_span _ _ _ HM) as [w [Hw [_ Hin]]].
  apply Hnl. simpl in Hw. rewrite Hw. apply in_or_app. left. exact (Hin Hr).
Qed.

(** On a text without newline, a pattern that needs one is not found and
    substitutes nothing. *)
Lemma re_search_needs_newline r text :
  needs_newline r = true -> ~ In Char.nl text -> re_search ic r text = None.
Proof.
  intros Hr Hnl. apply re_search_none. intros j [Hj [q HM]].
  destruct (Match_span _ _ _ HM) as [w [Hw [_ Hin]]].
  apply Hnl. rewrite <- (firstn_skipn j text). apply in_or_app. right.
  simpl in Hw. rewrite Hw. apply in_or_app. left. exact (Hin Hr).
Qed.

Lemma re_sub_needs_newline r repl text :
  needs_newline r = true -> ~ In Char.nl text -> re_sub ic r repl text = text.
Proof.
  intros Hr Hnl. unfold re_sub.
  apply (sub_loop_unmatched ic r repl (fun s => ~ In Char.nl s)).
  - intros c s H Hin. apply H. right. exact Hin.
  - intros bef aft H. apply match_here_needs_newline; assumption.
  - exact Hnl.
Qed.

(** *** Repetition of a character class, literals *)

Lemma Match_chr_inv c bef aft q :
  Match ic (Chr c) (bef, aft) q ->
  exists x rest, aft = x :: rest /\ cmatch ic c x = true /\ q = (x :: bef, rest).
Proof.
  intros HM. inversion HM; subst. eauto.
Qed.

Lemma Match_star_chr_inv c p q :
  Match ic (Star (Chr c)) p q ->
  exists ws, forallb (cmatch ic c) ws = true
             /\ snd p = ws ++ snd q /\ fst q = rev ws ++ fst p.
Proof.
  intros HM. remember (Star (Chr c)) as r eqn:Er.
  induction HM as [| | |a p|a p q r' Ha _ Hlt Hs IHs| | | | | |];
    try discriminate.
  - exists []. auto.
  - injection Er as ->. destruct p as [bef aft].
    apply Match_chr_inv in Ha as [x [rest [-> [Hx ->]]]].
    destruct (IHs eq_refl) as [ws [Hws [H1 H2]]].
    exists (x :: ws). simpl in *. repeat split.
    + rewrite Hx, Hws. reflexivity.
    + rewrite H1. reflexivity.
    + rewrite H2, <- app_assoc. reflexivity.
Qed.

Lemma Match_star_chr c ws bef rest :
  forallb (cmatch ic c) ws = true ->
  Match ic (Star (Chr c)) (bef, ws ++ rest) (rev ws ++ bef, rest).
Proof.
  revert bef. induction ws as [|x ws IH]; intros bef H; simpl.
  - constructor.
  - simpl in H. apply andb_prop in H as [Hx Hws].
    apply (M_Star_more ic (Chr c) _ (x :: bef, ws ++ rest)).
    + constructor. exact Hx.
    + simpl. lia.
    + rewrite <- app_assoc. simpl. apply IH. exact Hws.
Qed.

Lemma Match_lit_inv s p q :
  Match ic (Lit s) p q ->
  exists w, spells ic s w /\ snd p = w ++ snd q /\ fst q = rev w ++ fst p.
Proof.
  revert p. induction s as [|a s IH]; intros p HM; simpl in HM.
  - inversion HM; subst. exists []. repeat split. constructor.
  - inversion HM as [| |a0 b0 p0 q0 r0 Ha Hs| | | | | | | |]; subst.
    destruct p as [bef aft].
    apply Match_chr_inv in Ha as [x [rest [-> [Hx ->]]]].
    destruct (IH _ Hs) as [w [Hw [H1 H2]]].
    exists (x :: w). simpl in *. repeat split.
    + constructor; assumption.
    + rewrite H1. reflexivity.
    + rewrite H2, <- app_assoc. reflexivity.
Qed.

Lemma Match_lit s w bef rest :
  spells ic s w -> Match ic (Lit s) (bef, w ++ rest) (rev w ++ bef, rest).
Proof.
  intros H. revert bef. induction H as [|a x s w Hx Hw IH]; intros bef; simpl.
  - constructor.
  - apply (M_Seq ic _ _ _ (x :: bef, w ++ rest)).
    + constructor. exact Hx.
    + rewrite <- app_assoc. simpl. apply IH.
Qed.

End Spans.

Lemma spells_nocase (s w : pystr) : spells true s w <-> lower w = lower s.
Proof.
  unfold spells, lower. split.
  - induction 1 as [|a x s w Hx _ IH]; simpl.
    + reflexivity.
    + simpl in Hx. unfold Char.eqb_nocase in Hx.
      apply Ascii.eqb_eq in Hx. rewrite Hx, IH. reflexivity.
  - revert w. induction s as [|a s IH]; intros [|x w] H; simpl in H;
      try discriminate.
    + constructor.
    + injection H as Hx Hw. constructor.
      * simpl. unfold Char.eqb_nocase. rewrite Hx. apply Ascii.eqb_refl.
      * apply IH. exact Hw.
Qed.

(** * Properties *)

(** ** The chunker *)

Section Chunker.

Local Open Scope Z_scope.

(** The first branch of [chunk_text]. *)
Lemma chunk_text_fits (self : TextChunker) (text : pystr) :
  estimate_tokens self text <= max_tokens self -> chunk_text self text = [text].
Proof.
  intros Hfit. unfold chunk_text.
  apply Z.leb_le in Hfit. rewrite Hfit. reflexivity.
Qed.

(** C1.  A text whose estimated token count (length divided by 4, integer
    division) is at most [max_tokens] comes back as the one-element
    sequence holding the text itself. *)
Theorem chunk_text_short :
  forall (self : TextChunker) (text : pystr),
    estimate_tokens self text <= max_tokens self ->
    chunk_text self text = [text].
Proof.
  intros self text Hfit.
  exact (chunk_text_fits self text Hfit).
Qed.

Lemma chunk_text_short_witness :
  estimate_tokens (TextChunker_init 3000 200) (py "A short text.")
    <= max_tokens (TextChunker_init 3000 200)
  /\ chunk_text (TextChunker_init 3000 200) (py "A short text.")
     = [py "A short text."].
Proof.
  split.
  - vm_compute. discriminate.
  - apply (chunk_text_short (TextChunker_init 3000 200) (py "A short text.")).
    vm_compute. discriminate.
Defined.

(** The chunking functions read the limits [max_tokens] and [max_chars]
    of the chunker and nothing else. *)
Lemma sentence_step_limits :
  forall a b, max_chars a = max_chars b ->
  forall st s, sentence_step a st s = sentence_step b st s.
Proof.
  intros a b Hc st s. unfold sentence_step. rewrite Hc. reflexivity.
Qed.

Lemma fold_left_ext {A B} (f g : A -> B -> A) :
  (forall x y, f x y = g x y) ->
  forall l x, fold_left f l x = fold_left g l x.
Proof.
  intros Hfg l. induction l as [|y l IH]; intros x; simpl.
  - reflexivity.
  - rewrite Hfg. apply IH.
Qed.

Lemma split_long_paragraph_limits :
  forall a b, max_chars a = max_chars b ->
  forall p, _split_long_paragraph a p = _split_long_paragraph b p.
Proof.
  intros a b Hc p. unfold _split_long_paragraph.
  rewrite (fold_left_ext _ _ (sentence_step_limits a b Hc)).
  reflexivity.
Qed.

Lemma paragraph_step_limits :
  forall a b, max_chars a = max_chars b ->
  forall st p, paragraph_step a st p = paragraph_step b st p.
Proof.
  intros a b Hc st p. unfold paragraph_step.
  rewrite Hc, (split_long_paragraph_limits a b Hc). reflexivity.
Qed.

Lemma chunk_by_paragraphs_limits :
  forall a b, max_chars a = max_chars b ->
  forall t, chunk_by_paragraphs a t = chunk_by_paragraphs b t.
Proof.
  intros a b Hc t. unfold chunk_by_paragraphs.
  rewrite (fold_left_ext _ _ (paragraph_step_limits a b Hc)).
  reflexivity.
Qed.

Lemma chunk_text_limits :
  forall a b, max_tokens a = max_tokens b -> max_chars a = max_chars b ->
  forall t, chunk_text a t = chunk_text b t.
Proof.
  intros a b Ht Hc t. unfold chunk_text, estimate_tokens.
  rewrite Ht, (chunk_by_paragraphs_limits a b Hc). reflexivity.
Qed.

(** C9.  The chunk sequence does not depend on the overlap parameter:
    two chunkers built with the same [max_tokens] and any two overlaps
    split every text alike. *)
Theorem chunk_text_ignores_overlap :
  forall (text : pystr) (max_tokens o1 o2 : Z),
    chunk_text (TextChunker_init max_tokens o1) text
    = chunk_text (TextChunker_init max_tokens o2) text.
Proof.
  intros text mt o1 o2.
  apply chunk_text_limits; reflexivity.
Qed.

(** C3, as the code has it.  With a limit that is not negative the empty
    text fits the limit and comes back as one chunk, the empty string. *)
Theorem chunk_text_empty :
  forall (max_tokens overlap : Z),
    0 <= max_tokens ->
    chunk_text (TextChunker_init max_tokens overlap) empty = [empty].
Proof.
  intros mt o Hmt.
  apply chunk_text_fits.
  unfold estimate_tokens. simpl. exact Hmt.
Qed.

Lemma chunk_text_empty_witness :
  0 <= 3000 /\ chunk_text (TextChunker_init 3000 200) empty = [empty].
Proof.
  split.
  - lia.
  - apply (chunk_text_empty 3000 200). lia.
Defined.

(** Only a negative limit sends the empty text to the paragraph loop,
    which finds no paragraph. *)
Lemma empty_text_negative_limit :
  forall (max_tokens overlap : Z),
    max_tokens < 0 ->
    chunk_text (TextChunker_init max_tokens overlap) empty = [].
Proof.
  intros mt o Hmt.
  unfold chunk_text, estimate_tokens.
  change (len empty / 4) with 0.
  destruct (0 <=? max_tokens (TextChunker_init mt o)) eqn:E.
  - apply Z.leb_le in E. simpl in E. lia.
  - reflexivity.
Qed.

(** C3 fails as stated: with the default limit the empty text gives one
    chunk, not none. *)
Lemma empty_text_gives_one_chunk :
  chunk_text (TextChunker_init 3000 200) empty <> [].
Proof.
  vm_compute. discriminate.
Qed.

(** C2 at a failing input.  Three short paragraphs whose lengths add up
    to the limit of 8 characters are joined into one chunk of 12
    characters, 3 estimated tokens for a limit of 2, although no sentence
    in it is longer than 3 characters: the separators are not counted. *)
Theorem chunk_over_limit_by_separators :
  chunk_text (TextChunker_init 2 200) (py "Ab.\n\nCd.\n\nEf")
    = [py "Ab.\n\nCd.\n\nEf"]
  /\ estimate_tokens (TextChunker_init 2 200) (py "Ab.\n\nCd.\n\nEf") = 3
  /\ max_tokens (TextChunker_init 2 200) = 2
  /\ Forall (fun sentence => len sentence <= 3)
            (flat_map (re_split false sentence_break)
                      (split (py "\n\n") (py "Ab.\n\nCd.\n\nEf"))).
Proof.
  split; [vm_compute; reflexivity|].
  split; [vm_compute; reflexivity|].
  split; [reflexivity|].
  vm_compute.
  repeat constructor; discriminate.
Qed.

(** The same at a chunk boundary: the paragraph carried over as overlap
    and the next one are put together without a second look at the limit. *)
Lemma chunk_over_limit_by_overlap :
  chunk_text (TextChunker_init 2 200) (py "Aaaa bb.\n\nCccc dd.")
  = [py "Aaaa bb."; py "Aaaa bb.\n\nCccc dd."]
  /\ estimate_tokens (TextChunker_init 2 200) (py "Aaaa bb.\n\nCccc dd.") = 4.
Proof.
  split; vm_compute; reflexivity.
Qed.

(** The same with the default limit of 3000 tokens: paragraphs of 11998,
    1 and 1 characters make one chunk of 12004 characters. *)
Lemma chunk_over_default_limit :
  chunk_text (TextChunker_init 3000 200)
             (repeat "a"%char (Z.to_nat 11998) ++ py "\n\nb\n\nc")
  = [repeat "a"%char (Z.to_nat 11998) ++ py "\n\nb\n\nc"]
  /\ estimate_tokens (TextChunker_init 3000 200)
                     (repeat "a"%char (Z.to_nat 11998) ++ py "\n\nb\n\nc") = 3001.
Proof.
  split; vm_compute; reflexivity.
Qed.

End Chunker.

(** ** The cleaner *)

Section References.

Lemma Match_seq_inv ic a b p r :
  Match ic (Seq a b) p r -> exists q, Match ic a p q /\ Match ic b q r.
Proof. intros HM. inversion HM; subst. eauto. Qed.

(** The heading pattern matches at a position exactly when the text from
    there on reads: newline, white space, the keyword in any letter case,
    white space, newline. *)
Lemma heading_pattern_matches (keyword : string) (bef aft : pystr) :
  (exists q, Match true (heading_pattern keyword) (bef, aft) q) <->
  (exists ws1 w ws2 rest,
      aft = Char.nl :: ws1 ++ w ++ ws2 ++ Char.nl :: rest
      /\ forallb Char.isspace ws1 = true
      /\ forallb Char.isspace ws2 = true
      /\ lower w = lower (py keyword)).
Proof.
  unfold heading_pattern, chr, c_nl, c_space. cbn [Cat].
  split.
  - intros [q HM].
    apply Match_seq_inv in HM as [q1 [H1 HM]].
    apply Match_seq_inv in HM as [q2 [H2 HM]].
    apply Match_seq_inv in HM as [q3 [H3 HM]].
    apply Match_seq_inv in HM as [q4 [H4 H5]].
    apply Match_chr_inv in H1 as [x [rest1 [-> [Hx ->]]]].
    apply cmatch_newline in Hx. subst x.
    apply Match_star_chr_inv in H2 as [ws1 [Hws1 [E2 _]]].
    apply Match_lit_inv in H3 as [w [Hw [E3 _]]].
    apply Match_star_chr_inv in H4 as [ws2 [Hws2 [E4 _]]].
    destruct q4 as [bef4 aft4].
    apply Match_chr_inv in H5 as [y [rest [-> [Hy _]]]].
    apply cmatch_newline in Hy. subst y.
    simpl in E2, E3, E4.
    exists ws1, w, ws2, rest. repeat split.
    + rewrite E2, E3, E4. reflexivity.
    + exact Hws1.
    + exact Hws2.
    + apply spells_nocase. exact Hw.
  - intros [ws1 [w [ws2 [rest [-> [Hws1 [Hws2 Hw]]]]]]].
    apply spells_nocase in Hw.
    eexists.
    eapply M_Seq; [constructor; reflexivity|].
    eapply M_Seq; [apply Match_star_chr; exact Hws1|].
    eapply M_Seq; [apply Match_lit; exact Hw|].
    eapply M_Seq; [apply Match_star_chr; exact Hws2|].
    constructor. reflexivity.
Qed.

Lemma heading_match_at (keyword : string) (text : pystr) (i : nat) :
  match_at true (heading_pattern keyword) text i <-> heading_at keyword text i.
Proof.
  unfold match_at, heading_at. rewrite heading_pattern_matches.
  split.
  - intros [_ H]. exact H.
  - intros H. split; [|exact H].
    destruct H as [ws1 [w [ws2 [rest [H _]]]]].
    destruct (Nat.le_gt_cases i (length text)) as [Hle|Hgt]; [exact Hle|].
    rewrite skipn_all2 in H by lia. discriminate.
Qed.

(** The search computes the first heading. *)
Lemma search_first_heading (keyword : string) (text : pystr) (i : nat) :
  first_heading keyword text i <->
  option_map fst (re_search true (heading_pattern keyword) text) = Some i.
Proof.
  unfold first_heading. split.
  - intros [Hat Hno].
    destruct (re_search_first true (heading_pattern keyword) text i) as [st' H].
    + apply heading_match_at. exact Hat.
    + intros j Hj HM. apply (Hno j Hj). apply heading_match_at. exact HM.
    + rewrite H. reflexivity.
  - destruct (re_search true (heading_pattern keyword) text) as [[i' st']|] eqn:E;
      [|discriminate].
    simpl. intros H. injection H as ->.
    apply re_search_some in E as [Hat Hno]. split.
    + apply heading_match_at. exact Hat.
    + intros j Hj HM. apply (Hno j Hj). apply heading_match_at. exact HM.
Qed.

Lemma search_no_heading (keyword : string) (text : pystr) :
  no_heading keyword text <->
  re_search true (heading_pattern keyword) text = None.
Proof.
  unfold no_heading. split.
  - intros Hno. apply re_search_none. intros j HM.
    apply (Hno j). apply heading_match_at. exact HM.
  - intros H j Hat. apply (re_search_none_inv _ _ _ H j).
    apply heading_match_at. exact Hat.
Qed.

(** Letter case of the keyword does not matter. *)
Lemma heading_at_nocase (k1 k2 : string) (text : pystr) (i : nat) :
  lower (py k1) = lower (py k2) ->
  heading_at k1 text i -> heading_at k2 text i.
Proof.
  intros Hk [ws1 [w [ws2 [rest [H1 [H2 [H3 H4]]]]]]].
  exists ws1, w, ws2, rest. repeat split; try assumption. congruence.
Qed.

Lemma search_result_first (keyword : string) (text : pystr) (i : nat) :
  first_heading keyword text i ->
  exists st', re_search true (heading_pattern keyword) text = Some (i, st').
Proof.
  intros H. apply search_first_heading in H.
  destruct (re_search true (heading_pattern keyword) text) as [[j st']|];
    [|discriminate].
  simpl in H. injection H as ->. exists st'. reflexivity.
Qed.

Lemma no_heading_nocase (k1 k2 : string) (text : pystr) :
  lower (py k1) = lower (py k2) ->
  no_heading k1 text -> no_heading k2 text.
Proof.
  intros Hk Hno i Hat. apply (Hno i).
  apply (heading_at_nocase k2 k1); [symmetry; exact Hk | exact Hat].
Qed.

Lemma references_cut_at (text : pystr) (i : nat) :
  cut_point text i -> _remove_references_section text = firstn i text.
Proof.
  unfold _remove_references_section, ref_patterns.
  intros [H1 | [[N1 H3] | [N1 [N3 H5]]]].
  - destruct (search_result_first _ _ _ H1) as [st' E].
    cbn [cut_at_first]. rewrite E. reflexivity.
  - assert (N2 : no_heading "References" text)
      by (apply (no_heading_nocase "REFERENCES"); [reflexivity | exact N1]).
    apply search_no_heading in N1, N2.
    destruct (search_result_first _ _ _ H3) as [st' E].
    cbn [cut_at_first]. rewrite N1, N2, E. reflexivity.
  - assert (N2 : no_heading "References" text)
      by (apply (no_heading_nocase "REFERENCES"); [reflexivity | exact N1]).
    assert (N4 : no_heading "Bibliography" text)
      by (apply (no_heading_nocase "BIBLIOGRAPHY"); [reflexivity | exact N3]).
    apply search_no_heading in N1, N2, N3, N4.
    destruct (search_result_first _ _ _ H5) as [st' E].
    cbn [cut_at_first]. rewrite N1, N2, N3, N4, E. reflexivity.
Qed.

Lemma clean_stages (text : pystr) :
  clean text = clean_after_references (_remove_references_section text).
Proof. reflexivity. Qed.

Lemma clean_cut_at (text : pystr) (i : nat) :
  cut_point text i -> clean text = clean_after_references (firstn i text).
Proof.
  intros H. rewrite clean_stages, (references_cut_at text i H). reflexivity.
Qed.

(** Without any heading the text is left as it is. *)
Lemma references_no_heading (text : pystr) :
  no_heading "REFERENCES" text -> no_heading "BIBLIOGRAPHY" text ->
  no_heading "WORKS CITED" text ->
  _remove_references_section text = text.
Proof.
  intros N1 N3 N5.
  assert (N2 : no_heading "References" text)
    by (apply (no_heading_nocase "REFERENCES"); [reflexivity | exact N1]).
  assert (N4 : no_heading "Bibliography" text)
    by (apply (no_heading_nocase "BIBLIOGRAPHY"); [reflexivity | exact N3]).
  apply search_no_heading in N1, N2, N3, N4, N5.
  unfold _remove_references_section, ref_patterns. cbn [cut_at_first].
  rewrite N1, N2, N3, N4, N5. reflexivity.
Qed.

(** C5, as the code has it.  A heading is recognised between two
    newlines, and the keywords are tried in the order REFERENCES,
    BIBLIOGRAPHY, WORKS CITED: the text is cut at the first heading of the
    first keyword that has one, and the cleaned text is computed from the
    part before that heading alone. *)
Theorem clean_cuts_references :
  forall (text : pystr) (i : nat),
    cut_point text i ->
    _remove_references_section text = firstn i text
    /\ clean text = clean_after_references (firstn i text).
Proof.
  intros text i H. split.
  - exact (references_cut_at text i H).
  - exact (clean_cut_at text i H).
Qed.

Lemma clean_cuts_references_witness :
  cut_point (py "Body text.\nBIBLIOGRAPHY\nOld entry.\n\n  References \n[1] A. Author.\n") 34
  /\ _remove_references_section
       (py "Body text.\nBIBLIOGRAPHY\nOld entry.\n\n  References \n[1] A. Author.\n")
     = firstn 34 (py "Body text.\nBIBLIOGRAPHY\nOld entry.\n\n  References \n[1] A. Author.\n")
  /\ clean (py "Body text.\nBIBLIOGRAPHY\nOld entry.\n\n  References \n[1] A. Author.\n")
     = clean_after_references
         (firstn 34 (py "Body text.\nBIBLIOGRAPHY\nOld entry.\n\n  References \n[1] A. Author.\n")).
Proof.
  assert (H : cut_point
     (py "Body text.\nBIBLIOGRAPHY\nOld entry.\n\n  References \n[1] A. Author.\n") 34).
  { left. apply search_first_heading. vm_compute. reflexivity. }
  split; [exact H|].
  exact (clean_cuts_references _ 34 H).
Defined.

(** C5 fails as stated: the text is not cut at the first heading line in
    document order.  Here BIBLIOGRAPHY is the second line and REFERENCES
    the fourth; the cleaned text still holds the BIBLIOGRAPHY line and the
    entry below it. *)
Lemma clean_keeps_earlier_heading :
  nth 1 (split (py "\n")
           (py "Main text here.\nBIBLIOGRAPHY\nSmith 2020 cited work.\nREFERENCES\nJones 2021 other work.\n")) []
    = py "BIBLIOGRAPHY"
  /\ clean (py "Main text here.\nBIBLIOGRAPHY\nSmith 2020 cited work.\nREFERENCES\nJones 2021 other work.\n")
     = py "Main text here.\nBIBLIOGRAPHY\nSmith 2020 cited work."
  /\ contains (py "BIBLIOGRAPHY\nSmith 2020 cited work.")
       (clean (py "Main text here.\nBIBLIOGRAPHY\nSmith 2020 cited work.\nREFERENCES\nJones 2021 other work.\n"))
     = true.
Proof.
  split; [vm_compute; reflexivity|].
  split; vm_compute; reflexivity.
Qed.

(** A heading on the first line of the text has no newline before it and
    is not recognised. *)
Lemma clean_misses_heading_on_first_line :
  _remove_references_section (py "REFERENCES\n[1] A. Author. A title.\n")
  = py "REFERENCES\n[1] A. Author. A title.\n".
Proof. vm_compute. reflexivity. Qed.

End References.

Section Columns.

(** C4 at a failing input.  The first line ends without punctuation and
    the second starts with a lowercase letter; the first line is dropped,
    not joined to the second. *)
Theorem two_column_drops_wrapped_line :
  _handle_two_column_format (py "The quick brown\nfox jumps over.")
    = py "fox jumps over."
  /\ contains (py "The quick brown")
       (_handle_two_column_format (py "The quick brown\nfox jumps over."))
     = false
  /\ clean (py "The quick brown\nfox jumps over.") = py "fox jumps over.".
Proof.
  split; [vm_compute; reflexivity|].
  split; vm_compute; reflexivity.
Qed.

End Columns.

Section OneLine.

Lemma dropwhile_In {A} (p : A -> bool) (l : list A) x :
  In x (dropwhile p l) -> In x l.
Proof.
  induction l as [|y l IH]; simpl.
  - tauto.
  - destruct (p y); [intros H; right; exact (IH H) | tauto].
Qed.

Lemma strip_In (s : pystr) x : In x (strip s) -> In x s.
Proof.
  unfold strip, rstrip, lstrip. intros H.
  apply in_rev, dropwhile_In, in_rev, dropwhile_In in H. exact H.
Qed.

Lemma contains_char_true (c : ascii) (s : pystr) :
  In c s -> contains [c] s = true.
Proof.
  induction s as [|x s IH]; simpl.
  - tauto.
  - intros [-> | H].
    + rewrite Ascii.eqb_refl. reflexivity.
    + rewrite (IH H). apply orb_true_r.
Qed.

(** A text on one line. *)
Lemma one_line_no_newline (s : pystr) :
  contains (py "\n") s = false -> ~ In Char.nl s.
Proof.
  intros H Hin. apply contains_char_true in Hin.
  change (py "\n") with [Char.nl] in H. congruence.
Qed.

Lemma one_line_strip (s : pystr) :
  contains (py "\n") s = false -> contains (py "\n") (strip s) = false.
Proof.
  intros H. apply contains_char_false. intros Hin.
  apply strip_In in Hin. exact (one_line_no_newline s H Hin).
Qed.

Lemma one_line_split (s : pystr) :
  contains (py "\n") s = false -> split (py "\n") s = [s].
Proof. apply split_none. Qed.

Lemma one_line_references (s : pystr) :
  contains (py "\n") s = false -> _remove_references_section s = s.
Proof.
  intros H. apply one_line_no_newline in H.
  unfold _remove_references_section, ref_patterns. cbn [cut_at_first].
  rewrite !(re_search_needs_newline true _ s) by (reflexivity || exact H).
  reflexivity.
Qed.

Lemma one_line_two_column (s : pystr) :
  contains (py "\n") s = false ->
  _handle_two_column_format s = if length (strip s) <? 3 then [] else strip s.
Proof.
  intros H. unfold _handle_two_column_format.
  rewrite (one_line_split s H). cbn [column_lines].
  destruct (length (strip s) <? 3).
  - reflexivity.
  - cbn [join]. apply re_sub_needs_newline; [reflexivity|].
    apply one_line_no_newline, one_line_strip, H.
Qed.

Lemma one_line_author (s : pystr) :
  contains (py "\n") s = false -> _remove_author_affiliations s = s.
Proof.
  intros H. unfold _remove_author_affiliations.
  rewrite (one_line_split s H). cbn [content_start].
  destruct (any _ _); reflexivity.
Qed.

Lemma one_line_headers (s : pystr) :
  contains (py "\n") s = false ->
  _remove_common_headers_footers s = if keeps_line s then s else [].
Proof.
  intros H. unfold _remove_common_headers_footers.
  rewrite (one_line_split s H). cbn [filter].
  destruct (keeps_line s); reflexivity.
Qed.

Lemma one_line_sections (s : pystr) :
  contains (py "\n") s = false -> _extract_main_sections s = s.
Proof.
  intros H. unfold _extract_main_sections.
  rewrite (one_line_split s H). cbn [section_lines].
  destruct (any _ main_sections); reflexivity.
Qed.

Lemma keeps_line_strip (s : pystr) : keeps_line (strip s) = keeps_line s.
Proof. unfold keeps_line. rewrite strip_idem. reflexivity. Qed.

(** What the cleaner computes from a text on one line: the trimmed line
    if it has three characters or more and is no header or footer line,
    normalized; otherwise nothing. *)
Lemma one_line_clean (x : pystr) :
  contains (py "\n") x = false ->
  clean x = if (3 <=? length (strip x)) && keeps_line x
            then normalize (strip x) else [].
Proof.
  intros H. unfold clean, clean_text, clean_after_references. cbn [raw_text snd].
  rewrite (one_line_references x H), (one_line_two_column x H).
  destruct (length (strip x) <? 3) eqn:E.
  - apply Nat.ltb_lt in E.
    assert (E' : (3 <=? length (strip x)) = false) by (apply Nat.leb_gt; lia).
    rewrite E'. vm_compute. reflexivity.
  - apply Nat.ltb_ge in E.
    assert (E' : (3 <=? length (strip x)) = true) by (apply Nat.leb_le; lia).
    rewrite E'. cbn [andb].
    pose proof (one_line_strip x H) as Hs.
    rewrite (one_line_author _ Hs), (one_line_headers _ Hs), keeps_line_strip.
    destruct (keeps_line x).
    + rewrite (one_line_sections _ Hs). reflexivity.
    + vm_compute. reflexivity.
Qed.

(** On a text of one line whose trimmed form the normalization stage
    leaves unchanged, cleaning a second time changes nothing. *)
Lemma one_line_idempotent :
  forall x : pystr,
    contains (py "\n") x = false ->
    normalize (strip x) = strip x ->
    clean (clean x) = clean x.
Proof.
  intros x Hline Hnorm.
  rewrite (one_line_clean x Hline), Hnorm.
  destruct ((3 <=? length (strip x)) && keeps_line x) eqn:E.
  - rewrite (one_line_clean _ (one_line_strip x Hline)).
    rewrite strip_idem, keeps_line_strip, E. exact Hnorm.
  - vm_compute. reflexivity.
Qed.


(** The normalization stage is not idempotent either: citation markers
    are removed after the white space has been collapsed, so the first
    pass leaves two spaces where the marker stood and the second pass
    collapses them. *)
Lemma citation_removal_not_idempotent :
  clean (py "Some text [1] here.") = py "Some text  here."
  /\ clean (clean (py "Some text [1] here.")) = py "Some text here."
  /\ normalize (normalize (py "Some text [1] here.")) <> normalize (py "Some text [1] here.").
Proof.
  split; [vm_compute; reflexivity|].
  split; [vm_compute; reflexivity|].
  vm_compute. discriminate.
Qed.

End OneLine.

(** ** Nothing below a REFERENCES heading reaches the result *)

Section BelowReferences.

Lemma isspace_lower (c : ascii) : Char.isspace c = true -> Char.lower c = c.
Proof.
  destruct c as [[] [] [] [] [] [] [] []]; vm_compute; intros H;
    try reflexivity; discriminate.
Qed.

(** The letters of the keyword, in any case, are no white space. *)
Lemma keyword_letters (w : pystr) :
  lower w = lower (py "REFERENCES") ->
  w <> [] /\ forall c, In c w -> Char.isspace c = false.
Proof.
  intros H. split.
  - intros ->. discriminate.
  - intros c Hc. destruct (Char.isspace c) eqn:E; [|reflexivity].
    exfalso. apply isspace_lower in E as Hl.
    assert (Hin : In (Char.lower c) (lower (py "REFERENCES"))).
    { rewrite <- H. unfold lower. apply in_map. exact Hc. }
    rewrite Hl in Hin.
    vm_compute in Hin.
    repeat (destruct Hin as [<- | Hin]; [vm_compute in E; discriminate|]).
    exact Hin.
Qed.

Lemma spaces_forall (ws : pystr) :
  forallb Char.isspace ws = true -> forall c, In c ws -> Char.isspace c = true.
Proof. intros H. apply forallb_forall. exact H. Qed.

Lemma first_occurrence {A} (eq_dec : forall a b : A, {a = b} + {a <> b})
      (x : A) (l : list A) :
  In x l -> exists a b, l = a ++ x :: b /\ ~ In x a.
Proof.
  induction l as [|y l IH]; intros Hin.
  - destruct Hin.
  - destruct (eq_dec y x) as [-> | Hne].
    + exists [], l. split; [reflexivity | tauto].
    + destruct Hin as [-> | Hin]; [congruence|].
      destruct (IH Hin) as [a [b [-> Ha]]].
      exists (y :: a), b. split; [reflexivity|].
      intros [H | H]; [congruence | exact (Ha H)].
Qed.

Lemma forallb_app_l {A} (p : A -> bool) (a b : list A) :
  forallb p (a ++ b) = true -> forallb p a = true.
Proof. rewrite forallb_app. intros H. apply andb_prop in H as [H _]. exact H. Qed.

(** A heading can be read with no newline in the white space after the
    keyword: the first newline after the keyword ends it. *)
Lemma heading_at_tight (keyword : string) (text : pystr) (i : nat) :
  heading_at keyword text i ->
  exists ws1 w ws2 rest,
    skipn i text = Char.nl :: ws1 ++ w ++ ws2 ++ Char.nl :: rest
    /\ forallb Char.isspace ws1 = true
    /\ forallb Char.isspace ws2 = true
    /\ ~ In Char.nl ws2
    /\ lower w = lower (py keyword).
Proof.
  intros [ws1 [w [ws2 [rest [E [H1 [H2 Hw]]]]]]].
  destruct (in_dec ascii_dec Char.nl ws2) as [Hin | Hnin].
  - destruct (first_occurrence ascii_dec Char.nl ws2 Hin) as [a [b [-> Ha]]].
    exists ws1, w, a, (b ++ Char.nl :: rest). repeat split; try assumption.
    + rewrite E, <- app_assoc. reflexivity.
    + exact (forallb_app_l _ _ _ H2).
  - exists ws1, w, ws2, rest. repeat split; assumption.
Qed.

Section Below.

Variables (pre w0 : pystr).
Hypothesis Hw0 : lower w0 = lower (py "REFERENCES").

Lemma heading_inserted (post : pystr) :
  heading_at "REFERENCES" (with_heading pre w0 post) (length pre).
Proof.
  exists [], w0, [], post. repeat split.
  - unfold with_heading. rewrite skipn_app, skipn_all, Nat.sub_diag. reflexivity.
  - exact Hw0.
Qed.

(** A heading that starts in [pre] does not depend on what is below the
    REFERENCES line. *)
Lemma heading_transfer (post1 post2 : pystr) (j : nat) :
  j <= length pre ->
  heading_at "REFERENCES" (with_heading pre w0 post1) j -> heading_at "REFERENCES" (with_heading pre w0 post2) j.
Proof.
  intros Hj Hat.
  destruct (heading_at_tight _ _ _ Hat) as [ws1 [w [ws2 [rest [E [H1 [H2 [Hnl Hw]]]]]]]].
  destruct (keyword_letters w0 Hw0) as [Hne0 Hl0].
  destruct (keyword_letters w Hw) as [_ Hl].
  pose proof (spaces_forall _ H1) as Hs1.
  assert (Eskip : forall post, skipn j (with_heading pre w0 post)
                  = skipn j pre ++ Char.nl :: w0 ++ Char.nl :: post).
  { intros post. unfold with_heading. rewrite skipn_app.
    replace (j - length pre) with 0 by lia. reflexivity. }
  rewrite Eskip in E.
  set (s := skipn j pre) in *.
  assert (Hgoal : forall rest',
             s ++ Char.nl :: w0 ++ Char.nl :: post2
             = Char.nl :: ws1 ++ w ++ ws2 ++ Char.nl :: rest' ->
             heading_at "REFERENCES" (with_heading pre w0 post2) j).
  { intros rest' E'. exists ws1, w, ws2, rest'.
    rewrite Eskip. fold s. repeat split; assumption. }
  clearbody s.
  (* where the closing newline of the heading lies *)
  change (Char.nl :: ws1 ++ w ++ ws2 ++ Char.nl :: rest)
    with ((Char.nl :: ws1) ++ w ++ ws2 ++ Char.nl :: rest) in E.
  rewrite !app_assoc in E.
  apply app_eq_app in E as [e [[Es Er] | [EM Er]]].
  - (* in [pre], or the newline before the keyword *)
    destruct e as [|c e].
    + rewrite app_nil_r in Es. simpl in Er. injection Er as Er.
      apply (Hgoal (w0 ++ Char.nl :: post2)).
      rewrite Es, <- !app_assoc. reflexivity.
    + simpl in Er. injection Er as Hc Er. subst c.
      apply (Hgoal (e ++ Char.nl :: w0 ++ Char.nl :: post2)).
      rewrite Es, <- !app_assoc. reflexivity.
  - destruct e as [|c e].
    + rewrite app_nil_r in EM. simpl in Er. injection Er as Er.
      apply (Hgoal (w0 ++ Char.nl :: post2)).
      rewrite <- EM, <- !app_assoc. reflexivity.
    + simpl in Er. injection Er as Hc Er. subst c.
      apply app_eq_app in Er as [f [[Ew Ep] | [Ee Ep]]].
      * destruct f as [|c f].
        -- (* the newline after the keyword *)
           rewrite app_nil_r in Ew. subst e.
           apply (Hgoal post2).
           change (Char.nl :: ws1 ++ w ++ ws2 ++ Char.nl :: post2)
             with ((Char.nl :: ws1) ++ w ++ ws2 ++ Char.nl :: post2).
           rewrite !app_assoc, EM, <- !app_assoc. reflexivity.
        -- (* inside the keyword: impossible *)
           simpl in Ep. injection Ep as Hc _. subst c.
           assert (Hin : In Char.nl w0)
             by (rewrite Ew; apply in_or_app; right; left; reflexivity).
           apply Hl0 in Hin. discriminate.
      * destruct f as [|c f].
        -- rewrite app_nil_r in Ee. subst e.
           apply (Hgoal post2).
           change (Char.nl :: ws1 ++ w ++ ws2 ++ Char.nl :: post2)
             with ((Char.nl :: ws1) ++ w ++ ws2 ++ Char.nl :: post2).
           rewrite !app_assoc, EM, <- !app_assoc. reflexivity.
        -- (* past the REFERENCES line: impossible *)
           exfalso. simpl in Ep. injection Ep as Hc _. subst c. subst e.
           rewrite <- app_assoc in EM.
           replace (s ++ Char.nl :: w0 ++ Char.nl :: f)
             with ((s ++ Char.nl :: w0) ++ Char.nl :: f) in EM
             by (rewrite <- app_assoc; reflexivity).
           symmetry in EM.
           apply app_eq_app in EM as [g [[E1 E2] | [E1 E2]]].
           ++ (* the newline of the line would lie in the keyword match *)
              assert (Hin : In Char.nl (w ++ ws2)).
              { rewrite E2. apply in_or_app. right. left. reflexivity. }
              apply in_app_or in Hin as [Hin | Hin].
              ** apply Hl in Hin. discriminate.
              ** exact (Hnl Hin).
           ++ (* the keyword of the line would lie in the white space *)
              destruct w0 as [|c0 w0']; [congruence|].
              assert (Hin : In c0 (Char.nl :: ws1)).
              { rewrite E1. apply in_or_app. left.
                apply in_or_app. right. right. left. reflexivity. }
              assert (Hc0 : Char.isspace c0 = false) by (apply Hl0; left; reflexivity).
              destruct Hin as [<- | Hin]; [discriminate|].
              apply Hs1 in Hin. congruence.
Qed.

(** The cut lies in [pre], at a place that does not depend on the text
    below the REFERENCES line; nothing from the line on is kept. *)
Theorem references_cut_before_heading :
  exists i, i <= length pre /\
    forall post,
      _remove_references_section (with_heading pre w0 post) = firstn i pre
      /\ clean (with_heading pre w0 post) = clean_after_references (firstn i pre).
Proof.
  destruct (re_search true (heading_pattern "REFERENCES") (with_heading pre w0 [])) as [[i st']|] eqn:E.
  - assert (Hfirst : first_heading "REFERENCES" (with_heading pre w0 []) i)
      by (apply search_first_heading; rewrite E; reflexivity).
    destruct Hfirst as [Hat Hmin].
    assert (Hi : i <= length pre).
    { destruct (Nat.le_gt_cases i (length pre)) as [H | H]; [exact H|].
      exfalso. exact (Hmin _ H (heading_inserted [])). }
    exists i. split; [exact Hi|]. intros post.
    assert (Hcut : cut_point (with_heading pre w0 post) i).
    { left. split.
      - exact (heading_transfer [] post i Hi Hat).
      - intros j Hj Hatj. apply (Hmin j Hj).
        apply (heading_transfer post [] j); [lia | exact Hatj]. }
    pose proof (references_cut_at _ _ Hcut) as H1.
    pose proof (clean_cut_at _ _ Hcut) as H2.
    assert (Hpre : firstn i (with_heading pre w0 post) = firstn i pre).
    { unfold with_heading. rewrite firstn_app.
      replace (i - length pre) with 0 by lia.
      rewrite firstn_O, app_nil_r. reflexivity. }
    rewrite H1, H2, Hpre. split; reflexivity.
  - exfalso. apply search_no_heading in E.
    exact (E _ (heading_inserted [])).
Qed.

(** X18.  Two texts that differ only below a REFERENCES heading are cleaned
    to the same result.  The heading is a line after a newline, so not
    the first line of the text, that holds the word references alone, in
    any letter case, and ends in a newline; nothing below it reaches the
    cleaned text. *)
Corollary clean_ignores_text_below_references (post1 post2 : pystr) :
  clean (with_heading pre w0 post1) = clean (with_heading pre w0 post2).
Proof.
  destruct references_cut_before_heading as [i [_ H]].
  destruct (H post1) as [_ H1]. destruct (H post2) as [_ H2].
  congruence.
Qed.

End Below.

End BelowReferences.

(** ** The response parser *)

Section Parser.

Lemma strip_enumerator_total (line : pystr) :
  exists q, strip_enumerator line = Some q.
Proof.
  unfold strip_enumerator.
  destruct (split_max_nonempty 1 (py ".") line) as [a Ha]. rewrite Ha.
  cbn [bind].
  destruct (split_max_nonempty 1 (py ")") a) as [b Hb]. rewrite Hb.
  cbn [bind].
  eexists. reflexivity.
Qed.

(** The loop over the lines raises nothing. *)
Lemma extract_questions_total (lines : list pystr) :
  exists found, extract_questions lines = Some found.
Proof.
  induction lines as [|line rest [found IH]]; simpl.
  - eexists. reflexivity.
  - destruct (truthy (strip line) && _).
    + destruct (strip_enumerator_total (strip line)) as [q Hq].
      rewrite Hq, IH. simpl. destruct (truthy q && _); eexists; reflexivity.
    + exists found. exact IH.
Qed.

(** Lines that do not start with a digit or a dash give no question. *)
Lemma extract_questions_none (lines : list pystr) :
  forallb (fun line => negb (enumerated line)) lines = true ->
  extract_questions lines = Some [].
Proof.
  induction lines as [|line rest IH]; cbn [extract_questions forallb].
  - reflexivity.
  - intros H. apply andb_prop in H as [Hline Hrest].
    unfold enumerated in Hline.
    destruct (strip line) as [|c s] eqn:E.
    + cbn [truthy andb]. exact (IH Hrest).
    + cbn [truthy andb startswith py unescape].
      apply negb_true_iff in Hline.
      replace (Ascii.eqb "-" c) with (Ascii.eqb c "-") by apply Ascii.eqb_sym.
      rewrite andb_true_r, Hline. exact (IH Hrest).
Qed.

(** C7 fails as stated: without any marker the numbered line is still
    taken as a factual question. *)
Lemma unmarked_response_yields_question :
  contains (py "FACTUAL QUESTIONS:") (py "1. What is the capital of France?") = false
  /\ contains (py "CONCEPTUAL QUESTIONS:") (py "1. What is the capital of France?") = false
  /\ parse_response (py "1. What is the capital of France?")
     = Some (Questions [py "What is the capital of France?"] [])
  /\ parse_response (py "1. What is the capital of France?")
     <> Some (Questions [] []).
Proof.
  split; [vm_compute; reflexivity|].
  split; [vm_compute; reflexivity|].
  split; [vm_compute; reflexivity|].
  vm_compute. discriminate.
Qed.

End Parser.

Section TwoSections.

Lemma pystr_eqb_eq (a b : pystr) : pystr_eqb a b = true -> a = b.
Proof.
  unfold pystr_eqb. destruct (list_eq_dec ascii_dec a b); [auto | discriminate].
Qed.

Lemma question_text_facts (q : pystr) :
  question_text q = true ->
  5 < length q /\ strip q = q /\ ~ In Char.nl q
  /\ contains (py ")") q = false
  /\ contains (py "FACTUAL QUESTIONS:") q = false
  /\ contains (py "CONCEPTUAL QUESTIONS:") q = false.
Proof.
  unfold question_text. intros H.
  repeat (apply andb_prop in H as [H ?]).
  repeat match goal with
         | Hn : negb _ = true |- _ => apply negb_true_iff in Hn
         end.
  repeat split; try assumption.
  - apply Nat.ltb_lt. assumption.
  - apply pystr_eqb_eq. assumption.
  - apply one_line_no_newline. assumption.
Qed.

Lemma question_text_rstrip (q : pystr) :
  question_text q = true -> q <> [] /\ rstrip q = q.
Proof.
  intros H. apply question_text_facts in H as [Hlen [Hstrip _]].
  split.
  - intros ->. simpl in Hlen. lia.
  - apply (strip_fixed_trimmed q Hstrip).
Qed.

(** The enumerator of a numbered line is cut off at its dot. *)
Lemma strip_enumerator_numbered (d : ascii) (q : pystr) :
  Ascii.eqb "." d = false -> question_text q = true ->
  strip_enumerator (d :: "." :: " " :: q)%char = Some q.
Proof.
  intros Hd Hq.
  apply question_text_facts in Hq as [_ [Hstrip [_ [Hpar _]]]].
  unfold strip_enumerator.
  assert (E1 : split_max 1 (py ".") (d :: "." :: " " :: q)%char
               = [[d]; (" " :: q)%char]).
  { cbn [split_max partition py unescape startswith length skipn].
    rewrite Hd. cbn [andb]. rewrite Ascii.eqb_refl. reflexivity. }
  rewrite E1. cbn [last_item bind].
  assert (E2 : contains (py ")") (" " :: q)%char = false).
  { change (py ")") with [")"%char] in Hpar |- *.
    cbn [contains startswith]. rewrite Hpar. reflexivity. }
  rewrite (split_max_none 1 _ _ E2). cbn [last_item bind].
  change (" " :: q)%char with ([" "%char] ++ q).
  rewrite (strip_leading [" "%char] q eq_refl), Hstrip. reflexivity.
Qed.

Lemma extract_numbered (d : ascii) (q : pystr) (rest : list pystr) :
  Char.isdigit d = true -> Char.isspace d = false -> Ascii.eqb "." d = false ->
  question_text q = true ->
  extract_questions ((d :: "." :: " " :: q)%char :: rest)
  = (found <- extract_questions rest ;; Some (q :: found)).
Proof.
  intros Hdig Hsp Hdot Hq.
  destruct (question_text_rstrip q Hq) as [Hne Hr].
  pose proof (strip_fixed d ["."; " "]%char q Hsp Hne Hr) as Hline.
  cbn [app] in Hline.
  cbn [extract_questions]. rewrite Hline. cbn [truthy andb]. rewrite Hdig.
  cbn [orb]. rewrite (strip_enumerator_numbered d q Hdot Hq). cbn [bind].
  destruct (extract_questions rest) as [found|]; [|reflexivity].
  cbn [bind].
  apply question_text_facts in Hq as [Hlen _].
  apply Nat.ltb_lt in Hlen. rewrite Hlen.
  destruct q; [contradiction|]. reflexivity.
Qed.

Lemma numbered_line_facts (d : ascii) (q : pystr) (sep : pystr) :
  startswith (d :: "." :: " " :: q)%char sep = false ->
  startswith ("." :: " " :: q)%char sep = false ->
  startswith (" " :: q)%char sep = false ->
  contains sep q = false ->
  contains sep (d :: "." :: " " :: q)%char = false.
Proof.
  intros H1 H2 H3 H4. cbn [contains]. rewrite H1, H2, H3, H4. reflexivity.
Qed.

Lemma numbered_no_newline (d : ascii) (q : pystr) :
  Char.isdigit d = true -> question_text q = true ->
  ~ In Char.nl (d :: "." :: " " :: q)%char.
Proof.
  intros Hd Hq. apply question_text_facts in Hq as [_ [_ [Hnl _]]].
  intros [H | [H | [H | H]]]; try discriminate; [|exact (Hnl H)].
  subst d. discriminate.
Qed.

(** C6, as the code has it.  A response of the stated form whose three
    question texts are longer than five characters (and are on one line,
    trimmed, without closing parenthesis and without a section marker) is
    parsed into its two factual questions and its conceptual question. *)
Theorem parse_two_sections :
  forall q1 q2 q3 : pystr,
    question_text q1 = true ->
    question_text q2 = true ->
    question_text q3 = true ->
    parse_response
      (py "FACTUAL QUESTIONS:\n1. " ++ q1 ++ py "\n2. " ++ q2
       ++ py "\n\nCONCEPTUAL QUESTIONS:\n1. " ++ q3)
    = Some (Questions [q1; q2] [q3]).
Proof.
  intros q1 q2 q3 H1 H2 H3.
  set (F := py "FACTUAL QUESTIONS:").
  set (C := py "CONCEPTUAL QUESTIONS:").
  set (u1 := ("1" :: "." :: " " :: q1)%char).
  set (u2 := ("2" :: "." :: " " :: q2)%char).
  set (u3 := ("1" :: "." :: " " :: q3)%char).
  set (B := Char.nl :: u3).
  set (body := Char.nl :: u1 ++ Char.nl :: u2 ++ [Char.nl; Char.nl]).
  change (py "FACTUAL QUESTIONS:\n1. " ++ q1 ++ py "\n2. " ++ q2
          ++ py "\n\nCONCEPTUAL QUESTIONS:\n1. " ++ q3)
    with (F ++ Char.nl :: (u1 ++ Char.nl :: (u2 ++ Char.nl
            :: ([] ++ Char.nl :: (C ++ B))))).
  destruct (question_text_facts q1 H1) as [_ [_ [_ [_ [HF1 HC1]]]]].
  destruct (question_text_facts q2 H2) as [_ [_ [_ [_ [HF2 HC2]]]]].
  destruct (question_text_facts q3 H3) as [_ [_ [_ [_ [HF3 HC3]]]]].
  assert (CnoNl : ~ In Char.nl C) by (vm_compute; intuition discriminate).
  assert (FnoNl : ~ In Char.nl F) by (vm_compute; intuition discriminate).
  assert (Cne : C <> []) by discriminate.
  assert (Fne : F <> []) by discriminate.
  assert (Cu1 : contains C u1 = false)
    by (apply numbered_line_facts; try reflexivity; exact HC1).
  assert (Cu2 : contains C u2 = false)
    by (apply numbered_line_facts; try reflexivity; exact HC2).
  assert (Cu3 : contains C u3 = false)
    by (apply numbered_line_facts; try reflexivity; exact HC3).
  assert (Fu1 : contains F u1 = false)
    by (apply numbered_line_facts; try reflexivity; exact HF1).
  assert (Fu2 : contains F u2 = false)
    by (apply numbered_line_facts; try reflexivity; exact HF2).
  (* the two sections *)
  assert (Hsections :
            split C (F ++ Char.nl :: (u1 ++ Char.nl :: (u2 ++ Char.nl
                       :: ([] ++ Char.nl :: (C ++ B)))))
            = [F ++ body; B]).
  { apply split_once.
    - rewrite (partition_line C F _ CnoNl Cne eq_refl).
      rewrite (partition_line C u1 _ CnoNl Cne Cu1).
      rewrite (partition_line C u2 _ CnoNl Cne Cu2).
      rewrite (partition_line C [] _ CnoNl Cne eq_refl).
      rewrite partition_here. reflexivity.
    - unfold B. change (Char.nl :: u3) with ([] ++ Char.nl :: u3).
      rewrite (contains_line C [] u3 CnoNl Cne), Cu3. reflexivity. }
  unfold parse_response. fold F. fold C. rewrite Hsections.
  (* the factual part *)
  assert (Hfactual : split F (F ++ body) = [[]; body]).
  { apply split_once.
    - apply partition_here.
    - unfold body. change (Char.nl :: u1 ++ Char.nl :: u2 ++ [Char.nl; Char.nl])
        with ([] ++ Char.nl :: (u1 ++ Char.nl :: (u2 ++ Char.nl
                :: ([] ++ Char.nl :: [])))).
      rewrite !(contains_line F) by assumption.
      rewrite Fu1, Fu2. reflexivity. }
  rewrite Hfactual. cbn [last_item bind].
  assert (Hstrip : strip body = u1 ++ Char.nl :: u2).
  { unfold body.
    change (Char.nl :: u1 ++ Char.nl :: u2 ++ [Char.nl; Char.nl])
      with ([Char.nl] ++ (u1 ++ Char.nl :: u2 ++ [Char.nl; Char.nl])).
    rewrite (strip_leading [Char.nl] _ eq_refl).
    unfold strip, u1. cbn [app]. unfold lstrip.
    rewrite (dropwhile_stop Char.isspace "1"%char _ eq_refl).
    replace ("1" :: "." :: " " :: q1 ++ Char.nl :: u2 ++ [Char.nl; Char.nl])%char
      with ((("1" :: "." :: " " :: q1 ++ Char.nl :: "2" :: "." :: [" "]) ++ q2)
             ++ [Char.nl; Char.nl])%char
      by (unfold u2; cbn [app]; rewrite <- !app_assoc; reflexivity).
    rewrite (rstrip_trailing _ [Char.nl; Char.nl] eq_refl).
    destruct (question_text_rstrip q2 H2) as [Hne Hr].
    rewrite (rstrip_app _ q2 Hne Hr).
    unfold u2. cbn [app]. rewrite <- !app_assoc. reflexivity. }
  rewrite Hstrip.
  assert (Hlines : split (py "\n") (u1 ++ Char.nl :: u2) = [u1; u2]).
  { apply split_once.
    - apply (partition_char Char.nl u1 u2).
      apply numbered_no_newline; [reflexivity | exact H1].
    - apply contains_char_false.
      apply numbered_no_newline; [reflexivity | exact H2]. }
  rewrite Hlines.
  unfold u1, u2.
  rewrite (extract_numbered "1" q1 _ eq_refl eq_refl eq_refl H1).
  rewrite (extract_numbered "2" q2 _ eq_refl eq_refl eq_refl H2).
  cbn [extract_questions bind].
  (* the conceptual part *)
  assert (Hstrip3 : strip B = u3).
  { unfold B. change (Char.nl :: u3) with ([Char.nl] ++ u3).
    rewrite (strip_leading [Char.nl] u3 eq_refl).
    destruct (question_text_rstrip q3 H3) as [Hne Hr].
    exact (strip_fixed "1"%char ["."; " "]%char q3 eq_refl Hne Hr). }
  rewrite Hstrip3.
  assert (Hlines3 : split (py "\n") u3 = [u3]).
  { apply split_none, contains_char_false.
    apply numbered_no_newline; [reflexivity | exact H3]. }
  rewrite Hlines3. unfold u3.
  rewrite (extract_numbered "1" q3 _ eq_refl eq_refl eq_refl H3).
  reflexivity.
Qed.

Lemma parse_two_sections_witness :
  question_text (py "What is a chunk?") = true
  /\ question_text (py "Who wrote it?") = true
  /\ question_text (py "Why does it work?") = true
  /\ parse_response
       (py "FACTUAL QUESTIONS:\n1. " ++ py "What is a chunk?" ++ py "\n2. "
        ++ py "Who wrote it?" ++ py "\n\nCONCEPTUAL QUESTIONS:\n1. "
        ++ py "Why does it work?")
     = Some (Questions [py "What is a chunk?"; py "Who wrote it?"]
                       [py "Why does it work?"]).
Proof.
  split; [vm_compute; reflexivity|].
  split; [vm_compute; reflexivity|].
  split; [vm_compute; reflexivity|].
  apply (parse_two_sections (py "What is a chunk?") (py "Who wrote it?")
                            (py "Why does it work?"));
    vm_compute; reflexivity.
Defined.

(** C6 fails as stated: Q1, Q2 and Q3 have two characters each, and a
    question is kept only if it has more than five. *)
Lemma parse_short_questions_dropped :
  parse_response (py "FACTUAL QUESTIONS:\n1. Q1\n2. Q2\n\nCONCEPTUAL QUESTIONS:\n1. Q3")
  = Some (Questions [] [])
  /\ parse_response (py "FACTUAL QUESTIONS:\n1. Q1\n2. Q2\n\nCONCEPTUAL QUESTIONS:\n1. Q3")
     <> Some (Questions [py "Q1"; py "Q2"] [py "Q3"]).
Proof.
  split.
  - vm_compute. reflexivity.
  - vm_compute. discriminate.
Qed.

End TwoSections.

(** ** The question set *)

Section QuestionSet.

Lemma pystr_eqb_refl (a : pystr) : pystr_eqb a a = true.
Proof.
  unfold pystr_eqb. destruct (list_eq_dec ascii_dec a a); [reflexivity | congruence].
Qed.

Lemma seen_spec (key : pystr) (seen : list pystr) :
  existsb (pystr_eqb key) seen = true <-> In key seen.
Proof.
  rewrite existsb_exists. split.
  - intros [x [Hx Heq]]. apply pystr_eqb_eq in Heq. subst x. exact Hx.
  - intros H. exists key. split; [exact H | apply pystr_eqb_refl].
Qed.

(** The loop of [_remove_duplicates] keeps questions with keys that are
    new, to the set [seen] and to each other. *)
Lemma unique_from_distinct (questions seen : list pystr) :
  distinct_questions (unique_from seen questions)
  /\ forall q, In q (unique_from seen questions) -> ~ In (normalized q) seen.
Proof.
  revert seen. induction questions as [|q rest IH]; intros seen; simpl.
  - split; [constructor | tauto].
  - destruct (existsb (pystr_eqb (normalized q)) seen) eqn:E.
    + apply IH.
    + destruct (IH (normalized q :: seen)) as [Hnd Hnew].
      assert (Hq : ~ In (normalized q) seen).
      { intros Hin. apply seen_spec in Hin. congruence. }
      split.
      * unfold distinct_questions. simpl. constructor; [|exact Hnd].
        intros Hin. apply in_map_iff in Hin as [q' [Heq Hq']].
        apply (Hnew q' Hq'). left. symmetry. exact Heq.
      * intros q' [<- | Hq']; [exact Hq|].
        intros Hin. apply (Hnew q' Hq'). right. exact Hin.
Qed.

Lemma remove_duplicates_distinct (questions : list pystr) :
  distinct_questions (_remove_duplicates questions).
Proof. apply unique_from_distinct. Qed.

Lemma firstn_subset {A} (n : nat) (l : list A) x :
  In x (firstn n l) -> In x l.
Proof.
  revert n. induction l as [|y l IH]; intros [|n]; simpl; try tauto.
  intros [H | H]; [left; exact H | right; exact (IH n H)].
Qed.

Lemma NoDup_firstn {A} (n : nat) (l : list A) : NoDup l -> NoDup (firstn n l).
Proof.
  revert n. induction l as [|x l IH]; intros n H.
  - rewrite firstn_nil. constructor.
  - destruct n as [|n]; simpl.
    + constructor.
    + inversion H as [|x' l' Hx Hl]; subst. constructor.
      * intros Hin. apply Hx. exact (firstn_subset _ _ _ Hin).
      * apply IH. exact Hl.
Qed.

Lemma distinct_firstn (n : nat) (l : list pystr) :
  distinct_questions l -> distinct_questions (firstn n l).
Proof.
  unfold distinct_questions. intros H.
  rewrite <- firstn_map. apply NoDup_firstn. exact H.
Qed.

(** The multi-chunk path returns a set without duplicates, whatever the
    client answers. *)
Lemma generate_from_chunks_distinct
      (generate : pystr -> option pystr) (chunks : list pystr) (qs : questions) :
  generate_from_chunks generate chunks = Some qs ->
  distinct_questions (factual qs) /\ distinct_questions (conceptual qs).
Proof.
  unfold generate_from_chunks.
  destruct (collect generate (len chunks) 1 chunks (Questions [] [])) as [all|];
    [|discriminate].
  cbn [bind]. intros H.
  assert (Hqs : qs = Questions (firstn 7 (_remove_duplicates (factual all)))
                               (firstn 3 (_remove_duplicates (conceptual all))))
    by congruence.
  rewrite Hqs. cbn [factual conceptual].
  split; apply distinct_firstn, remove_duplicates_distinct.
Qed.

(** The multi-chunk path returns a question set whenever the client
    answers every prompt. *)
Lemma parse_response_total (response : pystr) :
  exists qs, parse_response response = Some qs.
Proof.
  unfold parse_response.
  destruct (match split (py "CONCEPTUAL QUESTIONS:") response with
            | [a; b] => (a, b)
            | _ => (response, empty)
            end) as [fs cs].
  destruct (split_max_nonempty (length fs) (py "FACTUAL QUESTIONS:") fs) as [part Hpart].
  unfold split at 1. rewrite Hpart. cbn [bind].
  destruct (extract_questions_total (split (py "\n") (strip part))) as [f Hf].
  destruct (extract_questions_total (split (py "\n") (strip cs))) as [c Hc].
  rewrite Hf, Hc. cbn [bind]. eexists. reflexivity.
Qed.

Lemma collect_total (generate : pystr -> option pystr) :
  (forall prompt, exists response, generate prompt = Some response) ->
  forall parts n i all, exists qs, collect generate n i parts all = Some qs.
Proof.
  intros Hgen parts. induction parts as [|chunk rest IH]; intros n i all; simpl.
  - eexists. reflexivity.
  - unfold generate_from_text.
    destruct (Hgen (create_prompt chunk (Some i) (Some n))) as [response Hr].
    rewrite Hr. cbn [bind].
    destruct (parse_response_total response) as [found Hfound].
    rewrite Hfound. cbn [bind]. apply IH.
Qed.

Lemma generate_from_chunks_total (generate : pystr -> option pystr) :
  (forall prompt, exists response, generate prompt = Some response) ->
  forall chunks, exists qs, generate_from_chunks generate chunks = Some qs.
Proof.
  intros Hgen chunks. unfold generate_from_chunks.
  destruct (collect_total generate Hgen chunks (len chunks) 1%Z (Questions [] []))
    as [all Hall].
  rewrite Hall. cbn [bind]. eexists. reflexivity.
Qed.

(** C8 at a failing input.  A document that fits one chunk goes through
    [generate_from_text], which returns the parsed response as it is: the
    factual list holds two entries with one normalized key. *)
Theorem single_chunk_keeps_duplicates :
  chunk_text (TextChunker_init 3000 200) (py "A short document.")
    = [py "A short document."]
  /\ main_questions repeating_client 3000 (py "A short document.")
     = generate_from_text repeating_client (py "A short document.") None None
  /\ generate_from_text repeating_client (py "A short document.") None None
     = Some (Questions [py "What is a chunk?"; py "what is a chunk"]
                       [py "Why is there an overlap?"])
  /\ normalized (py "What is a chunk?") = normalized (py "what is a chunk")
  /\ ~ distinct_questions [py "What is a chunk?"; py "what is a chunk"].
Proof.
  split; [vm_compute; reflexivity|].
  split; [reflexivity|].
  split; [vm_compute; reflexivity|].
  split; [vm_compute; reflexivity|].
  unfold distinct_questions. intros H.
  inversion H as [|x l Hx _]; subst.
  apply Hx. left. vm_compute. reflexivity.
Qed.

(** The same answers on the multi-chunk path: the duplicate is removed. *)
Lemma multi_chunk_removes_duplicates :
  generate_from_chunks repeating_client [py "First chunk."; py "Second chunk."]
  = Some (Questions [py "What is a chunk?"] [py "Why is there an overlap?"]).
Proof. vm_compute. reflexivity. Qed.

End QuestionSet.

(** ** A response without markers *)

Section Unmarked.

Lemma last_split_once (sep s : pystr) :
  last_item (split_max 1 sep s) = Some (text_after sep s).
Proof.
  unfold text_after. cbn [split_max].
  destruct (partition sep s) as [[a b]|]; reflexivity.
Qed.

Lemma strip_enumerator_after (line : pystr) :
  strip_enumerator (strip line) = Some (question_of line).
Proof.
  unfold strip_enumerator, question_of.
  rewrite last_split_once. cbn [bind].
  rewrite last_split_once. reflexivity.
Qed.

Lemma enumerated_test (line : pystr) :
  truthy (strip line)
  && (match strip line with c :: _ => Char.isdigit c | [] => false end
      || startswith (strip line) (py "-"))
  = enumerated line.
Proof.
  unfold enumerated. destruct (strip line) as [|c s]; [reflexivity|].
  cbn [truthy andb startswith py unescape].
  rewrite andb_true_r, (Ascii.eqb_sym "-" c). reflexivity.
Qed.

(** The loop of the parser returns the questions of the lines. *)
Lemma extract_listed (lines : list pystr) :
  extract_questions lines = Some (listed lines).
Proof.
  induction lines as [|line rest IH]; [reflexivity|].
  cbn [extract_questions]. rewrite enumerated_test.
  unfold listed in *. cbn [filter].
  destruct (enumerated line); [|exact IH].
  rewrite strip_enumerator_after, IH. cbn [bind map filter].
  destruct (5 <? length (question_of line)) eqn:E.
  - destruct (question_of line); [discriminate E | reflexivity].
  - rewrite andb_false_r. reflexivity.
Qed.

Lemma digit_not_space (d : ascii) :
  Char.isdigit d = true -> Char.isspace d = false /\ Ascii.eqb "." d = false.
Proof.
  destruct d as [[] [] [] [] [] [] [] []]; vm_compute; intros H;
    try discriminate H; split; reflexivity.
Qed.

Lemma question_of_numbered (d : ascii) (q : pystr) :
  Char.isdigit d = true -> question_text q = true ->
  enumerated (d :: py ". " ++ q) = true /\ question_of (d :: py ". " ++ q) = q.
Proof.
  intros Hd Hq. destruct (digit_not_space d Hd) as [Hsp Hdot].
  destruct (question_text_rstrip q Hq) as [Hne Hr].
  pose proof (strip_fixed d ["."; " "]%char q Hsp Hne Hr) as Hline.
  cbn [app] in Hline.
  change (d :: py ". " ++ q) with (d :: "." :: " " :: q)%char.
  split.
  - unfold enumerated. rewrite Hline, Hd. reflexivity.
  - pose proof (strip_enumerator_after (d :: "." :: " " :: q)%char) as H.
    rewrite Hline, (strip_enumerator_numbered d q Hdot Hq) in H.
    congruence.
Qed.

(** C7, as the code has it.  A response with neither section marker is
    read as one factual section.  Parsing raises nothing; the conceptual
    list is empty; the factual list holds, in their order, the questions
    of the lines of the trimmed response that start with a digit or a
    dash, where the question of a line is what follows its first dot and
    first closing parenthesis, kept when longer than five characters.  So
    a line with a digit, a dot, a blank and a question text gives that
    question, and the list is empty only when no line gives one. *)
Theorem parse_without_markers :
  forall response : pystr,
    contains (py "FACTUAL QUESTIONS:") response = false ->
    contains (py "CONCEPTUAL QUESTIONS:") response = false ->
    parse_response response
    = Some (Questions (listed (split (py "\n") (strip response))) [])
    /\ (forall (d : ascii) (q : pystr),
          Char.isdigit d = true -> question_text q = true ->
          In (d :: py ". " ++ q) (split (py "\n") (strip response)) ->
          In q (listed (split (py "\n") (strip response))))
    /\ (forallb (fun line => negb (enumerated line))
                (split (py "\n") (strip response)) = true ->
        listed (split (py "\n") (strip response)) = []).
Proof.
  intros response HF HC. split; [|split].
  - unfold parse_response.
    rewrite (split_none _ _ HC), (split_none _ _ HF).
    cbn [last_item bind]. rewrite !extract_listed. reflexivity.
  - intros d q Hd Hq Hin.
    destruct (question_of_numbered d q Hd Hq) as [He Hof].
    unfold listed. apply filter_In. split.
    + rewrite <- Hof. apply in_map. apply filter_In. split; assumption.
    + apply question_text_facts in Hq as [Hlen _]. apply Nat.ltb_lt. exact Hlen.
  - intros Hnone. unfold listed.
    assert (E : filter enumerated (split (py "\n") (strip response)) = []).
    { induction (split (py "\n") (strip response)) as [|l ls IH]; [reflexivity|].
      cbn [forallb] in Hnone. apply andb_prop in Hnone as [Hl Hls].
      apply negb_true_iff in Hl. cbn [filter]. rewrite Hl. exact (IH Hls). }
    rewrite E. reflexivity.
Qed.

End Unmarked.

Lemma parse_without_markers_witness :
  contains (py "FACTUAL QUESTIONS:")
    (py "Here you go:\n1. What is the capital of France?\n2) Who wrote it?\n3. Why?\nBye.") = false
  /\ contains (py "CONCEPTUAL QUESTIONS:")
       (py "Here you go:\n1. What is the capital of France?\n2) Who wrote it?\n3. Why?\nBye.") = false
  /\ listed (split (py "\n")
       (strip (py "Here you go:\n1. What is the capital of France?\n2) Who wrote it?\n3. Why?\nBye.")))
     = [py "What is the capital of France?"; py "Who wrote it?"]
  /\ parse_response
       (py "Here you go:\n1. What is the capital of France?\n2) Who wrote it?\n3. Why?\nBye.")
     = Some (Questions
               (listed (split (py "\n")
                  (strip (py "Here you go:\n1. What is the capital of France?\n2) Who wrote it?\n3. Why?\nBye."))))
               []).
Proof.
  split; [vm_compute; reflexivity|].
  split; [vm_compute; reflexivity|].
  split; [vm_compute; reflexivity|].
  destruct (parse_without_markers
              (py "Here you go:\n1. What is the capital of France?\n2) Who wrote it?\n3. Why?\nBye."))
    as [H _].
  - vm_compute. reflexivity.
  - vm_compute. reflexivity.
  - exact H.
Defined.

(** * More on the string operations *)

Section Substrings.

Lemma startswith_skipn (s p : pystr) :
  startswith s p = true -> s = p ++ skipn (length p) s.
Proof.
  intros H. apply startswith_iff in H as [t ->].
  rewrite skipn_app, skipn_all, Nat.sub_diag. reflexivity.
Qed.

(** [partition] cuts at an occurrence of the separator. *)
Lemma partition_spec (sep s a b : pystr) :
  partition sep s = Some (a, b) -> s = a ++ sep ++ b.
Proof.
  revert a. induction s as [|c s IH]; intros a; simpl.
  - destruct (startswith [] sep) eqn:E; [|discriminate].
    intros H. injection H as <- <-. exact (startswith_skipn _ _ E).
  - destruct (startswith (c :: s) sep) eqn:E.
    + intros H. injection H as <- <-. exact (startswith_skipn _ _ E).
    + destruct (partition sep s) as [[a' b']|]; [|discriminate].
      intros H. injection H as <- <-. simpl. f_equal. apply IH. reflexivity.
Qed.

Lemma split_max_not_nil (n : nat) (sep s : pystr) : split_max n sep s <> [].
Proof.
  destruct n; simpl; [discriminate|].
  destruct (partition sep s) as [[a b]|]; discriminate.
Qed.

Lemma join_cons (sep x : pystr) (rest : list pystr) :
  rest <> [] -> join sep (x :: rest) = x ++ sep ++ join sep rest.
Proof. destruct rest; [congruence | reflexivity]. Qed.

(** Joining the pieces of a split with the separator gives the text
    back. *)
Lemma join_split_max (n : nat) (sep s : pystr) :
  join sep (split_max n sep s) = s.
Proof.
  revert s. induction n as [|n IH]; intros s; simpl.
  - reflexivity.
  - destruct (partition sep s) as [[a b]|] eqn:E.
    + rewrite join_cons by apply split_max_not_nil.
      rewrite IH. symmetry. exact (partition_spec _ _ _ _ E).
    + reflexivity.
Qed.

Lemma join_split (sep s : pystr) : join sep (split sep s) = s.
Proof. apply join_split_max. Qed.

(** [sub in s] holds exactly when [s] is some text, [sub], some text. *)
Lemma contains_iff (sub s : pystr) :
  contains sub s = true <-> exists x y, s = x ++ sub ++ y.
Proof.
  split.
  - induction s as [|c s IH]; simpl; intros H.
    + rewrite orb_false_r in H. apply startswith_iff in H as [t Ht].
      exists [], t. exact Ht.
    + apply orb_prop in H as [H | H].
      * apply startswith_iff in H as [t Ht]. exists [], t. exact Ht.
      * destruct (IH H) as [x [y ->]]. exists (c :: x), y. reflexivity.
  - intros [x [y ->]]. induction x as [|c x IH].
    + simpl app. destruct (sub ++ y) eqn:E; simpl.
      * rewrite <- E, startswith_app. reflexivity.
      * rewrite <- E, startswith_app. reflexivity.
    + simpl. rewrite IH. apply orb_true_r.
Qed.

Lemma contains_refl (s : pystr) : contains s s = true.
Proof. apply contains_iff. exists [], []. rewrite app_nil_r. reflexivity. Qed.

Lemma contains_trans (a b c : pystr) :
  contains a b = true -> contains b c = true -> contains a c = true.
Proof.
  intros H1 H2. apply contains_iff in H1 as [x [y ->]].
  apply contains_iff in H2 as [x' [y' ->]].
  apply contains_iff. exists (x' ++ x), (y ++ y').
  rewrite <- !app_assoc. reflexivity.
Qed.

Lemma contains_app_l (u a b : pystr) :
  contains u a = true -> contains u (a ++ b) = true.
Proof.
  intros H. apply contains_iff in H as [x [y ->]].
  apply contains_iff. exists x, (y ++ b). rewrite <- !app_assoc. reflexivity.
Qed.

Lemma contains_app_r (u a b : pystr) :
  contains u b = true -> contains u (a ++ b) = true.
Proof.
  intros H. apply contains_iff in H as [x [y ->]].
  apply contains_iff. exists (a ++ x), y. rewrite <- !app_assoc. reflexivity.
Qed.

(** A part of a joined text occurs in it. *)
Lemma contains_join (sep u : pystr) (parts : list pystr) :
  In u parts -> contains u (join sep parts) = true.
Proof.
  induction parts as [|x rest IH]; intros Hin.
  - destruct Hin.
  - destruct rest as [|y rest'].
    + destruct Hin as [-> | []]. apply contains_refl.
    + rewrite join_cons by discriminate. destruct Hin as [-> | Hin].
      * apply contains_app_l, contains_refl.
      * apply contains_app_r, contains_app_r, IH, Hin.
Qed.

(** The pieces of a split occur in the text. *)
Lemma split_max_piece (n : nat) (sep s p : pystr) :
  In p (split_max n sep s) -> contains p s = true.
Proof.
  intros H. pose proof (contains_join sep p _ H) as Hc.
  rewrite join_split_max in Hc. exact Hc.
Qed.

Lemma dropwhile_suffix {A} (p : A -> bool) (l : list A) :
  exists x, l = x ++ dropwhile p l /\ forallb p x = true.
Proof.
  induction l as [|c l [x [IH Hx]]]; simpl.
  - exists []. split; reflexivity.
  - destruct (p c) eqn:E.
    + exists (c :: x). simpl. rewrite E, Hx. split; [f_equal; exact IH | reflexivity].
    + exists []. split; reflexivity.
Qed.

Lemma forallb_rev {A} (p : A -> bool) (l : list A) :
  forallb p (rev l) = forallb p l.
Proof.
  induction l as [|c l IH]; simpl.
  - reflexivity.
  - rewrite forallb_app, IH. simpl. rewrite andb_true_r. apply andb_comm.
Qed.

(** A text is white space, its strip, white space. *)
Lemma strip_split (s : pystr) :
  exists x y, s = x ++ strip s ++ y
              /\ forallb Char.isspace x = true /\ forallb Char.isspace y = true.
Proof.
  unfold strip, rstrip, lstrip.
  destruct (dropwhile_suffix Char.isspace s) as [x [Hx Hxs]].
  destruct (dropwhile_suffix Char.isspace (rev (dropwhile Char.isspace s)))
    as [y [Hy Hys]].
  exists x, (rev y). repeat split.
  - rewrite Hx at 1. f_equal.
    rewrite <- (rev_involutive (dropwhile Char.isspace s)) at 1.
    rewrite Hy at 1. rewrite rev_app_distr. reflexivity.
  - exact Hxs.
  - rewrite forallb_rev. exact Hys.
Qed.

Lemma contains_strip (s : pystr) : contains (strip s) s = true.
Proof.
  destruct (strip_split s) as [x [y [H _]]].
  apply contains_iff. exists x, y. exact H.
Qed.

Lemma dropwhile_nil_iff {A} (p : A -> bool) (l : list A) :
  dropwhile p l = [] <-> forallb p l = true.
Proof.
  induction l as [|c l IH]; simpl.
  - tauto.
  - destruct (p c); simpl; [exact IH|]. split; discriminate.
Qed.

(** A text strips to nothing exactly when it is all white space. *)
Lemma strip_nil_iff (s : pystr) :
  strip s = [] <-> forallb Char.isspace s = true.
Proof.
  split.
  - intros H. destruct (strip_split s) as [x [y [E [Hx Hy]]]].
    rewrite H in E. cbn [app] in E. rewrite E, forallb_app, Hx, Hy. reflexivity.
  - intros H. unfold strip, lstrip.
    apply dropwhile_nil_iff in H. rewrite H. reflexivity.
Qed.

Lemma truthy_false_iff {A} (l : list A) : truthy l = false <-> l = [].
Proof. destruct l; simpl; split; congruence. Qed.

Lemma truthy_true_iff {A} (l : list A) : truthy l = true <-> l <> [].
Proof. destruct l; simpl; split; congruence. Qed.

Lemma forallb_join (p : ascii -> bool) (sep : pystr) (parts : list pystr) :
  forallb p sep = true ->
  Forall (fun x => forallb p x = true) parts ->
  forallb p (join sep parts) = true.
Proof.
  intros Hsep H. induction H as [|x rest Hx Hrest IH].
  - reflexivity.
  - destruct rest as [|y rest'].
    + exact Hx.
    + rewrite join_cons by discriminate.
      rewrite !forallb_app, Hx, Hsep, IH. reflexivity.
Qed.

(** A text that is not blank has a piece that is not blank, when it is
    split at a separator of white space. *)
Lemma split_not_blank (sep s : pystr) :
  forallb Char.isspace sep = true -> strip s <> [] ->
  exists p, In p (split sep s) /\ strip p <> [].
Proof.
  intros Hsep Hs.
  destruct (Exists_dec (fun p => strip p <> []) (split sep s)) as [H | H].
  - intros p. destruct (strip p); [right; congruence | left; discriminate].
  - apply Exists_exists in H. exact H.
  - exfalso. apply Hs. apply strip_nil_iff.
    rewrite <- (join_split sep s). apply forallb_join; [exact Hsep|].
    apply Forall_forall. intros p Hp. apply strip_nil_iff.
    destruct (strip p) eqn:E; [reflexivity|].
    exfalso. apply H. apply Exists_exists. exists p. split; [exact Hp|].
    rewrite E. discriminate.
Qed.

(** The pieces of a blank text are blank. *)
Lemma forallb_contains (p : ascii -> bool) (u s : pystr) :
  contains u s = true -> forallb p s = true -> forallb p u = true.
Proof.
  intros H Hs. apply contains_iff in H as [x [y ->]].
  rewrite !forallb_app in Hs.
  apply andb_prop in Hs as [_ Hs]. apply andb_prop in Hs as [Hs _]. exact Hs.
Qed.

Lemma split_blank (sep s p : pystr) :
  strip s = [] -> In p (split sep s) -> strip p = [].
Proof.
  intros Hs Hp. apply strip_nil_iff. apply strip_nil_iff in Hs.
  apply (forallb_contains _ p s); [|exact Hs].
  exact (split_max_piece _ _ _ _ Hp).
Qed.

End Substrings.

Section SplitJoin.

Lemma partition_none_iff (sep s : pystr) :
  partition sep s = None <-> contains sep s = false.
Proof.
  split; [|apply partition_none].
  induction s as [|c s IH]; simpl.
  - destruct (startswith [] sep); [discriminate | reflexivity].
  - destruct (startswith (c :: s) sep); [discriminate|].
    destruct (partition sep s) as [[a b]|]; [discriminate|].
    intros _. simpl. apply IH. reflexivity.
Qed.

(** The separator does not occur before the place where [partition]
    cuts. *)
Lemma partition_before_free (sep s a b : pystr) :
  sep <> [] -> partition sep s = Some (a, b) -> contains sep a = false.
Proof.
  intros Hne. revert a. induction s as [|c s IH]; intros a; simpl.
  - destruct (startswith [] sep); [|discriminate].
    intros H. injection H as <- _. simpl.
    rewrite (startswith_nil_false sep Hne). reflexivity.
  - destruct (startswith (c :: s) sep) eqn:E.
    + intros H. injection H as <- _. simpl.
      rewrite (startswith_nil_false sep Hne). reflexivity.
    + destruct (partition sep s) as [[a' b']|] eqn:Ep; [|discriminate].
      intros H. injection H as <- <-. simpl.
      rewrite (IH a' eq_refl), orb_false_r.
      destruct (startswith (c :: a') sep) eqn:E'; [|reflexivity].
      apply (startswith_app_r (c :: a') (sep ++ b')) in E'.
      apply partition_spec in Ep. rewrite Ep in E. simpl in E, E'. congruence.
Qed.

Lemma partition_shorter (sep s a b : pystr) :
  sep <> [] -> partition sep s = Some (a, b) -> length b < length s.
Proof.
  intros Hne H. apply partition_spec in H. subst s.
  rewrite !length_app. destruct sep; [congruence|]. simpl. lia.
Qed.

(** More cuts than the text has characters change nothing. *)
Lemma split_max_enough (sep : pystr) :
  sep <> [] ->
  forall n m s, length s <= n -> length s <= m ->
    split_max n sep s = split_max m sep s.
Proof.
  intros Hne. induction n as [|n IH]; intros m s Hn Hm.
  - destruct s; [|simpl in Hn; lia].
    destruct m; simpl; [reflexivity|].
    rewrite (startswith_nil_false sep Hne). reflexivity.
  - destruct m as [|m].
    + destruct s; [|simpl in Hm; lia]. simpl.
      rewrite (startswith_nil_false sep Hne). reflexivity.
    + simpl. destruct (partition sep s) as [[a b]|] eqn:E; [|reflexivity].
      pose proof (partition_shorter _ _ _ _ Hne E).
      f_equal. apply IH; lia.
Qed.

(** No piece of an unbounded split holds the separator. *)
Lemma split_pieces_free (sep s : pystr) :
  sep <> [] -> Forall (fun p => contains sep p = false) (split sep s).
Proof.
  intros Hne. unfold split.
  assert (H : forall n s, length s <= n ->
                Forall (fun p => contains sep p = false) (split_max n sep s)).
  { induction n as [|n IH]; intros t Ht; simpl.
    - destruct t; [|simpl in Ht; lia]. constructor; [|constructor].
      simpl. rewrite (startswith_nil_false sep Hne). reflexivity.
    - destruct (partition sep t) as [[a b]|] eqn:E.
      + constructor.
        * exact (partition_before_free _ _ _ _ Hne E).
        * apply IH. pose proof (partition_shorter _ _ _ _ Hne E). lia.
      + constructor; [|constructor]. apply partition_none_iff. exact E. }
  apply H. lia.
Qed.

Lemma split_lines_free (s line : pystr) :
  In line (split (py "\n") s) -> contains (py "\n") line = false.
Proof.
  intros H.
  pose proof (split_pieces_free (py "\n") s) as Hf.
  rewrite Forall_forall in Hf. apply Hf; [discriminate | exact H].
Qed.

(** Splitting joined lines gives the lines back. *)
Lemma split_join_lines (lines : list pystr) :
  lines <> [] ->
  Forall (fun l => contains (py "\n") l = false) lines ->
  split (py "\n") (join (py "\n") lines) = lines.
Proof.
  intros Hne H. induction H as [|x rest Hx Hrest IH]; [congruence|].
  destruct rest as [|y rest'].
  - simpl join. apply split_none. exact Hx.
  - rewrite join_cons by discriminate.
    change (py "\n") with [Char.nl] in *. cbn [app].
    unfold split.
    assert (Hpart : partition [Char.nl] (x ++ Char.nl :: join [Char.nl] (y :: rest'))
                    = Some (x, join [Char.nl] (y :: rest'))).
    { apply partition_char. apply contains_char_iff. exact Hx. }
    rewrite length_app. cbn [length]. rewrite Nat.add_succ_r.
    cbn [split_max]. rewrite Hpart. f_equal.
    rewrite (split_max_enough [Char.nl] ltac:(discriminate) _
               (length (join [Char.nl] (y :: rest')))) by lia.
    apply IH. discriminate.
Qed.

Lemma filter_idem {A} (p : A -> bool) (l : list A) :
  filter p (filter p l) = filter p l.
Proof.
  induction l as [|x l IH]; simpl.
  - reflexivity.
  - destruct (p x) eqn:E; simpl; [rewrite E, IH|]; auto.
Qed.

End SplitJoin.

(** * Further properties *)

(** ** The chunker: nothing is lost, nothing is empty *)

Section Accumulation.

Local Open Scope Z_scope.

Variable self : TextChunker.

Lemma kept_in_chunks_app (st : acc) (more cur : list pystr) (n : Z) (u : pystr) :
  (exists c, In c (chunks st) /\ contains u c = true) ->
  kept_in (Acc (chunks st ++ more) cur n) u.
Proof.
  intros [c [Hc Hu]]. left. exists c. split; [|exact Hu].
  simpl. apply in_or_app. left. exact Hc.
Qed.

(** Closing the chunk being built keeps its units. *)
Lemma kept_in_close (sep : pystr) (st : acc) (cur : list pystr) (n : Z) (u : pystr) :
  kept_in st u ->
  kept_in (Acc (chunks st ++ [join sep (current_chunk st)]) cur n) u.
Proof.
  intros [H | H].
  - apply kept_in_chunks_app. exact H.
  - left. exists (join sep (current_chunk st)). split.
    + simpl. apply in_or_app. right. left. reflexivity.
    + apply contains_join. exact H.
Qed.

Lemma kept_in_append (st : acc) (x u : pystr) (n : Z) :
  kept_in st u -> kept_in (Acc (chunks st) (current_chunk st ++ [x]) n) u.
Proof.
  intros [H | H].
  - left. exact H.
  - right. simpl. apply in_or_app. left. exact H.
Qed.

Lemma kept_in_appended (st : acc) (x : pystr) (n : Z) :
  kept_in (Acc (chunks st) (current_chunk st ++ [x]) n) x.
Proof. right. simpl. apply in_or_app. right. left. reflexivity. Qed.

Lemma sentence_step_keeps (st : acc) (s u : pystr) :
  kept_in st u -> kept_in (sentence_step self st s) u.
Proof.
  intros H. unfold sentence_step.
  destruct (truthy (strip s)); cbn [negb]; [|exact H].
  destruct ((current_length st + len (strip s) >? max_chars self)
            && truthy (current_chunk st)).
  - apply (kept_in_append (Acc _ _ _)). apply kept_in_close. exact H.
  - apply kept_in_append. exact H.
Qed.

Lemma sentence_step_adds (st : acc) (s : pystr) :
  strip s <> [] -> kept_in (sentence_step self st s) (strip s).
Proof.
  intros H. unfold sentence_step.
  apply truthy_true_iff in H. rewrite H. cbn [negb].
  destruct ((current_length st + len (strip s) >? max_chars self)
            && truthy (current_chunk st)).
  - apply (kept_in_appended (Acc _ _ _)).
  - apply kept_in_appended.
Qed.

Lemma fold_keeps (step : acc -> pystr -> acc) :
  (forall st s u, kept_in st u -> kept_in (step st s) u) ->
  forall l st u, kept_in st u -> kept_in (fold_left step l st) u.
Proof.
  intros Hstep l. induction l as [|s l IH]; intros st u H; simpl.
  - exact H.
  - apply IH, Hstep, H.
Qed.

Lemma fold_adds (step : acc -> pystr -> acc) (P : pystr -> Prop) :
  (forall st s u, kept_in st u -> kept_in (step st s) u) ->
  (forall st s, P s -> kept_in (step st s) (strip s)) ->
  forall l st s, In s l -> P s -> kept_in (fold_left step l st) (strip s).
Proof.
  intros Hkeep Hadd l. induction l as [|x l IH]; intros st s Hin Hs; simpl.
  - destruct Hin.
  - destruct Hin as [-> | Hin].
    + apply fold_keeps; [exact Hkeep|]. apply Hadd, Hs.
    + apply IH; assumption.
Qed.

Lemma kept_in_closed (sep : pystr) (st : acc) (u : pystr) :
  kept_in st u -> exists c, In c (closed sep st) /\ contains u c = true.
Proof.
  unfold closed. intros [[c [Hc Hu]] | H].
  - exists c. split; [|exact Hu].
    destruct (truthy (current_chunk st)); [apply in_or_app; left|]; exact Hc.
  - assert (Ht : truthy (current_chunk st) = true).
    { apply truthy_true_iff. intros E. rewrite E in H. destruct H. }
    rewrite Ht. exists (join sep (current_chunk st)). split.
    + apply in_or_app. right. left. reflexivity.
    + apply contains_join. exact H.
Qed.

Lemma split_long_paragraph_closed (paragraph : pystr) :
  _split_long_paragraph self paragraph
  = closed (py " ") (fold_left (sentence_step self)
                               (re_split false sentence_break paragraph)
                               (Acc [] [] 0)).
Proof. reflexivity. Qed.

Lemma chunk_by_paragraphs_closed (text : pystr) :
  chunk_by_paragraphs self text
  = closed (py "\n\n") (fold_left (paragraph_step self)
                                  (split (py "\n\n") text) (Acc [] [] 0)).
Proof. reflexivity. Qed.

(** No sentence of a long paragraph is lost: each one that is not blank
    occurs, trimmed, in one of the chunks made from the paragraph. *)
Theorem sentence_kept :
  forall (paragraph sentence : pystr),
    In sentence (re_split false sentence_break paragraph) ->
    strip sentence <> [] ->
    exists c, In c (_split_long_paragraph self paragraph)
              /\ contains (strip sentence) c = true.
Proof.
  intros paragraph sentence Hin Hs.
  rewrite split_long_paragraph_closed. apply kept_in_closed.
  apply (fold_adds (sentence_step self) (fun s => strip s <> [])).
  - apply sentence_step_keeps.
  - intros st s. apply sentence_step_adds.
  - exact Hin.
  - exact Hs.
Qed.

Lemma paragraph_step_keeps (st : acc) (para u : pystr) :
  kept_in st u -> kept_in (paragraph_step self st para) u.
Proof.
  intros H. unfold paragraph_step.
  destruct (truthy (strip para)); cbn [negb]; [|exact H].
  destruct (len (strip para) >? max_chars self).
  - destruct (truthy (current_chunk st)).
    + destruct (kept_in_close (py "\n\n") st [] 0 u H) as [Hc | []].
      apply (kept_in_chunks_app (Acc _ _ _)). exact Hc.
    + destruct H as [H | H].
      * apply kept_in_chunks_app. exact H.
      * right. exact H.
  - destruct ((current_length st + len (strip para) >? max_chars self)
              && truthy (current_chunk st)).
    + apply (kept_in_append (Acc _ _ _)). apply kept_in_close. exact H.
    + apply kept_in_append. exact H.
Qed.

Lemma paragraph_step_adds (st : acc) (para : pystr) :
  strip para <> [] /\ len (strip para) <= max_chars self ->
  kept_in (paragraph_step self st para) (strip para).
Proof.
  intros [H Hlen]. unfold paragraph_step.
  apply truthy_true_iff in H. rewrite H. cbn [negb].
  assert (E : (len (strip para) >? max_chars self) = false).
  { rewrite Z.gtb_ltb. apply Z.ltb_ge. exact Hlen. }
  rewrite E.
  destruct ((current_length st + len (strip para) >? max_chars self)
            && truthy (current_chunk st)).
  - apply (kept_in_appended (Acc _ _ _)).
  - apply kept_in_appended.
Qed.

(** No paragraph is lost: each paragraph that is not blank and is within
    the limit occurs, trimmed, in one of the chunks. *)
Theorem paragraph_kept :
  forall (text para : pystr),
    In para (split (py "\n\n") text) ->
    strip para <> [] ->
    len (strip para) <= max_chars self ->
    exists c, In c (chunk_by_paragraphs self text)
              /\ contains (strip para) c = true.
Proof.
  intros text para Hin Hs Hlen.
  rewrite chunk_by_paragraphs_closed. apply kept_in_closed.
  apply (fold_adds (paragraph_step self)
           (fun p => strip p <> [] /\ len (strip p) <= max_chars self)).
  - apply paragraph_step_keeps.
  - intros st s. apply paragraph_step_adds.
  - exact Hin.
  - split; assumption.
Qed.

(** Closed chunks stay. *)
Lemma paragraph_step_chunks (st : acc) (para c : pystr) :
  In c (chunks st) -> In c (chunks (paragraph_step self st para)).
Proof.
  intros H. unfold paragraph_step.
  destruct (truthy (strip para)); cbn [negb]; [|exact H].
  destruct (len (strip para) >? max_chars self).
  - destruct (truthy (current_chunk st)); cbn [chunks].
    + apply in_or_app. left. apply in_or_app. left. exact H.
    + apply in_or_app. left. exact H.
  - destruct ((current_length st + len (strip para) >? max_chars self)
              && truthy (current_chunk st)); cbn [chunks].
    + apply in_or_app. left. exact H.
    + exact H.
Qed.

Lemma fold_paragraph_chunks (l : list pystr) (st : acc) (c : pystr) :
  In c (chunks st) -> In c (chunks (fold_left (paragraph_step self) l st)).
Proof.
  revert st. induction l as [|p l IH]; intros st H; simpl.
  - exact H.
  - apply IH, paragraph_step_chunks, H.
Qed.

Lemma closed_chunks (sep : pystr) (st : acc) (c : pystr) :
  In c (chunks st) -> In c (closed sep st).
Proof.
  intros H. unfold closed.
  destruct (truthy (current_chunk st)); [apply in_or_app; left|]; exact H.
Qed.

Lemma paragraph_step_long (st : acc) (para c : pystr) :
  max_chars self < len (strip para) ->
  In c (_split_long_paragraph self (strip para)) ->
  In c (chunks (paragraph_step self st para)).
Proof.
  intros Hlen Hc. unfold paragraph_step.
  assert (Ht : truthy (strip para) = true).
  { apply truthy_true_iff. intros E. rewrite E in Hlen.
    change (len (@nil ascii)) with 0 in Hlen.
    rewrite E in Hc. vm_compute in Hc. exact Hc. }
  rewrite Ht. cbn [negb].
  assert (E : (len (strip para) >? max_chars self) = true).
  { rewrite Z.gtb_ltb. apply Z.ltb_lt. exact Hlen. }
  rewrite E.
  destruct (truthy (current_chunk st)); cbn [chunks];
    apply in_or_app; right; exact Hc.
Qed.

(** The chunks made from a long paragraph are chunks of the text. *)
Lemma long_paragraph_chunks (text para c : pystr) :
  In para (split (py "\n\n") text) ->
  max_chars self < len (strip para) ->
  In c (_split_long_paragraph self (strip para)) ->
  In c (chunk_by_paragraphs self text).
Proof.
  intros Hin Hlen Hc. rewrite chunk_by_paragraphs_closed.
  apply closed_chunks.
  generalize (Acc [] [] 0).
  induction (split (py "\n\n") text) as [|p l IH]; intros st.
  - destruct Hin.
  - simpl. destruct Hin as [-> | Hin].
    + apply fold_paragraph_chunks. apply paragraph_step_long; assumption.
    + apply IH. exact Hin.
Qed.

End Accumulation.

(** ** The pieces of [re.split] *)

Section Pieces.

Variables (ic : bool) (r : regex).

(** The pieces lie in the text. *)
Lemma split_loop_piece :
  forall aft bef skip cur p,
    (skip = 0 \/ cur = []) ->
    In p (split_loop ic r bef aft skip cur) ->
    contains p (rev cur ++ aft) = true.
Proof.
  induction aft as [|c rest IH]; intros bef skip cur p Hs Hin;
    cbn [split_loop] in Hin.
  - destruct Hin as [<- | []]. rewrite app_nil_r. apply contains_refl.
  - assert (Hstep : forall q, contains q (rev (c :: cur) ++ rest) = true ->
                              contains q (rev cur ++ c :: rest) = true).
    { intros q Hq. simpl in Hq. rewrite <- app_assoc in Hq. exact Hq. }
    destruct skip as [|n].
    + destruct (match_here ic r bef (c :: rest)) as [st'|].
      * destruct (length (c :: rest) - length (after st')) as [|n].
        -- apply Hstep. apply (IH _ _ _ _ (or_introl eq_refl) Hin).
        -- destruct Hin as [<- | Hin].
           ++ apply contains_app_l, contains_refl.
           ++ apply (IH _ _ _ _ (or_intror eq_refl)) in Hin.
              apply contains_app_r. apply (contains_app_r _ [c]). exact Hin.
      * apply Hstep. apply (IH _ _ _ _ (or_introl eq_refl) Hin).
    + destruct Hs as [Hs | ->]; [discriminate|].
      apply (IH _ _ _ _ (or_intror eq_refl)) in Hin.
      apply (contains_app_r _ [c]). exact Hin.
Qed.

Lemma re_split_piece (s p : pystr) :
  In p (re_split ic r s) -> contains p s = true.
Proof.
  intros H. exact (split_loop_piece s [] 0 [] p (or_introl eq_refl) H).
Qed.

(** The first piece starts with what has been read. *)
Lemma split_loop_head :
  forall aft bef skip cur,
    exists x tl, split_loop ic r bef aft skip cur = (rev cur ++ x) :: tl.
Proof.
  induction aft as [|c rest IH]; intros bef skip cur; cbn [split_loop].
  - exists [], []. rewrite app_nil_r. reflexivity.
  - assert (Hmore : exists x tl,
               split_loop ic r (c :: bef) rest 0 (c :: cur) = (rev cur ++ x) :: tl).
    { destruct (IH (c :: bef) 0 (c :: cur)) as [x [tl E]].
      exists (c :: x), tl. rewrite E. simpl. rewrite <- app_assoc. reflexivity. }
    destruct skip as [|n].
    + destruct (match_here ic r bef (c :: rest)) as [st'|]; [|exact Hmore].
      destruct (length (c :: rest) - length (after st')) as [|n]; [exact Hmore|].
      exists [], (split_loop ic r (c :: bef) rest n []).
      rewrite app_nil_r. reflexivity.
    + apply IH.
Qed.

End Pieces.

Section Chunks.

Local Open Scope Z_scope.

Variable self : TextChunker.

(** X1.  The chunker loses no paragraph: every paragraph of the text that is
    not blank and is within the limit occurs, trimmed, in a chunk. *)
Theorem chunk_text_keeps_paragraph :
  forall (text para : pystr),
    In para (split (py "\n\n") text) ->
    strip para <> [] ->
    len (strip para) <= max_chars self ->
    exists c, In c (chunk_text self text) /\ contains (strip para) c = true.
Proof.
  intros text para Hin Hs Hlen.
  unfold chunk_text. destruct (estimate_tokens self text <=? max_tokens self).
  - exists text. split; [left; reflexivity|].
    apply (contains_trans _ para); [apply contains_strip|].
    exact (split_max_piece _ _ _ _ Hin).
  - apply paragraph_kept; assumption.
Qed.

(** X2.  The chunker loses no sentence of a long paragraph: every sentence
    of a paragraph over the limit that is not blank occurs, trimmed, in a
    chunk. *)
Theorem chunk_text_keeps_sentence :
  forall (text para sentence : pystr),
    In para (split (py "\n\n") text) ->
    max_chars self < len (strip para) ->
    In sentence (re_split false sentence_break (strip para)) ->
    strip sentence <> [] ->
    exists c, In c (chunk_text self text) /\ contains (strip sentence) c = true.
Proof.
  intros text para sentence Hin Hlen Hsen Hs.
  unfold chunk_text. destruct (estimate_tokens self text <=? max_tokens self).
  - exists text. split; [left; reflexivity|].
    apply (contains_trans _ (strip para)).
    + apply (contains_trans _ sentence); [apply contains_strip|].
      exact (re_split_piece _ _ _ _ Hsen).
    + apply (contains_trans _ para); [apply contains_strip|].
      exact (split_max_piece _ _ _ _ Hin).
  - destruct (sentence_kept self (strip para) sentence Hsen Hs) as [c [Hc Hu]].
    exists c. split; [|exact Hu].
    exact (long_paragraph_chunks self text para c Hin Hlen Hc).
Qed.

End Chunks.

Lemma chunk_text_keeps_paragraph_witness :
  exists c,
    In c (chunk_text (TextChunker_init 3 200)
            (py "One two.\n\nThree four five six seven. Eight nine ten.\n\nEnd."))
    /\ contains (strip (py "One two.")) c = true.
Proof.
  apply (chunk_text_keeps_paragraph (TextChunker_init 3 200)
           (py "One two.\n\nThree four five six seven. Eight nine ten.\n\nEnd.")
           (py "One two.")).
  - vm_compute. left. reflexivity.
  - vm_compute. discriminate.
  - vm_compute. discriminate.
Defined.

Lemma chunk_text_keeps_sentence_witness :
  exists c,
    In c (chunk_text (TextChunker_init 3 200)
            (py "One two.\n\nThree four five six seven. Eight nine ten.\n\nEnd."))
    /\ contains (strip (py "Eight nine ten.")) c = true.
Proof.
  apply (chunk_text_keeps_sentence (TextChunker_init 3 200)
           (py "One two.\n\nThree four five six seven. Eight nine ten.\n\nEnd.")
           (py "Three four five six seven. Eight nine ten.")
           (py "Eight nine ten.")).
  - vm_compute. right. left. reflexivity.
  - vm_compute. reflexivity.
  - vm_compute. right. left. reflexivity.
  - vm_compute. discriminate.
Defined.

(** ** The chunker: the shape of the chunks *)

Section Shape.

Local Open Scope Z_scope.

Variable self : TextChunker.

Lemma unit_ok_strip (s : pystr) : strip s <> [] -> unit_ok (strip s).
Proof. intros H. split; [exact H | apply strip_idem]. Qed.

Lemma unit_ok_first (u : pystr) :
  unit_ok u -> exists c rest, u = c :: rest /\ Char.isspace c = false.
Proof.
  intros [Hne Hs]. destruct u as [|c rest]; [congruence|].
  exists c, rest. split; [reflexivity|].
  exact (trimmed_first c rest (strip_fixed_trimmed _ Hs)).
Qed.

Lemma unit_ok_rstrip (u : pystr) : unit_ok u -> rstrip u = u.
Proof. intros [_ Hs]. apply (strip_fixed_trimmed _ Hs). Qed.

(** Units joined by any separator make a chunk that is trimmed and not
    empty. *)
Lemma join_ok (sep : pystr) (parts : list pystr) :
  parts <> [] -> Forall unit_ok parts -> unit_ok (join sep parts).
Proof.
  intros Hne H. induction H as [|x rest Hx Hrest IH]; [congruence|].
  destruct rest as [|y rest'].
  - exact Hx.
  - rewrite join_cons by discriminate.
    assert (HJ : unit_ok (join sep (y :: rest'))) by (apply IH; discriminate).
    destruct (unit_ok_first x Hx) as [c [x' [-> Hc]]].
    split; [discriminate|].
    replace ((c :: x') ++ sep ++ join sep (y :: rest'))
      with (c :: (x' ++ sep) ++ join sep (y :: rest'))
      by (simpl; rewrite <- app_assoc; reflexivity).
    apply strip_fixed; [exact Hc | apply HJ | apply unit_ok_rstrip, HJ].
Qed.

Lemma last_item_In {A} (l : list A) (x : A) : last_item l = Some x -> In x l.
Proof.
  induction l as [|y l IH]; simpl; [discriminate|].
  destruct l as [|z l'].
  - intros H. injection H as ->. left. reflexivity.
  - intros H. right. exact (IH H).
Qed.

Lemma keep_last_ok (cur : list pystr) :
  Forall unit_ok cur -> Forall unit_ok (keep_last cur).
Proof.
  intros H. unfold keep_last. destruct (last_item cur) as [x|] eqn:E.
  - constructor; [|constructor].
    rewrite Forall_forall in H. exact (H x (last_item_In _ _ E)).
  - constructor.
Qed.

Lemma acc_ok_close (sep : pystr) (st : acc) (cur : list pystr) (n : Z) :
  acc_ok st -> current_chunk st <> [] -> Forall unit_ok cur ->
  acc_ok (Acc (chunks st ++ [join sep (current_chunk st)]) cur n).
Proof.
  intros [Hc Hu] Hne Hcur. split; [|exact Hcur].
  simpl. apply Forall_app. split; [exact Hc|].
  constructor; [|constructor]. apply join_ok; assumption.
Qed.

Lemma acc_ok_append (st : acc) (u : pystr) (n : Z) :
  acc_ok st -> unit_ok u -> acc_ok (Acc (chunks st) (current_chunk st ++ [u]) n).
Proof.
  intros [Hc Hu] Hx. split; [exact Hc|].
  simpl. apply Forall_app. split; [exact Hu|]. constructor; [exact Hx|constructor].
Qed.

Lemma sentence_step_ok (st : acc) (s : pystr) :
  acc_ok st -> acc_ok (sentence_step self st s).
Proof.
  intros H. unfold sentence_step.
  destruct (truthy (strip s)) eqn:Es; cbn [negb]; [|exact H].
  apply truthy_true_iff in Es.
  destruct (current_length st + len (strip s) >? max_chars self); cbn [andb].
  - destruct (truthy (current_chunk st)) eqn:Ec.
    + apply truthy_true_iff in Ec.
      apply (acc_ok_append (Acc _ _ _)); [|apply unit_ok_strip, Es].
      apply acc_ok_close; [exact H | exact Ec | apply keep_last_ok, H].
    + apply acc_ok_append; [exact H | apply unit_ok_strip, Es].
  - apply acc_ok_append; [exact H | apply unit_ok_strip, Es].
Qed.

Lemma fold_ok (step : acc -> pystr -> acc) :
  (forall st s, acc_ok st -> acc_ok (step st s)) ->
  forall l st, acc_ok st -> acc_ok (fold_left step l st).
Proof.
  intros Hstep l. induction l as [|s l IH]; intros st H; simpl.
  - exact H.
  - apply IH, Hstep, H.
Qed.

Lemma closed_ok (sep : pystr) (st : acc) :
  acc_ok st -> Forall unit_ok (closed sep st).
Proof.
  intros H. unfold closed. destruct (truthy (current_chunk st)) eqn:E.
  - apply truthy_true_iff in E.
    apply (acc_ok_close sep st [] 0 H E). constructor.
  - apply H.
Qed.

Lemma acc_ok_start : acc_ok (Acc [] [] 0).
Proof. split; constructor. Qed.

Lemma split_long_paragraph_ok (paragraph : pystr) :
  Forall unit_ok (_split_long_paragraph self paragraph).
Proof.
  rewrite split_long_paragraph_closed. apply closed_ok.
  apply fold_ok; [apply sentence_step_ok | apply acc_ok_start].
Qed.

Lemma paragraph_step_ok (st : acc) (para : pystr) :
  acc_ok st -> acc_ok (paragraph_step self st para).
Proof.
  intros H. unfold paragraph_step.
  destruct (truthy (strip para)) eqn:Es; cbn [negb]; [|exact H].
  apply truthy_true_iff in Es.
  destruct (len (strip para) >? max_chars self).
  - destruct (truthy (current_chunk st)) eqn:Ec.
    + apply truthy_true_iff in Ec.
      destruct (acc_ok_close (py "\n\n") st [] 0 H Ec (Forall_nil _)) as [Hc _].
      split; [|constructor]. cbn [chunks] in *.
      apply Forall_app. split; [exact Hc | apply split_long_paragraph_ok].
    + destruct H as [Hc Hu]. split; [|exact Hu]. cbn [chunks].
      apply Forall_app. split; [exact Hc | apply split_long_paragraph_ok].
  - destruct (current_length st + len (strip para) >? max_chars self); cbn [andb].
    + destruct (truthy (current_chunk st)) eqn:Ec.
      * apply truthy_true_iff in Ec.
        apply (acc_ok_append (Acc _ _ _)); [|apply unit_ok_strip, Es].
        apply acc_ok_close; [exact H | exact Ec | apply keep_last_ok, H].
      * apply acc_ok_append; [exact H | apply unit_ok_strip, Es].
    + apply acc_ok_append; [exact H | apply unit_ok_strip, Es].
Qed.

(** X3.  Every chunk that the paragraph loop returns is not empty and has no
    white space at either end. *)
Theorem chunk_by_paragraphs_chunks_ok :
  forall (text c : pystr),
    In c (chunk_by_paragraphs self text) -> c <> [] /\ strip c = c.
Proof.
  intros text c Hc.
  assert (H : Forall unit_ok (chunk_by_paragraphs self text)).
  { rewrite chunk_by_paragraphs_closed. apply closed_ok.
    apply fold_ok; [apply paragraph_step_ok | apply acc_ok_start]. }
  rewrite Forall_forall in H. exact (H c Hc).
Qed.

(** X4.  A text that is not blank gives at least one chunk. *)
Theorem chunk_text_not_empty :
  forall text : pystr, strip text <> [] -> chunk_text self text <> [].
Proof.
  intros text Hs. unfold chunk_text.
  destruct (estimate_tokens self text <=? max_tokens self); [discriminate|].
  destruct (split_not_blank (py "\n\n") text eq_refl Hs) as [para [Hin Hpara]].
  assert (Hsome : exists c, In c (chunk_by_paragraphs self text)).
  { destruct (Z.le_gt_cases (len (strip para)) (max_chars self)) as [Hle | Hgt].
    - destruct (paragraph_kept self text para Hin Hpara Hle) as [c [Hc _]].
      exists c. exact Hc.
    - destruct (unit_ok_first _ (unit_ok_strip para Hpara)) as [c0 [rest [E Hc0]]].
      destruct (split_loop_head false sentence_break rest [c0] 0 [c0])
        as [x [tl Ehead]].
      assert (Hpiece : In (c0 :: x) (re_split false sentence_break (strip para))).
      { rewrite E. unfold re_split. cbn [split_loop].
        change (match_here false sentence_break [] (c0 :: rest)) with (@None mstate).
        rewrite Ehead. left. reflexivity. }
      assert (Hnb : strip (c0 :: x) <> []).
      { intros Hnil. apply strip_nil_iff in Hnil. simpl in Hnil.
        rewrite Hc0 in Hnil. discriminate. }
      destruct (sentence_kept self (strip para) (c0 :: x) Hpiece Hnb) as [c [Hc _]].
      exists c. exact (long_paragraph_chunks self text para c Hin Hgt Hc). }
  destruct Hsome as [c Hc]. intros E. rewrite E in Hc. destruct Hc.
Qed.

Lemma paragraph_step_blank (st : acc) (para : pystr) :
  strip para = [] -> paragraph_step self st para = st.
Proof. intros H. unfold paragraph_step. rewrite H. reflexivity. Qed.

Lemma chunk_by_paragraphs_blank (text : pystr) :
  strip text = [] -> chunk_by_paragraphs self text = [].
Proof.
  intros Hs. rewrite chunk_by_paragraphs_closed.
  assert (Hfold : forall l st,
             (forall p, In p l -> strip p = []) ->
             fold_left (paragraph_step self) l st = st).
  { induction l as [|p l IH]; intros st Hl; simpl.
    - reflexivity.
    - rewrite paragraph_step_blank by (apply Hl; left; reflexivity).
      apply IH. intros q Hq. apply Hl. right. exact Hq. }
  rewrite Hfold; [reflexivity|].
  intros p Hp. exact (split_blank _ _ _ Hs Hp).
Qed.

(** X5.  A blank text over the limit gives no chunk at all. *)
Theorem chunk_text_blank :
  forall text : pystr,
    strip text = [] ->
    max_tokens self < estimate_tokens self text ->
    chunk_text self text = [].
Proof.
  intros text Hs Hover. unfold chunk_text.
  assert (E : (estimate_tokens self text <=? max_tokens self) = false)
    by (apply Z.leb_gt; exact Hover).
  rewrite E. exact (chunk_by_paragraphs_blank text Hs).
Qed.

End Shape.

Lemma chunk_text_not_empty_witness :
  chunk_text (TextChunker_init 1 200) (py "  \n\nAlpha beta.  \n\n Gamma.") <> [].
Proof.
  apply (chunk_text_not_empty (TextChunker_init 1 200)
           (py "  \n\nAlpha beta.  \n\n Gamma.")).
  vm_compute. discriminate.
Defined.

Lemma chunk_text_blank_witness :
  chunk_text (TextChunker_init 1 200) (py " \n\n \n \t  ") = [].
Proof.
  apply (chunk_text_blank (TextChunker_init 1 200) (py " \n\n \n \t  ")).
  - vm_compute. reflexivity.
  - vm_compute. reflexivity.
Defined.

Lemma chunk_by_paragraphs_chunks_ok_witness :
  py "Alpha beta." <> [] /\ strip (py "Alpha beta.") = py "Alpha beta.".
Proof.
  apply (chunk_by_paragraphs_chunks_ok (TextChunker_init 1 200)
           (py "  \n\nAlpha beta.  \n\n Gamma.")).
  vm_compute. left. reflexivity.
Defined.

(** ** The chunker: the overlap *)

Section Overlap.

Local Open Scope Z_scope.

Variable self : TextChunker.

Lemma last_item_snoc {A} (l : list A) (y : A) : last_item (l ++ [y]) = Some y.
Proof.
  induction l as [|x l IH]; simpl.
  - reflexivity.
  - destruct (l ++ [y]) eqn:E; [destruct l; discriminate | exact IH].
Qed.

Lemma last_item_some {A} (l : list A) : l <> [] -> exists x, last_item l = Some x.
Proof.
  induction l as [|y l IH]; intros H; [congruence|].
  destruct l as [|z l'].
  - exists y. reflexivity.
  - destruct IH as [x Hx]; [discriminate|]. exists x. exact Hx.
Qed.

Lemma chain_snoc {A} (R : A -> A -> Prop) (l : list A) (y : A) :
  chain R l -> (forall c, last_item l = Some c -> R c y) -> chain R (l ++ [y]).
Proof.
  induction 1 as [|x|x z l Hxz Hl IH]; intros Hlast; simpl.
  - constructor.
  - constructor; [apply Hlast; reflexivity | constructor].
  - constructor; [exact Hxz|]. apply IH. intros c Hc. apply Hlast. exact Hc.
Qed.

Lemma chain_nth {A} (R : A -> A -> Prop) (l : list A) :
  chain R l ->
  forall i a b, nth_error l i = Some a -> nth_error l (S i) = Some b -> R a b.
Proof.
  induction 1 as [|x|x z l Hxz Hl IH]; intros i a b Ha Hb.
  - destruct i; discriminate.
  - destruct i as [|[|i]]; discriminate.
  - destruct i as [|i].
    + simpl in Ha, Hb. injection Ha as <-. injection Hb as <-. exact Hxz.
    + exact (IH i a b Ha Hb).
Qed.

Lemma startswith_join (sep p : pystr) (rest : list pystr) :
  startswith (join sep (p :: rest)) p = true.
Proof.
  destruct rest as [|y rest'].
  - simpl. rewrite <- (app_nil_r p) at 1. apply startswith_app.
  - rewrite join_cons by discriminate. apply startswith_app.
Qed.

Lemma join_last (sep l : pystr) (parts : list pystr) :
  last_item parts = Some l -> exists x, join sep parts = x ++ l.
Proof.
  induction parts as [|y parts IH]; [discriminate|].
  destruct parts as [|z parts'].
  - intros H. injection H as ->. exists []. reflexivity.
  - intros H. destruct (IH H) as [x Hx].
    exists (y ++ sep ++ x). rewrite join_cons by discriminate.
    rewrite Hx, <- !app_assoc. reflexivity.
Qed.

Lemma endswith_join (sep l : pystr) (parts : list pystr) :
  last_item parts = Some l -> endswith (join sep parts) l = true.
Proof.
  intros H. destruct (join_last sep l parts H) as [x ->].
  unfold endswith. rewrite rev_app_distr. apply startswith_app.
Qed.

Variable units : list pystr.

Lemma overlapping_start : overlapping units (Acc [] [] 0).
Proof.
  split; [constructor|]. split; [constructor|].
  intros H. exfalso. apply H. reflexivity.
Qed.

(** Closing the chunk being built links it to the last closed chunk. *)
Lemma overlapping_chain_close (sep : pystr) (st : acc) :
  overlapping units st -> current_chunk st <> [] ->
  chain (shares units) (chunks st ++ [join sep (current_chunk st)]).
Proof.
  intros [Hchain [Hunits Hlink]] Hne.
  apply chain_snoc; [exact Hchain|].
  intros c Hc.
  destruct Hlink as [p [rest [c' [Ecur [Elast Hend]]]]].
  { intros E. rewrite E in Hc. discriminate. }
  assert (c' = c) as -> by congruence.
  exists p. repeat split.
  - rewrite Forall_forall in Hunits. apply Hunits. rewrite Ecur. left. reflexivity.
  - exact Hend.
  - rewrite Ecur. apply startswith_join.
Qed.

Lemma overlapping_step (st : acc) (para : pystr) :
  overlapping units st ->
  (strip para <> [] -> In (strip para) units) ->
  (len (strip para) <=? max_chars self) = true ->
  overlapping units (paragraph_step self st para).
Proof.
  intros H Hin Hlen. unfold paragraph_step.
  destruct (truthy (strip para)) eqn:Es; cbn [negb]; [|exact H].
  apply truthy_true_iff in Es. specialize (Hin Es).
  assert (E : (len (strip para) >? max_chars self) = false).
  { rewrite Z.gtb_ltb. apply Z.ltb_ge. apply Z.leb_le. exact Hlen. }
  rewrite E.
  assert (Hkeep : overlapping units
                    (Acc (chunks st) (current_chunk st ++ [strip para])
                         (current_length st + len (strip para)))).
  { destruct H as [Hchain [Hunits Hlink]]. repeat split.
    - exact Hchain.
    - cbn [current_chunk]. apply Forall_app. split; [exact Hunits|].
      constructor; [exact Hin | constructor].
    - cbn [chunks current_chunk]. intros Hne.
      destruct (Hlink Hne) as [p [rest [c [Ecur [Elast Hend]]]]].
      exists p, (rest ++ [strip para]), c. rewrite Ecur. repeat split; assumption. }
  destruct (current_length st + len (strip para) >? max_chars self);
    cbn [andb]; [|exact Hkeep].
  destruct (truthy (current_chunk st)) eqn:Ec; [|exact Hkeep].
  apply truthy_true_iff in Ec.
  destruct (last_item_some _ Ec) as [l El].
  pose proof (overlapping_chain_close (py "\n\n") st H Ec) as Hchain'.
  destruct H as [_ [Hunits _]].
  unfold keep_last. rewrite El. cbn [first_len chunks current_chunk app].
  repeat split.
  - exact Hchain'.
  - cbn [current_chunk]. rewrite Forall_forall in Hunits.
    constructor; [apply Hunits, (last_item_In _ _ El)|].
    constructor; [exact Hin | constructor].
  - cbn [chunks current_chunk]. intros _.
    exists l, [strip para], (join (py "\n\n") (current_chunk st)).
    repeat split.
    + apply last_item_snoc.
    + apply endswith_join. exact El.
Qed.

Lemma overlapping_fold (l : list pystr) (st : acc) :
  overlapping units st ->
  (forall para, In para l ->
     (strip para <> [] -> In (strip para) units)
     /\ (len (strip para) <=? max_chars self) = true) ->
  overlapping units (fold_left (paragraph_step self) l st).
Proof.
  revert st. induction l as [|p l IH]; intros st H Hl; simpl.
  - exact H.
  - apply IH.
    + destruct (Hl p (or_introl eq_refl)) as [H1 H2].
      apply overlapping_step; assumption.
    + intros q Hq. apply Hl. right. exact Hq.
Qed.

Lemma overlapping_sentence_step (st : acc) (sentence : pystr) :
  overlapping units st ->
  (strip sentence <> [] -> In (strip sentence) units) ->
  overlapping units (sentence_step self st sentence).
Proof.
  intros H Hin. unfold sentence_step.
  destruct (truthy (strip sentence)) eqn:Es; cbn [negb]; [|exact H].
  apply truthy_true_iff in Es. specialize (Hin Es).
  assert (Hkeep : overlapping units
                    (Acc (chunks st) (current_chunk st ++ [strip sentence])
                         (current_length st + len (strip sentence)))).
  { destruct H as [Hchain [Hunits Hlink]]. repeat split.
    - exact Hchain.
    - cbn [current_chunk]. apply Forall_app. split; [exact Hunits|].
      constructor; [exact Hin | constructor].
    - cbn [chunks current_chunk]. intros Hne.
      destruct (Hlink Hne) as [p [rest [c [Ecur [Elast Hend]]]]].
      exists p, (rest ++ [strip sentence]), c. rewrite Ecur.
      repeat split; assumption. }
  destruct (current_length st + len (strip sentence) >? max_chars self);
    cbn [andb]; [|exact Hkeep].
  destruct (truthy (current_chunk st)) eqn:Ec; [|exact Hkeep].
  apply truthy_true_iff in Ec.
  destruct (last_item_some _ Ec) as [l El].
  pose proof (overlapping_chain_close (py " ") st H Ec) as Hchain'.
  destruct H as [_ [Hunits _]].
  unfold keep_last. rewrite El. cbn [first_len chunks current_chunk app].
  repeat split.
  - exact Hchain'.
  - cbn [current_chunk]. rewrite Forall_forall in Hunits.
    constructor; [apply Hunits, (last_item_In _ _ El)|].
    constructor; [exact Hin | constructor].
  - cbn [chunks current_chunk]. intros _.
    exists l, [strip sentence], (join (py " ") (current_chunk st)).
    repeat split.
    + apply last_item_snoc.
    + apply endswith_join. exact El.
Qed.

Lemma overlapping_sentence_fold (l : list pystr) (st : acc) :
  overlapping units st ->
  (forall sentence, In sentence l ->
     strip sentence <> [] -> In (strip sentence) units) ->
  overlapping units (fold_left (sentence_step self) l st).
Proof.
  revert st. induction l as [|s l IH]; intros st H Hl; simpl.
  - exact H.
  - apply IH.
    + apply overlapping_sentence_step; [exact H | exact (Hl s (or_introl eq_refl))].
    + intros q Hq. apply Hl. right. exact Hq.
Qed.

End Overlap.

Lemma paragraphs_of_In (text para : pystr) :
  In para (split (py "\n\n") text) -> strip para <> [] ->
  In (strip para) (paragraphs_of text).
Proof.
  intros Hin Hs. unfold paragraphs_of. apply filter_In. split.
  - apply in_map. exact Hin.
  - apply truthy_true_iff. exact Hs.
Qed.

(** X6.  While no paragraph is over the limit, every chunk after the first
    starts with the paragraph that ends the chunk before it: the overlap
    is the last paragraph of the preceding chunk. *)
Theorem paragraph_chunks_overlap :
  forall (self : TextChunker) (text : pystr) (i : nat) (c1 c2 : pystr),
    all_within self text = true ->
    nth_error (chunk_by_paragraphs self text) i = Some c1 ->
    nth_error (chunk_by_paragraphs self text) (S i) = Some c2 ->
    exists p, In p (paragraphs_of text)
              /\ endswith c1 p = true /\ startswith c2 p = true.
Proof.
  intros self text i c1 c2 Hall H1 H2.
  assert (Hchain : chain (shares (paragraphs_of text)) (chunk_by_paragraphs self text)).
  { rewrite chunk_by_paragraphs_closed.
    assert (Hinv : overlapping (paragraphs_of text)
                     (fold_left (paragraph_step self) (split (py "\n\n") text)
                                (Acc [] [] 0%Z))).
    { apply overlapping_fold; [apply overlapping_start|].
      intros para Hin. split.
      - apply paragraphs_of_In. exact Hin.
      - unfold all_within in Hall. rewrite forallb_forall in Hall.
        exact (Hall para Hin). }
    unfold closed. destruct (truthy (current_chunk _)) eqn:Ec.
    - apply truthy_true_iff in Ec. apply overlapping_chain_close; assumption.
    - apply Hinv. }
  exact (chain_nth _ _ Hchain i c1 c2 H1 H2).
Qed.

Lemma paragraph_chunks_overlap_witness :
  exists p,
    In p (paragraphs_of (py "Alpha one.\n\nBeta two.\n\nGamma three.\n\nDelta."))
    /\ endswith (py "Alpha one.\n\nBeta two.") p = true
    /\ startswith (py "Beta two.\n\nGamma three.") p = true.
Proof.
  apply (paragraph_chunks_overlap (TextChunker_init 6 200)
           (py "Alpha one.\n\nBeta two.\n\nGamma three.\n\nDelta.") 0).
  - vm_compute. reflexivity.
  - vm_compute. reflexivity.
  - vm_compute. reflexivity.
Defined.

(** X7.  The chunks made from a long paragraph overlap in the same way: every
    chunk after the first starts with the sentence that ends the chunk
    before it, at any length of the sentences. *)
Theorem sentence_chunks_overlap :
  forall (self : TextChunker) (paragraph : pystr) (i : nat) (c1 c2 : pystr),
    nth_error (_split_long_paragraph self paragraph) i = Some c1 ->
    nth_error (_split_long_paragraph self paragraph) (S i) = Some c2 ->
    exists s, In s (filter truthy
                      (map strip (re_split false sentence_break paragraph)))
              /\ endswith c1 s = true /\ startswith c2 s = true.
Proof.
  intros self paragraph i c1 c2 H1 H2.
  set (units := filter truthy (map strip (re_split false sentence_break paragraph))).
  assert (Hchain : chain (shares units) (_split_long_paragraph self paragraph)).
  { rewrite split_long_paragraph_closed.
    assert (Hinv : overlapping units
                     (fold_left (sentence_step self)
                                (re_split false sentence_break paragraph)
                                (Acc [] [] 0%Z))).
    { apply overlapping_sentence_fold; [apply overlapping_start|].
      intros sentence Hin Hs. apply filter_In. split.
      - apply in_map. exact Hin.
      - apply truthy_true_iff. exact Hs. }
    unfold closed. destruct (truthy (current_chunk _)) eqn:Ec.
    - apply truthy_true_iff in Ec. apply overlapping_chain_close; assumption.
    - apply Hinv. }
  exact (chain_nth _ _ Hchain i c1 c2 H1 H2).
Qed.

Lemma sentence_chunks_overlap_witness :
  exists s,
    In s (filter truthy
            (map strip (re_split false sentence_break
                          (py "One two three. Four five six! Seven eight?  Nine."))))
    /\ endswith (py "One two three. Four five six!") s = true
    /\ startswith (py "Four five six! Seven eight?") s = true.
Proof.
  apply (sentence_chunks_overlap (TextChunker_init 7 200)
           (py "One two three. Four five six! Seven eight?  Nine.") 0).
  - vm_compute. reflexivity.
  - vm_compute. reflexivity.
Defined.

(** ** The cleaner: what each stage keeps *)

Section Stages.

(** X10.  The reference stage only cuts: its result is an initial part of the
    text. *)
Theorem references_is_prefix :
  forall text : pystr,
    exists rest, text = _remove_references_section text ++ rest.
Proof.
  intros text. unfold _remove_references_section.
  induction ref_patterns as [|pattern rest IH]; simpl.
  - exists []. rewrite app_nil_r. reflexivity.
  - destruct (re_search true pattern text) as [[start st']|].
    + exists (skipn start text). symmetry. apply firstn_skipn.
    + exact IH.
Qed.

Lemma headers_lines (text : pystr) :
  _remove_common_headers_footers text
  = join (py "\n") (filter keeps_line (split (py "\n") text)).
Proof. reflexivity. Qed.

Lemma kept_lines_free (text : pystr) :
  Forall (fun l => contains (py "\n") l = false)
         (filter keeps_line (split (py "\n") text)).
Proof.
  apply Forall_forall. intros l Hl. apply filter_In in Hl as [Hl _].
  exact (split_lines_free _ _ Hl).
Qed.

(** The result splits into the lines that were joined. *)
Lemma headers_footers_split :
  forall text : pystr,
    _remove_common_headers_footers text <> [] ->
    split (py "\n") (_remove_common_headers_footers text)
    = filter keeps_line (split (py "\n") text).
Proof.
  intros text Hne. rewrite headers_lines in *.
  apply split_join_lines; [|apply kept_lines_free].
  intros E. rewrite E in Hne. apply Hne. reflexivity.
Qed.

(** A line is kept when it is not blank and no skip pattern matches at
    the start of the trimmed line. *)
Lemma keeps_line_iff (line : pystr) :
  keeps_line line = true
  <-> strip line <> []
      /\ forall p q, In p skip_patterns -> ~ Match true p ([], strip line) q.
Proof.
  unfold keeps_line, any. destruct (strip line) as [|c s] eqn:E.
  - cbn [truthy negb]. split; [discriminate | intros [H _]; congruence].
  - cbn [truthy negb]. rewrite negb_true_iff. split.
    + intros H. split; [discriminate|]. intros p q Hp HM.
      assert (Hsome : is_some (re_match true p (c :: s)) = true).
      { unfold re_match.
        destruct (match_here true p [] (c :: s)) eqn:Em; [reflexivity|].
        exfalso. assert (Hne : exists q', Match true p ([], c :: s) q') by (exists q; exact HM).
        apply (match_here_iff true) in Hne. congruence. }
      assert (Hex : existsb (fun pattern => is_some (re_match true pattern (c :: s)))
                            skip_patterns = true).
      { apply existsb_exists. exists p. split; assumption. }
      congruence.
    + intros [_ H]. destruct (existsb _ skip_patterns) eqn:Ex; [|reflexivity].
      exfalso. apply existsb_exists in Ex as [p [Hp Hs]].
      unfold re_match in Hs.
      destruct (match_here true p [] (c :: s)) eqn:Em; [|discriminate].
      assert (Hne : match_here true p [] (c :: s) <> None) by congruence.
      apply (match_here_iff true) in Hne as [q HM]. exact (H p q Hp HM).
Qed.

(** A line of decimal digits matches the second skip pattern. *)
Lemma page_number_matches (d : ascii) (ds : pystr) :
  forallb Char.isdecimal (d :: ds) = true ->
  Match true (Cat [Bol; Plus c_digit; Star c_space; Eol]) ([], d :: ds)
        (rev ds ++ [d], []).
Proof.
  intros H. cbn [forallb] in H. apply andb_prop in H as [Hd Hds].
  cbn [Cat]. apply (M_Seq true _ _ _ ([], d :: ds)); [constructor|].
  apply (M_Seq true _ _ _ (rev ds ++ [d], [])).
  - unfold Plus. apply (M_Seq true _ _ _ ([d], ds)).
    + constructor. exact Hd.
    + pose proof (Match_star_chr true CDigit ds [d] [] Hds) as HM.
      rewrite app_nil_r in HM. exact HM.
  - apply (M_Seq true _ _ _ (rev ds ++ [d], [])); constructor. reflexivity.
Qed.

(** X11.  The lines of the result of the header and footer stage, when the
    result is not empty, are the lines of the text that are not blank
    and do not start, once trimmed, with a stretch that matches one of
    the skip patterns.  So no line of the result is a page number, that
    is decimal digits alone. *)
Theorem headers_footers_kept :
  forall (text line : pystr),
    _remove_common_headers_footers text <> [] ->
    (In line (split (py "\n") (_remove_common_headers_footers text))
     <-> In line (split (py "\n") text)
         /\ strip line <> []
         /\ forall p q, In p skip_patterns -> ~ Match true p ([], strip line) q)
    /\ (In line (split (py "\n") (_remove_common_headers_footers text)) ->
        forallb Char.isdecimal (strip line) = false).
Proof.
  intros text line Hne.
  assert (Hiff : In line (split (py "\n") (_remove_common_headers_footers text))
                 <-> In line (split (py "\n") text)
                     /\ strip line <> []
                     /\ forall p q, In p skip_patterns
                                    -> ~ Match true p ([], strip line) q).
  { rewrite (headers_footers_split text Hne), filter_In, keeps_line_iff.
    reflexivity. }
  split; [exact Hiff|].
  intros Hin. apply Hiff in Hin as [_ [Hs Hno]].
  destruct (strip line) as [|d ds]; [congruence|].
  destruct (forallb Char.isdecimal (d :: ds)) eqn:E; [|reflexivity].
  exfalso.
  apply (Hno (Cat [Bol; Plus c_digit; Star c_space; Eol]) (rev ds ++ [d], []));
    [right; left; reflexivity|].
  apply page_number_matches. exact E.
Qed.

(** X12.  The header and footer stage is idempotent. *)
Theorem headers_footers_idempotent :
  forall text : pystr,
    _remove_common_headers_footers (_remove_common_headers_footers text)
    = _remove_common_headers_footers text.
Proof.
  intros text.
  destruct (filter keeps_line (split (py "\n") text)) as [|l ls] eqn:E.
  - rewrite (headers_lines text), E. reflexivity.
  - rewrite (headers_lines (_remove_common_headers_footers text)).
    rewrite (headers_lines text), E.
    rewrite split_join_lines.
    + rewrite <- E, filter_idem. reflexivity.
    + discriminate.
    + rewrite <- E. apply kept_lines_free.
Qed.

(** *** The main sections *)

Lemma section_lines_before (pre rest : list pystr) :
  forallb (fun l => negb (is_header l)) pre = true ->
  section_lines false (pre ++ rest) = section_lines false rest.
Proof.
  induction pre as [|l pre IH]; intros H.
  - reflexivity.
  - cbn [forallb] in H. apply andb_prop in H as [Hl Hpre].
    apply negb_true_iff in Hl. unfold is_header in Hl.
    cbn [app section_lines]. rewrite Hl.
    exact (IH Hpre).
Qed.

Lemma section_lines_header (b : bool) (h : pystr) (rest : list pystr) :
  is_header h = true -> section_lines b (h :: rest) = h :: section_lines true rest.
Proof.
  intros H. cbn [section_lines]. unfold is_header in H. rewrite H. reflexivity.
Qed.

Lemma section_lines_inside (mid rest : list pystr) :
  forallb (fun l => negb (ends_sections l)) mid = true ->
  section_lines true (mid ++ rest) = mid ++ section_lines true rest.
Proof.
  induction mid as [|l mid IH]; intros H.
  - reflexivity.
  - cbn [forallb] in H. apply andb_prop in H as [Hl Hmid].
    apply negb_true_iff in Hl. unfold ends_sections, is_header in Hl.
    cbn [app section_lines].
    destruct (any (fun section => contains section (strip (lower l))) main_sections).
    + rewrite (IH Hmid). reflexivity.
    + cbn [negb andb] in Hl. rewrite Hl, (IH Hmid). reflexivity.
Qed.

Lemma section_lines_end (stop : pystr) (rest : list pystr) :
  ends_sections stop = true -> section_lines true (stop :: rest) = [].
Proof.
  intros H. unfold ends_sections, is_header in H. cbn [section_lines].
  destruct (any (fun section => contains section (strip (lower stop))) main_sections).
  - discriminate.
  - cbn [negb andb] in H. rewrite H. reflexivity.
Qed.

(** X13.  Without a section header the text is left as it is. *)
Theorem main_sections_fail_open :
  forall text : pystr,
    forallb (fun l => negb (is_header l)) (split (py "\n") text) = true ->
    _extract_main_sections text = text.
Proof.
  intros text H. unfold _extract_main_sections.
  rewrite <- (app_nil_r (split (py "\n") text)).
  rewrite (section_lines_before _ [] H). reflexivity.
Qed.

(** X14.  The main sections are a window of the lines: from the first section
    header up to the first later line that ends the sections.  What is
    above the header and what is from the ending line on is dropped. *)
Theorem main_sections_window :
  forall (pre mid rest : list pystr) (h stop : pystr),
    forallb one_line (pre ++ h :: mid ++ stop :: rest) = true ->
    forallb (fun l => negb (is_header l)) pre = true ->
    is_header h = true ->
    forallb (fun l => negb (ends_sections l)) mid = true ->
    ends_sections stop = true ->
    _extract_main_sections (join (py "\n") (pre ++ h :: mid ++ stop :: rest))
    = join (py "\n") (h :: mid).
Proof.
  intros pre mid rest h stop Hlines Hpre Hh Hmid Hstop.
  unfold _extract_main_sections.
  rewrite split_join_lines.
  - rewrite (section_lines_before _ _ Hpre), (section_lines_header _ _ _ Hh).
    rewrite (section_lines_inside _ _ Hmid), (section_lines_end _ _ Hstop).
    rewrite app_nil_r. reflexivity.
  - destruct pre; discriminate.
  - apply Forall_forall. intros l Hl.
    rewrite forallb_forall in Hlines. apply Hlines in Hl.
    unfold one_line in Hl. apply negb_true_iff in Hl. exact Hl.
Qed.

(** *** Authors and affiliations *)

Lemma title_index_below (lines : list pystr) (k i : nat) :
  title_index lines k = Some i -> i < k.
Proof.
  induction k as [|k IH]; cbn [title_index]; [discriminate|].
  destruct ((20 <? length (strip (nth k lines []))) && _).
  - intros H. injection H as <-. lia.
  - intros H. apply IH in H. lia.
Qed.

(** X15.  The author stage only drops lines from the top, and none from the
    first line with a content keyword on: its result is the lines of the
    text from some line on, which is that line or one above it.  With no
    such line, or with it the first line, the text is left as it is. *)
Theorem author_affiliations_drops_top :
  forall text : pystr,
    exists i,
      i <= content_start (split (py "\n") text) 0
      /\ _remove_author_affiliations text
         = join (py "\n") (skipn i (split (py "\n") text)).
Proof.
  intros text. unfold _remove_author_affiliations.
  assert (Hsame : exists i,
            i <= content_start (split (py "\n") text) 0
            /\ text = join (py "\n") (skipn i (split (py "\n") text))).
  { exists 0. split; [lia | symmetry; apply join_split]. }
  destruct (0 <? content_start (split (py "\n") text) 0); [|exact Hsame].
  destruct (title_index _ _) as [i|] eqn:E; [|exact Hsame].
  exists i. split; [|reflexivity].
  apply title_index_below in E. lia.
Qed.

(** *** The column loop *)

(** X16.  No line that the column loop keeps is shorter than three characters
    or has white space at an end. *)
Theorem column_lines_kept :
  forall (lines : list pystr) (line : pystr),
    In line (column_lines lines) -> 3 <= length line /\ strip line = line.
Proof.
  induction lines as [|l rest IH]; intros line Hin; simpl in Hin.
  - destruct Hin.
  - destruct (length (strip l) <? 3) eqn:E; [exact (IH line Hin)|].
    apply Nat.ltb_ge in E.
    assert (Hhere : line = strip l -> 3 <= length line /\ strip line = line).
    { intros ->. split; [exact E | apply strip_idem]. }
    destruct rest as [|next rest'].
    + destruct Hin as [<- | Hin]; [apply Hhere; reflexivity | exact (IH line Hin)].
    + destruct (truthy (strip l) && _ && _ && _).
      * exact (IH line Hin).
      * destruct Hin as [<- | Hin]; [apply Hhere; reflexivity | exact (IH line Hin)].
Qed.

End Stages.

Lemma main_sections_fail_open_witness :
  _extract_main_sections (py "Some plain text.\nNothing to see here.")
  = py "Some plain text.\nNothing to see here.".
Proof.
  apply (main_sections_fail_open (py "Some plain text.\nNothing to see here.")).
  vm_compute. reflexivity.
Defined.

Lemma main_sections_window_witness :
  _extract_main_sections
    (join (py "\n") ([py "A Title"; py "Some Author"] ++ py "1. Introduction"
                     :: [py "We begin."; py "2. Method and references"; py "We go on."]
                     ++ py "Acknowledgments" :: [py "Thanks."; py "Appendix"]))
  = join (py "\n") (py "1. Introduction"
                    :: [py "We begin."; py "2. Method and references"; py "We go on."]).
Proof.
  apply (main_sections_window [py "A Title"; py "Some Author"]
           [py "We begin."; py "2. Method and references"; py "We go on."]
           [py "Thanks."; py "Appendix"] (py "1. Introduction") (py "Acknowledgments"));
    vm_compute; reflexivity.
Defined.

Lemma headers_footers_kept_witness :
  (In (py "Real text.")
      (split (py "\n")
         (_remove_common_headers_footers (py "Page 3\nReal text.\n\n12\nMore text.")))
   <-> In (py "Real text.") (split (py "\n") (py "Page 3\nReal text.\n\n12\nMore text."))
       /\ strip (py "Real text.") <> []
       /\ forall p q, In p skip_patterns -> ~ Match true p ([], strip (py "Real text.")) q)
  /\ (In (py "Real text.")
         (split (py "\n")
            (_remove_common_headers_footers (py "Page 3\nReal text.\n\n12\nMore text."))) ->
      forallb Char.isdecimal (strip (py "Real text.")) = false).
Proof.
  apply (headers_footers_kept (py "Page 3\nReal text.\n\n12\nMore text.")
           (py "Real text.")).
  vm_compute. discriminate.
Defined.




Lemma column_lines_kept_witness :
  3 <= length (py "It ends here.")
  /\ strip (py "It ends here.") = py "It ends here.".
Proof.
  apply (column_lines_kept [py "ab"; py "  It ends here. "; py "next line"]).
  vm_compute. left. reflexivity.
Defined.

(** ** The size of the chunks *)

Section Bound.

Local Open Scope Z_scope.

Variable self : TextChunker.

Lemma len_app {A} (a b : list A) : len (a ++ b) = len a + len b.
Proof. unfold len. rewrite length_app. lia. Qed.

Lemma units_len_app (a b : list pystr) :
  units_len (a ++ b) = units_len a + units_len b.
Proof.
  induction a as [|x a IH]; simpl; [reflexivity|].
  fold (units_len (a ++ b)). fold (units_len a). rewrite IH. lia.
Qed.

Lemma len_join (sep : pystr) (l : list pystr) :
  l <> [] ->
  len (join sep l) = units_len l + len sep * (len l - 1).
Proof.
  induction l as [|x l IH]; intros H; [congruence|].
  destruct l as [|y l'].
  - cbn [join units_len fold_right]. unfold len at 4. simpl. lia.
  - rewrite join_cons by discriminate. rewrite !len_app, IH by discriminate.
    assert (Hl : len (x :: y :: l') = len (y :: l') + 1)
      by (unfold len; cbn [length]; lia).
    rewrite Hl. cbn [units_len fold_right]. lia.
Qed.

Lemma units_len_bounds (m : Z) (l : list pystr) :
  Forall (fun u => 1 <= len u <= m) l ->
  len l <= units_len l <= len l * m.
Proof.
  induction 1 as [|x l Hx Hl IH].
  - unfold len. simpl. lia.
  - cbn [units_len fold_right]. fold (units_len l).
    unfold len at 1 4. cbn [length]. fold (len l).
    unfold len in *. nia.
Qed.

(** A chunk of units within the limit is within three times the limit
    when the units fit the limit together or are two at most. *)
Lemma join_bound (l : list pystr) :
  l <> [] ->
  Forall (fun u => 1 <= len u <= max_chars self) l ->
  units_len l <= max_chars self \/ (length l <= 2)%nat ->
  len (join (py "\n\n") l) <= 3 * max_chars self + 2.
Proof.
  intros Hne Hl Hsize.
  rewrite (len_join _ _ Hne).
  pose proof (units_len_bounds _ _ Hl) as Hb.
  change (len (py "\n\n")) with 2.
  assert (Hpos : 1 <= len l).
  { destruct l; [congruence|]. unfold len. simpl. lia. }
  destruct Hsize as [Hs | Hk].
  - lia.
  - assert (Hk' : len l <= 2) by (unfold len; lia).
    assert (Hm : 1 <= max_chars self).
    { destruct l as [|u l']; [congruence|].
      inversion Hl as [|u' l'' Hu _]; subst. lia. }
    nia.
Qed.

Lemma sized_start : sized self (Acc [] [] 0).
Proof.
  unfold sized. cbn [chunks current_chunk current_length].
  split; [constructor|]. split; [constructor|]. split; [reflexivity|].
  right. simpl. lia.
Qed.

Lemma keep_last_sized (cur : list pystr) :
  Forall (fun u => 1 <= len u <= max_chars self) cur ->
  Forall (fun u => 1 <= len u <= max_chars self) (keep_last cur)
  /\ first_len (keep_last cur) = units_len (keep_last cur)
  /\ (length (keep_last cur) <= 1)%nat.
Proof.
  intros H. unfold keep_last. destruct (last_item cur) as [x|] eqn:E.
  - split; [|split].
    + constructor; [|constructor].
      rewrite Forall_forall in H. exact (H x (last_item_In _ _ E)).
    + simpl. lia.
    + simpl. lia.
  - split; [constructor|]. split; [reflexivity | simpl; lia].
Qed.

Lemma sized_step (st : acc) (para : pystr) :
  (len (strip para) <=? max_chars self) = true ->
  sized self st -> sized self (paragraph_step self st para).
Proof.
  intros Hfit [Hc [Hu [Hlen Hsize]]]. unfold paragraph_step.
  destruct (truthy (strip para)) eqn:Ep;
    [|split; [exact Hc | split; [exact Hu | split; [exact Hlen | exact Hsize]]]].
  cbn [negb].
  assert (Hpara : 1 <= len (strip para) <= max_chars self).
  { apply Z.leb_le in Hfit. split; [|exact Hfit].
    destruct (strip para); [discriminate|]. unfold len. simpl. lia. }
  replace (len (strip para) >? max_chars self) with false
    by (symmetry; rewrite Z.gtb_ltb; apply Z.ltb_ge; lia).
  destruct ((current_length st + len (strip para) >? max_chars self)
            && truthy (current_chunk st)) eqn:Eclose.
  - apply andb_prop in Eclose as [_ Ecur]. apply truthy_true_iff in Ecur.
    destruct (keep_last_sized _ Hu) as [Hk1 [Hk2 Hk3]].
    unfold sized. cbn [chunks current_chunk current_length].
    split; [|split; [|split]].
    + apply Forall_app. split; [exact Hc|].
      constructor; [|constructor].
      apply join_bound; [exact Ecur | exact Hu | rewrite <- Hlen; exact Hsize].
    + apply Forall_app. split; [exact Hk1 | constructor; [exact Hpara | constructor]].
    + rewrite units_len_app, Hk2. simpl. lia.
    + right. rewrite length_app. simpl. lia.
  - unfold sized. cbn [chunks current_chunk current_length].
    split; [exact Hc|]. split; [|split].
    + apply Forall_app. split; [exact Hu | constructor; [exact Hpara | constructor]].
    + rewrite units_len_app, Hlen. simpl. lia.
    + apply andb_false_iff in Eclose as [E | E].
      * left. rewrite Z.gtb_ltb in E. apply Z.ltb_ge in E. exact E.
      * apply truthy_false_iff in E. rewrite E in *. right. simpl. lia.
Qed.

Lemma sized_fold (l : list pystr) (st : acc) :
  forallb (fun para => len (strip para) <=? max_chars self) l = true ->
  sized self st -> sized self (fold_left (paragraph_step self) l st).
Proof.
  revert st. induction l as [|p l IH]; intros st Hl H; simpl.
  - exact H.
  - simpl in Hl. apply andb_prop in Hl as [Hp Hl].
    apply IH; [exact Hl | apply sized_step; assumption].
Qed.

(** X8.  While no paragraph is over the limit, no chunk is longer than three
    times the limit and two characters: the paragraphs of a chunk fit the
    limit together, except that the overlap is not counted against the
    first paragraph after it, and the separators are not counted at all. *)
Theorem chunk_by_paragraphs_bound :
  forall (text c : pystr),
    all_within self text = true ->
    In c (chunk_by_paragraphs self text) ->
    len c <= 3 * max_chars self + 2.
Proof.
  intros text c Hall Hin.
  rewrite chunk_by_paragraphs_closed in Hin.
  pose proof (sized_fold _ _ Hall sized_start) as [Hc [Hu [Hlen Hsize]]].
  unfold closed in Hin.
  rewrite Forall_forall in Hc.
  destruct (truthy (current_chunk _)) eqn:Ec.
  - apply in_app_or in Hin as [Hin | [<- | []]]; [exact (Hc c Hin)|].
    apply truthy_true_iff in Ec.
    apply join_bound; [exact Ec | exact Hu | rewrite <- Hlen; exact Hsize].
  - exact (Hc c Hin).
Qed.

End Bound.

Lemma chunk_by_paragraphs_bound_witness :
  (len (py "Beta two.\n\nGamma three.") <= 3 * max_chars (TextChunker_init 6 200) + 2)%Z.
Proof.
  apply (chunk_by_paragraphs_bound (TextChunker_init 6 200)
           (py "Alpha one.\n\nBeta two.\n\nGamma three.\n\nDelta.")).
  - vm_compute. reflexivity.
  - vm_compute. right. left. reflexivity.
Defined.

(** ** The chunk statistics *)

Section Info.

Local Open Scope Z_scope.

Variable self : TextChunker.

Lemma sum_ints_from (l : list Z) (a : Z) : fold_left Z.add l a = a + sum_ints l.
Proof.
  unfold sum_ints. revert a. induction l as [|x l IH]; intros a; simpl.
  - lia.
  - rewrite (IH (a + x)), (IH x). lia.
Qed.

Lemma sum_ints_cons (x : Z) (l : list Z) : sum_ints (x :: l) = x + sum_ints l.
Proof. unfold sum_ints at 1. simpl. apply sum_ints_from. Qed.

(** X9.  The total of [get_chunk_info] against the characters of the chunks:
    four characters make a token, and each estimate is rounded down, so
    four times the total is the number of characters less at most three
    for each chunk.  There is one size for each chunk. *)
Theorem chunk_info_total :
  forall chunks : list pystr,
    length (chunk_sizes (get_chunk_info self chunks)) = length chunks
    /\ 4 * total_tokens (get_chunk_info self chunks) <= len (concat chunks)
    /\ len (concat chunks)
       <= 4 * total_tokens (get_chunk_info self chunks)
          + 3 * num_chunks (get_chunk_info self chunks).
Proof.
  intros parts. cbn [get_chunk_info chunk_sizes total_tokens num_chunks].
  split; [apply length_map|].
  unfold estimate_tokens.
  induction parts as [|c parts IH].
  - split; vm_compute; discriminate.
  - cbn [map concat]. rewrite sum_ints_cons, len_app.
    assert (Hn : len (c :: parts) = len parts + 1)
      by (unfold len; cbn [length]; lia).
    rewrite Hn.
    pose proof (Z.div_mod (len c) 4 ltac:(lia)) as Hc.
    pose proof (Z.mod_pos_bound (len c) 4 ltac:(lia)) as Hc'.
    lia.
Qed.

End Info.

(** ** The response parser: what it returns *)

Section Extracted.

Lemma contains_free (sep a b : pystr) :
  contains a b = true -> contains sep b = false -> contains sep a = false.
Proof.
  intros Hab Hb. destruct (contains sep a) eqn:E; [|reflexivity].
  rewrite (contains_trans _ _ _ E Hab) in Hb. discriminate.
Qed.

Lemma strip_enumerator_piece (line q : pystr) :
  strip_enumerator line = Some q -> contains q line = true /\ strip q = q.
Proof.
  unfold strip_enumerator.
  destruct (last_item (split_max 1 (py ".") line)) as [a|] eqn:Ea; [|discriminate].
  cbn [bind].
  destruct (last_item (split_max 1 (py ")") a)) as [b|] eqn:Eb; [|discriminate].
  cbn [bind]. intros H. injection H as <-.
  split; [|apply strip_idem].
  apply last_item_In in Ea, Eb.
  apply split_max_piece in Ea, Eb.
  exact (contains_trans _ _ _ (contains_strip b) (contains_trans _ _ _ Eb Ea)).
Qed.

Lemma extract_questions_pieces (lines found : list pystr) :
  extract_questions lines = Some found ->
  forall q, In q found ->
    5 < length q /\ strip q = q
    /\ exists line, In line lines /\ contains q line = true.
Proof.
  revert found. induction lines as [|line rest IH]; intros found; cbn [extract_questions].
  - intros H. injection H as <-. intros q [].
  - assert (Hrest : forall found', extract_questions rest = Some found' ->
              forall q, In q found' ->
                5 < length q /\ strip q = q
                /\ exists l, In l (line :: rest) /\ contains q l = true).
    { intros found' H q Hq. destruct (IH found' H q Hq) as [H1 [H2 [l [Hl Hc]]]].
      split; [exact H1|]. split; [exact H2|]. exists l. split; [right; exact Hl | exact Hc]. }
    destruct (truthy (strip line) && _); [|exact (Hrest found)].
    destruct (strip_enumerator (strip line)) as [question|] eqn:Eq; [|discriminate].
    cbn [bind].
    destruct (extract_questions rest) as [found'|]; [|discriminate].
    cbn [bind].
    destruct (truthy question && (5 <? length question)) eqn:Ekeep.
    + intros H. injection H as <-. intros q [<- | Hq].
      * apply andb_prop in Ekeep as [_ Elen]. apply Nat.ltb_lt in Elen.
        destruct (strip_enumerator_piece _ _ Eq) as [Hc Hs].
        split; [exact Elen|]. split; [exact Hs|].
        exists line. split; [left; reflexivity|].
        exact (contains_trans _ _ _ Hc (contains_strip line)).
      * exact (Hrest found' eq_refl q Hq).
    + intros H. injection H as <-. exact (Hrest found' eq_refl).
Qed.

Lemma section_questions (section response : pystr) (found : list pystr) :
  contains section response = true ->
  extract_questions (split (py "\n") (strip section)) = Some found ->
  forall q, In q found ->
    5 < length q /\ strip q = q
    /\ contains (py "\n") q = false /\ contains q response = true.
Proof.
  intros Hsec Hfound q Hq.
  destruct (extract_questions_pieces _ _ Hfound q Hq) as [H1 [H2 [line [Hline Hc]]]].
  split; [exact H1|]. split; [exact H2|]. split.
  - exact (contains_free _ _ _ Hc (split_lines_free _ _ Hline)).
  - apply (contains_trans _ _ _ Hc).
    apply (contains_trans _ _ _ (split_max_piece _ _ _ _ Hline)).
    exact (contains_trans _ _ _ (contains_strip section) Hsec).
Qed.

(** X19.  Every question that the parser returns is a piece of the response
    text on one line, has no white space at an end and has more than five
    characters. *)
Theorem parse_response_questions :
  forall (response : pystr) (qs : questions) (q : pystr),
    parse_response response = Some qs ->
    In q (factual qs) \/ In q (conceptual qs) ->
    5 < length q /\ strip q = q
    /\ contains (py "\n") q = false /\ contains q response = true.
Proof.
  intros response qs q. unfold parse_response.
  assert (Hsec : forall fs cs,
            match split (py "CONCEPTUAL QUESTIONS:") response with
            | [a; b] => (a, b)
            | _ => (response, empty)
            end = (fs, cs) ->
            contains fs response = true /\ contains cs response = true).
  { intros fs cs E.
    assert (Hwhole : (response, empty) = (fs, cs) ->
              contains fs response = true /\ contains cs response = true).
    { intros H. injection H as <- <-.
      split; [apply contains_refl | apply contains_nil_pattern]. }
    pose proof (split_max_piece (length response) (py "CONCEPTUAL QUESTIONS:") response)
      as Hpiece.
    fold (split (py "CONCEPTUAL QUESTIONS:") response) in Hpiece.
    destruct (split (py "CONCEPTUAL QUESTIONS:") response) as [|a [|b [|c l]]];
      try exact (Hwhole E).
    injection E as <- <-. split; apply Hpiece; simpl; tauto. }
  destruct (match split (py "CONCEPTUAL QUESTIONS:") response with
            | [a; b] => (a, b)
            | _ => (response, empty)
            end) as [fs cs].
  destruct (Hsec fs cs eq_refl) as [Hfs Hcs].
  destruct (last_item (split (py "FACTUAL QUESTIONS:") fs)) as [part|] eqn:Epart;
    [|discriminate].
  cbn [bind].
  destruct (extract_questions (split (py "\n") (strip part))) as [f|] eqn:Ef;
    [|discriminate].
  cbn [bind].
  destruct (extract_questions (split (py "\n") (strip cs))) as [c|] eqn:Ec;
    [|discriminate].
  cbn [bind]. intros H. injection H as <-. cbn [factual conceptual].
  intros [Hq | Hq].
  - apply (section_questions part response f); [|exact Ef | exact Hq].
    apply last_item_In in Epart.
    exact (contains_trans _ _ _ (split_max_piece _ _ _ _ Epart) Hfs).
  - exact (section_questions cs response c Hcs Ec q Hq).
Qed.

End Extracted.

Lemma parse_response_questions_witness :
  5 < length (py "Why is there an overlap?")
  /\ strip (py "Why is there an overlap?") = py "Why is there an overlap?"
  /\ contains (py "\n") (py "Why is there an overlap?") = false
  /\ contains (py "Why is there an overlap?")
       (py "Sure!\nFACTUAL QUESTIONS:\n1) What is a chunk?\n\nCONCEPTUAL QUESTIONS:\n2) Why is there an overlap?  \n")
     = true.
Proof.
  apply (parse_response_questions
           (py "Sure!\nFACTUAL QUESTIONS:\n1) What is a chunk?\n\nCONCEPTUAL QUESTIONS:\n2) Why is there an overlap?  \n")
           (Questions [py "What is a chunk?"] [py "Why is there an overlap?"])).
  - vm_compute. reflexivity.
  - right. left. reflexivity.
Defined.

(** ** The question set: duplicates *)

Section Duplicates.

Lemma unique_from_subset (questions seen : list pystr) (q : pystr) :
  In q (unique_from seen questions) -> In q questions.
Proof.
  revert seen. induction questions as [|x rest IH]; intros seen; simpl.
  - tauto.
  - destruct (existsb (pystr_eqb (normalized x)) seen).
    + intros H. right. exact (IH _ H).
    + intros [H | H]; [left; exact H | right; exact (IH _ H)].
Qed.

Lemma unique_from_keys (questions seen : list pystr) (q : pystr) :
  In q questions ->
  In (normalized q) seen
  \/ In (normalized q) (map normalized (unique_from seen questions)).
Proof.
  revert seen. induction questions as [|x rest IH]; intros seen; simpl.
  - tauto.
  - intros [-> | Hq].
    + destruct (existsb (pystr_eqb (normalized q)) seen) eqn:E.
      * left. apply seen_spec. exact E.
      * right. left. reflexivity.
    + destruct (existsb (pystr_eqb (normalized x)) seen) eqn:E.
      * exact (IH seen Hq).
      * destruct (IH (normalized x :: seen) Hq) as [[H | H] | H].
        -- right. left. exact H.
        -- left. exact H.
        -- right. right. exact H.
Qed.

Lemma unique_from_fixed (questions seen : list pystr) :
  distinct_questions questions ->
  (forall q, In q questions -> ~ In (normalized q) seen) ->
  unique_from seen questions = questions.
Proof.
  unfold distinct_questions.
  revert seen. induction questions as [|x rest IH]; intros seen Hnd Hnew; simpl.
  - reflexivity.
  - simpl in Hnd. inversion Hnd as [|k ks Hx Hrest]; subst.
    destruct (existsb (pystr_eqb (normalized x)) seen) eqn:E.
    + exfalso. apply seen_spec in E. exact (Hnew x (or_introl eq_refl) E).
    + f_equal. apply IH; [exact Hrest|].
      intros q Hq [Heq | Hin].
      * apply Hx. rewrite Heq. apply in_map. exact Hq.
      * exact (Hnew q (or_intror Hq) Hin).
Qed.

(** X22.  The keys of the result of [_remove_duplicates] are the keys of its
    argument: no question is lost but for another with its key, and none
    is added. *)
Theorem remove_duplicates_keys :
  forall (questions : list pystr) (key : pystr),
    In key (map normalized (_remove_duplicates questions))
    <-> In key (map normalized questions).
Proof.
  intros questions key. unfold _remove_duplicates. split.
  - intros H. apply in_map_iff in H as [q [<- Hq]].
    apply in_map. exact (unique_from_subset _ _ _ Hq).
  - intros H. apply in_map_iff in H as [q [<- Hq]].
    destruct (unique_from_keys questions [] q Hq) as [[] | H]. exact H.
Qed.

Lemma remove_duplicates_fixed (questions : list pystr) :
  distinct_questions questions -> _remove_duplicates questions = questions.
Proof.
  intros H. apply unique_from_fixed; [exact H|]. intros q _ [].
Qed.

(** X23.  [_remove_duplicates] is idempotent: its result has no two questions
    of one key, and such a list is returned as it is. *)
Theorem remove_duplicates_idempotent :
  forall questions : list pystr,
    _remove_duplicates (_remove_duplicates questions)
    = _remove_duplicates questions.
Proof.
  intros questions. apply remove_duplicates_fixed, remove_duplicates_distinct.
Qed.

End Duplicates.

(** ** The multi-chunk path *)

Section Chunked.

Variable generate : pystr -> option pystr.

Lemma firstn_length_le' {A} (n : nat) (l : list A) : length (firstn n l) <= n.
Proof. rewrite length_firstn. lia. Qed.

(** X24.  What the multi-chunk path returns holds at most seven factual and
    three conceptual questions, no two of them with one key, whatever the
    client answers. *)
Theorem generate_from_chunks_bounds :
  forall (chunks : list pystr) (qs : questions),
    generate_from_chunks generate chunks = Some qs ->
    length (factual qs) <= 7 /\ length (conceptual qs) <= 3
    /\ distinct_questions (factual qs) /\ distinct_questions (conceptual qs).
Proof.
  intros parts qs. unfold generate_from_chunks.
  destruct (collect generate (len parts) 1 parts (Questions [] [])) as [all|];
    [|discriminate].
  cbn [bind]. intros H.
  assert (Hqs : qs = Questions (firstn 7 (_remove_duplicates (factual all)))
                               (firstn 3 (_remove_duplicates (conceptual all))))
    by congruence.
  rewrite Hqs. cbn [factual conceptual].
  split; [apply firstn_length_le'|]. split; [apply firstn_length_le'|].
  split; apply distinct_firstn, remove_duplicates_distinct.
Qed.

Lemma collect_fails (n : Z) (parts : list pystr) :
  forall (i : Z) (all : questions) (k : nat) (chunk : pystr),
    nth_error parts k = Some chunk ->
    generate (create_prompt chunk (Some (i + Z.of_nat k)%Z) (Some n)) = None ->
    collect generate n i parts all = None.
Proof.
  induction parts as [|c rest IH]; intros i all k chunk Hk Hfail.
  - destruct k; discriminate.
  - cbn [collect]. destruct k as [|k].
    + simpl in Hk. injection Hk as ->.
      replace (i + Z.of_nat 0)%Z with i in Hfail by lia.
      unfold generate_from_text. rewrite Hfail. reflexivity.
    + simpl in Hk.
      destruct (generate_from_text generate c (Some i) (Some n)) as [found|];
        [|reflexivity].
      cbn [bind]. apply (IH (i + 1)%Z _ k chunk Hk).
      replace (i + 1 + Z.of_nat k)%Z with (i + Z.of_nat (S k))%Z by lia.
      exact Hfail.
Qed.

(** X25.  When the client fails on the prompt of one chunk, the multi-chunk
    path fails as a whole: the questions found in the other chunks are
    not returned. *)
Theorem generate_from_chunks_fails :
  forall (chunks : list pystr) (k : nat) (chunk : pystr),
    nth_error chunks k = Some chunk ->
    generate (create_prompt chunk (Some (1 + Z.of_nat k)%Z) (Some (len chunks))) = None ->
    generate_from_chunks generate chunks = None.
Proof.
  intros parts k chunk Hk Hfail. unfold generate_from_chunks.
  rewrite (collect_fails _ _ _ _ _ _ Hk Hfail). reflexivity.
Qed.

(** X26.  A document of white space that is over the limit has no chunk: the
    client is not called and the question set is empty. *)
Theorem main_questions_blank :
  forall (limit : Z) (document_text : pystr),
    strip document_text = [] ->
    (limit < estimate_tokens (TextChunker_init limit 200) document_text)%Z ->
    main_questions generate limit document_text = Some (Questions [] []).
Proof.
  intros limit document_text Hblank Hover. unfold main_questions, chunk_text.
  assert (E : (estimate_tokens (TextChunker_init limit 200) document_text
               <=? max_tokens (TextChunker_init limit 200))%Z = false)
    by (apply Z.leb_gt; exact Hover).
  rewrite E, (chunk_by_paragraphs_blank _ _ Hblank). reflexivity.
Qed.

End Chunked.

Lemma generate_from_chunks_bounds_witness :
  length (factual (Questions [py "What is a chunk?"] [py "Why is there an overlap?"])) <= 7
  /\ length (conceptual (Questions [py "What is a chunk?"] [py "Why is there an overlap?"])) <= 3
  /\ distinct_questions
       (factual (Questions [py "What is a chunk?"] [py "Why is there an overlap?"]))
  /\ distinct_questions
       (conceptual (Questions [py "What is a chunk?"] [py "Why is there an overlap?"])).
Proof.
  apply (generate_from_chunks_bounds repeating_client
           [py "First chunk."; py "Second chunk."]).
  vm_compute. reflexivity.
Defined.

Lemma generate_from_chunks_fails_witness :
  generate_from_chunks
    (fun prompt => if contains (py "Second") prompt then None
                   else repeating_client prompt)
    [py "First chunk."; py "Second chunk."; py "Third chunk."]
  = None.
Proof.
  apply (generate_from_chunks_fails
           (fun prompt => if contains (py "Second") prompt then None
                          else repeating_client prompt)
           [py "First chunk."; py "Second chunk."; py "Third chunk."]
           1 (py "Second chunk.")).
  - reflexivity.
  - vm_compute. reflexivity.
Defined.

Lemma main_questions_blank_witness :
  main_questions (fun _ => None) 1 (py "  \n\n  \n \n\n ")
  = Some (Questions [] []).
Proof.
  apply (main_questions_blank (fun _ => None) 1 (py "  \n\n  \n \n\n ")).
  - vm_compute. reflexivity.
  - vm_compute. reflexivity.
Defined.

(** ** The cleaner: the general cleaning *)

Section Tabs.

(** A repetition of a character class from a state on always succeeds,
    and does not go back. *)
Lemma m_chr (c : cclass) (st : mstate) (k : mstate -> option mstate) :
  m false (Chr c) st k
  = match after st with
    | x :: rest =>
        if cmatch false c x then k (MState (x :: before st) rest (groups st))
        else None
    | [] => None
    end.
Proof. reflexivity. Qed.

Lemma star_chr_some (c : cclass) (fuel : nat) :
  forall st, exists st',
    star_loop (m false (Chr c)) Some fuel st = Some st'
    /\ length (after st') <= length (after st).
Proof.
  induction fuel as [|fuel IH]; intros st; cbn [star_loop].
  - exists st. split; [reflexivity | lia].
  - rewrite m_chr. destruct (after st) as [|x rest] eqn:E.
    + exists st. split; [reflexivity | rewrite E; lia].
    + destruct (cmatch false c x).
      * cbn [after].
        replace (length rest <? length (x :: rest)) with true
          by (symmetry; apply Nat.ltb_lt; simpl; lia).
        destruct (IH (MState (x :: before st) rest (groups st))) as [st' [H1 H2]].
        rewrite H1. exists st'. split; [reflexivity|].
        cbn [after] in H2. simpl. lia.
      * exists st. split; [reflexivity | rewrite E; lia].
Qed.

(** A run of blanks is matched where it starts, and nowhere else. *)
Lemma blanks_here (bef rest : pystr) (c : ascii) :
  (cmatch false (CSet (py " \t")) c = true
   /\ exists st', match_here false blanks bef (c :: rest) = Some st'
                  /\ length (after st') <= length rest)
  \/ (cmatch false (CSet (py " \t")) c = false
      /\ match_here false blanks bef (c :: rest) = None).
Proof.
  unfold match_here, blanks, Plus.
  change (m false (Seq (Chr (CSet (py " \t"))) (Star (Chr (CSet (py " \t")))))
            (MState bef (c :: rest) []) Some)
    with (if cmatch false (CSet (py " \t")) c
          then star_loop (m false (Chr (CSet (py " \t")))) Some (length rest)
                         (MState (c :: bef) rest [])
          else None).
  destruct (cmatch false (CSet (py " \t")) c) eqn:E.
  - left. split; [reflexivity|].
    destruct (star_chr_some (CSet (py " \t")) (length rest) (MState (c :: bef) rest []))
      as [st' [H1 H2]].
    exists st'. split; [exact H1 | exact H2].
  - right. split; reflexivity.
Qed.

Lemma sub_blanks_no_tab (aft : pystr) :
  forall bef skip,
    ~ In Char.tab (sub_loop false blanks [RText (py " ")] bef aft skip).
Proof.
  induction aft as [|c rest IH]; intros bef skip; cbn [sub_loop].
  - destruct skip; [|intros []].
    change (match_here false blanks bef []) with (@None mstate). intros [].
  - destruct skip as [|n]; [|apply IH].
    destruct (blanks_here bef rest c) as [[Hc [st' [E Hlen]]] | [Hc E]]; rewrite E.
    + destruct (length (c :: rest) - length (after st')) as [|n] eqn:En.
      * cbn [length] in En. lia.
      * intros [H | H]; [discriminate H | exact (IH _ _ H)].
    + intros [H | H]; [|exact (IH _ _ H)].
      subst c. vm_compute in Hc. discriminate.
Qed.

(** Text put in place of the matches and the text between the matches:
    what holds of the characters of both holds of the result. *)
Lemma sub_text_chars (p : ascii -> bool) (ic : bool) (r : regex) (t : pystr) :
  forallb p t = true ->
  forall aft bef skip,
    forallb p aft = true ->
    forallb p (sub_loop ic r [RText t] bef aft skip) = true.
Proof.
  intros Ht.
  assert (Hexp : forall st', forallb p (expand [RText t] st') = true).
  { intros st'. unfold expand. simpl. rewrite app_nil_r. exact Ht. }
  induction aft as [|c rest IH]; intros bef skip Haft; cbn [sub_loop].
  - destruct skip; [|reflexivity].
    destruct (match_here ic r bef []); [apply Hexp | reflexivity].
  - cbn [forallb] in Haft. apply andb_prop in Haft as [Hc Hrest].
    destruct skip as [|n]; [|exact (IH _ _ Hrest)].
    destruct (match_here ic r bef (c :: rest)) as [st'|].
    + rewrite forallb_app, Hexp. cbn [andb].
      destruct (length (c :: rest) - length (after st')).
      * cbn [forallb]. rewrite Hc. exact (IH _ _ Hrest).
      * exact (IH _ _ Hrest).
    + cbn [forallb]. rewrite Hc. exact (IH _ _ Hrest).
Qed.

Lemma forallb_pieces (p : ascii -> bool) (sep s : pystr) :
  forallb p s = true -> Forall (fun x => forallb p x = true) (split sep s).
Proof.
  intros H. apply Forall_forall. intros x Hx.
  exact (forallb_contains p x s (split_max_piece _ _ _ _ Hx) H).
Qed.

Lemma normalize_no_tab (text : pystr) : ~ In Char.tab (normalize text).
Proof.
  set (p := fun c => negb (Ascii.eqb c Char.tab)).
  assert (Hp : forall s, forallb p s = true <-> ~ In Char.tab s).
  { intros s. rewrite forallb_forall. split.
    - intros H Hin. apply H in Hin. vm_compute in Hin. discriminate.
    - intros H x Hx. unfold p. apply negb_true_iff, Ascii.eqb_neq.
      intros ->. exact (H Hx). }
  apply Hp. unfold normalize.
  apply sub_text_chars; [reflexivity|].
  unfold replace. apply forallb_join; [reflexivity|].
  apply forallb_pieces.
  apply (forallb_contains p _ _ (contains_strip _)).
  apply forallb_join; [reflexivity|].
  apply Forall_forall. intros line Hline.
  apply in_map_iff in Hline as [piece [<- Hpiece]].
  apply (forallb_contains p _ _ (contains_strip _)).
  apply (forallb_contains p _ _ (split_max_piece _ _ _ _ Hpiece)).
  apply Hp. apply sub_blanks_no_tab.
Qed.

(** X17.  The cleaned text holds no tab character, whatever the raw text. *)
Theorem clean_no_tab :
  forall raw : pystr, ~ In Char.tab (clean raw).
Proof.
  intros raw. unfold clean, clean_text. cbn [snd raw_text].
  unfold clean_after_references. apply normalize_no_tab.
Qed.

End Tabs.

Lemma clean_ignores_text_below_references_witness :
  clean (with_heading (py "Intro text.\nMore text.") (py "References")
                      (py "[1] A. Author, A paper."))
  = clean (with_heading (py "Intro text.\nMore text.") (py "References")
                        (py "Something else entirely.\nAnd more.")).
Proof.
  apply (clean_ignores_text_below_references
           (py "Intro text.\nMore text.") (py "References")).
  vm_compute. reflexivity.
Defined.

(** ** The response parser: the preamble *)

Section Preamble.

Lemma split_unfold (sep s : pystr) :
  sep <> [] ->
  split sep s = match partition sep s with
                | Some (a, b) => a :: split sep b
                | None => [s]
                end.
Proof.
  intros Hne. unfold split. destruct (length s) as [|n] eqn:E.
  - destruct s; [|discriminate]. simpl.
    rewrite (startswith_nil_false sep Hne). reflexivity.
  - simpl. destruct (partition sep s) as [[a b]|] eqn:Ep; [|reflexivity].
    pose proof (partition_shorter _ _ _ _ Hne Ep) as Hb.
    f_equal. apply split_max_enough; [exact Hne | lia | lia].
Qed.

Lemma last_item_cons {A} (x : A) (l : list A) :
  l <> [] -> last_item (x :: l) = last_item l.
Proof. destruct l; [congruence | reflexivity]. Qed.

Lemma split_not_nil (sep s : pystr) : split sep s <> [].
Proof. apply split_max_not_nil. Qed.

(** The factual part is what is below the last FACTUAL marker: the text
    above a marker at the start of a line is not in it. *)
Lemma factual_part_below (pre rest : pystr) :
  contains (py "FACTUAL QUESTIONS:") pre = false ->
  last_item (split (py "FACTUAL QUESTIONS:")
               (pre ++ Char.nl :: py "FACTUAL QUESTIONS:" ++ rest))
  = last_item (split (py "FACTUAL QUESTIONS:") (py "FACTUAL QUESTIONS:" ++ rest)).
Proof.
  intros Hpre.
  assert (FnoNl : ~ In Char.nl (py "FACTUAL QUESTIONS:"))
    by (vm_compute; intuition discriminate).
  assert (Fne : py "FACTUAL QUESTIONS:" <> []) by discriminate.
  rewrite (split_unfold _ (pre ++ _) Fne), (split_unfold _ (py "FACTUAL QUESTIONS:" ++ rest) Fne).
  rewrite (partition_line _ pre _ FnoNl Fne Hpre), partition_here.
  rewrite !last_item_cons by apply split_not_nil. reflexivity.
Qed.

Lemma parse_response_sections (response fs cs : pystr) :
  match split (py "CONCEPTUAL QUESTIONS:") response with
  | [a; b] => (a, b)
  | _ => (response, empty)
  end = (fs, cs) ->
  parse_response response
  = (factual_part <- last_item (split (py "FACTUAL QUESTIONS:") fs) ;;
     factual <- extract_questions (split (py "\n") (strip factual_part)) ;;
     conceptual <- extract_questions (split (py "\n") (strip cs)) ;;
     Some (Questions factual conceptual)).
Proof. unfold parse_response. intros ->. reflexivity. Qed.

(** X21.  What is above the line of the FACTUAL marker does not count: a
    response with text above that line, in which neither marker occurs,
    is parsed as the response without that text. *)
Theorem parse_response_ignores_preamble :
  forall pre rest : pystr,
    contains (py "FACTUAL QUESTIONS:") pre = false ->
    contains (py "CONCEPTUAL QUESTIONS:") pre = false ->
    parse_response (pre ++ py "\n" ++ py "FACTUAL QUESTIONS:" ++ py "\n" ++ rest)
    = parse_response (py "FACTUAL QUESTIONS:" ++ py "\n" ++ rest).
Proof.
  intros pre rest HF HC.
  set (F := py "FACTUAL QUESTIONS:").
  set (C := py "CONCEPTUAL QUESTIONS:").
  change (py "\n" ++ F ++ py "\n" ++ rest) with (Char.nl :: F ++ Char.nl :: rest).
  change (F ++ py "\n" ++ rest) with (F ++ Char.nl :: rest).
  assert (CnoNl : ~ In Char.nl C) by (vm_compute; intuition discriminate).
  assert (Cne : C <> []) by discriminate.
  assert (Hsec : exists Y cs,
            match split C (pre ++ Char.nl :: F ++ Char.nl :: rest) with
            | [a; b] => (a, b)
            | _ => (pre ++ Char.nl :: F ++ Char.nl :: rest, empty)
            end = (pre ++ Char.nl :: F ++ Y, cs)
            /\ match split C (F ++ Char.nl :: rest) with
               | [a; b] => (a, b)
               | _ => (F ++ Char.nl :: rest, empty)
               end = (F ++ Y, cs)).
  { rewrite (split_unfold C (pre ++ _) Cne), (split_unfold C (F ++ _) Cne).
    rewrite (partition_line C pre _ CnoNl Cne HC).
    rewrite (partition_line C F rest CnoNl Cne eq_refl).
    destruct (partition C rest) as [[a b]|].
    - destruct (split C b) as [|b1 [|b2 l]].
      + exists (Char.nl :: rest), empty. split; reflexivity.
      + exists (Char.nl :: a), b1. split; reflexivity.
      + exists (Char.nl :: rest), empty. split; reflexivity.
    - exists (Char.nl :: rest), empty. split; reflexivity. }
  destruct Hsec as [Y [cs [H1 H2]]].
  rewrite (parse_response_sections _ _ _ H1), (parse_response_sections _ _ _ H2).
  subst F. rewrite (factual_part_below pre Y HF). reflexivity.
Qed.

End Preamble.

Lemma parse_response_ignores_preamble_witness :
  parse_response
    (py "Sure, here you are:\n1. Not a question at all" ++ py "\n"
     ++ py "FACTUAL QUESTIONS:" ++ py "\n"
     ++ py "1. What is a chunk?\nCONCEPTUAL QUESTIONS:\n1. Why is there an overlap?")
  = parse_response
      (py "FACTUAL QUESTIONS:" ++ py "\n"
       ++ py "1. What is a chunk?\nCONCEPTUAL QUESTIONS:\n1. Why is there an overlap?").
Proof.
  apply (parse_response_ignores_preamble
           (py "Sure, here you are:\n1. Not a question at all")
           (py "1. What is a chunk?\nCONCEPTUAL QUESTIONS:\n1. Why is there an overlap?")).
  - vm_compute. reflexivity.
  - vm_compute. reflexivity.
Defined.

(** ** The printed output *)

Section Output.

Lemma join_blank_line (x : pystr) (rest : list pystr) :
  join (py "\n") ((Char.nl :: x) :: rest) = join (py "\n") ([] :: x :: rest).
Proof. destruct rest; reflexivity. Qed.

Lemma join_app_tail (sep : pystr) (a b b' : list pystr) :
  b <> [] -> b' <> [] -> join sep b = join sep b' ->
  join sep (a ++ b) = join sep (a ++ b').
Proof.
  intros Hb Hb' H. induction a as [|x a IH]; [exact H|].
  cbn [app]. rewrite !join_cons, IH; [reflexivity| |].
  - destruct a; [exact Hb' | discriminate].
  - destruct a; [exact Hb | discriminate].
Qed.

Lemma uint_no_newline (d : Decimal.uint) :
  ~ In Char.nl (list_ascii_of_string (NilEmpty.string_of_uint d)).
Proof.
  induction d; simpl; intros H; try (destruct H as [H | H]; [discriminate | tauto]).
  exact H.
Qed.

Lemma str_of_int_no_newline (i : Z) : ~ In Char.nl (str_of_int i).
Proof.
  unfold str_of_int.
  assert (Hu : forall d, ~ In Char.nl (list_ascii_of_string (NilZero.string_of_uint d))).
  { intros d. destruct d; try apply uint_no_newline.
    simpl. intros [H | []]. discriminate. }
  destruct (Z.to_int i) as [d|d]; simpl.
  - apply Hu.
  - intros [H | H]; [discriminate | exact (Hu d H)].
Qed.

Lemma one_line_iff (s : pystr) : one_line s = true <-> ~ In Char.nl s.
Proof.
  unfold one_line. rewrite negb_true_iff. apply (contains_char_iff Char.nl).
Qed.

Lemma numbered_one_line (l : list pystr) :
  forallb one_line l = true ->
  forall i, Forall (fun line => contains (py "\n") line = false) (numbered i l).
Proof.
  induction l as [|q l IH]; intros H i; cbn [numbered]; [constructor|].
  cbn [forallb] in H. apply andb_prop in H as [Hq Hl].
  constructor; [|exact (IH Hl _)].
  apply (contains_char_iff Char.nl). apply one_line_iff in Hq.
  intros Hin. apply in_app_or in Hin as [Hin | Hin].
  - exact (str_of_int_no_newline i Hin).
  - apply in_app_or in Hin as [Hin | Hin]; [|exact (Hq Hin)].
    vm_compute in Hin. intuition discriminate.
Qed.

Lemma forallb_firstn {A} (p : A -> bool) (n : nat) (l : list A) :
  forallb p l = true -> forallb p (firstn n l) = true.
Proof.
  intros H. apply forallb_forall. intros x Hx.
  rewrite forallb_forall in H. exact (H x (firstn_subset _ _ _ Hx)).
Qed.

(** The text splits into the lines that were joined, the two headings
    with a newline in front giving an empty line each. *)
Lemma format_output_split :
  forall (qs : questions) (document_name : pystr),
    one_line document_name = true ->
    forallb one_line (factual qs) = true ->
    forallb one_line (conceptual qs) = true ->
    split (py "\n") (format_output qs document_name)
    = [ rule; py "GENERATED QUESTIONS"; rule;
        py "Source Document: " ++ document_name; rule;
        empty; py "FACTUAL QUESTIONS"; rule ]
      ++ numbered 1 (firstn 7 (factual qs))
      ++ [ empty; py "CONCEPTUAL QUESTIONS"; rule ]
      ++ numbered 1 (firstn 3 (conceptual qs)).
Proof.
  intros qs name Hname Hf Hc.
  set (NF := numbered 1 (firstn 7 (factual qs))).
  set (NC := numbered 1 (firstn 3 (conceptual qs))).
  assert (Hjoin : format_output qs name
                  = join (py "\n")
                      ([ rule; py "GENERATED QUESTIONS"; rule;
                         py "Source Document: " ++ name; rule;
                         empty; py "FACTUAL QUESTIONS"; rule ]
                       ++ NF ++ [ empty; py "CONCEPTUAL QUESTIONS"; rule ] ++ NC)).
  { unfold format_output. fold NF. fold NC.
    apply (join_app_tail (py "\n")
             [rule; py "GENERATED QUESTIONS"; rule; py "Source Document: " ++ name; rule]
             (py "\nFACTUAL QUESTIONS" :: rule
                :: NF ++ [py "\nCONCEPTUAL QUESTIONS"; rule] ++ NC)
             (empty :: py "FACTUAL QUESTIONS" :: rule
                :: NF ++ [empty; py "CONCEPTUAL QUESTIONS"; rule] ++ NC));
      [discriminate | discriminate |].
    change (py "\nFACTUAL QUESTIONS") with (Char.nl :: py "FACTUAL QUESTIONS").
    rewrite join_blank_line.
    apply (join_app_tail (py "\n")
             ([] :: py "FACTUAL QUESTIONS" :: rule :: NF)
             ([py "\nCONCEPTUAL QUESTIONS"; rule] ++ NC)
             ([empty; py "CONCEPTUAL QUESTIONS"; rule] ++ NC));
      [discriminate | discriminate |].
    change (py "\nCONCEPTUAL QUESTIONS") with (Char.nl :: py "CONCEPTUAL QUESTIONS").
    cbn [app]. apply join_blank_line. }
  rewrite Hjoin. apply split_join_lines; [discriminate|].
  assert (Hconst : forall s : pystr,
            (forallb (fun c => negb (Ascii.eqb Char.nl c)) s = true) ->
            contains (py "\n") s = false).
  { intros s H. apply (contains_char_iff Char.nl). intros Hin.
    rewrite forallb_forall in H. apply H in Hin.
    rewrite Ascii.eqb_refl in Hin. discriminate. }
  apply Forall_app. split.
  - repeat (constructor; [first [apply Hconst; vm_compute; reflexivity | idtac]|]);
      [|constructor].
    apply (contains_char_iff Char.nl). apply one_line_iff in Hname.
    intros Hin. apply in_app_or in Hin as [Hin | Hin]; [|exact (Hname Hin)].
    vm_compute in Hin. intuition discriminate.
  - apply Forall_app. split.
    + apply numbered_one_line, forallb_firstn, Hf.
    + apply Forall_app. split.
      * repeat (constructor; [apply Hconst; vm_compute; reflexivity|]). constructor.
      * apply numbered_one_line, forallb_firstn, Hc.
Qed.

Lemma numbered_length (l : list pystr) (i : Z) : length (numbered i l) = length l.
Proof.
  revert i. induction l as [|q l IH]; intros i; cbn [numbered length]; [reflexivity|].
  rewrite IH. reflexivity.
Qed.

Lemma numbered_nth (l : list pystr) (i : Z) (k : nat) (q : pystr) :
  nth_error l k = Some q ->
  nth_error (numbered i l) k = Some (str_of_int (i + Z.of_nat k) ++ py ". " ++ q).
Proof.
  revert i k. induction l as [|x l IH]; intros i k H.
  - destruct k; discriminate.
  - destruct k as [|k]; cbn [numbered nth_error] in *.
    + injection H as ->. replace (i + Z.of_nat 0)%Z with i by lia. reflexivity.
    + rewrite (IH (i + 1)%Z k H).
      replace (i + 1 + Z.of_nat k)%Z with (i + Z.of_nat (S k))%Z by lia.
      reflexivity.
Qed.

Lemma firstn_nth {A} (n k : nat) (l : list A) (x : A) :
  k < n -> nth_error l k = Some x -> nth_error (firstn n l) k = Some x.
Proof.
  revert n k. induction l as [|y l IH]; intros n k Hk H.
  - destruct k; discriminate.
  - destruct n as [|n]; [lia|]. destruct k as [|k]; [exact H|].
    cbn [firstn nth_error] in *. apply IH; [lia | exact H].
Qed.

(** X27.  The lines of the output, for a document name and questions without
    newline.  There are eleven lines around the questions, and a line
    for each of the first seven factual and the first three conceptual
    questions.  The first eight lines are the heading, which names the
    document, an empty line and the two lines that open the factual
    questions.  Then the factual question at index k, for k below seven,
    is on line 8 + k as the decimal number k + 1, a dot, a blank and the
    question; an empty line and the two lines that open the conceptual
    questions follow; and the conceptual question at index k, for k
    below three, is on the line k after those, numbered k + 1 again. *)
Theorem format_output_numbering :
  forall (qs : questions) (document_name : pystr),
    one_line document_name = true ->
    forallb one_line (factual qs) = true ->
    forallb one_line (conceptual qs) = true ->
    length (output_lines qs document_name)
    = 11 + Nat.min 7 (length (factual qs)) + Nat.min 3 (length (conceptual qs))
    /\ firstn 8 (output_lines qs document_name)
       = [ repeat "-"%char 70; py "GENERATED QUESTIONS"; repeat "-"%char 70;
           py "Source Document: " ++ document_name; repeat "-"%char 70;
           []; py "FACTUAL QUESTIONS"; repeat "-"%char 70 ]
    /\ (forall (k : nat) (q : pystr),
          k < 7 -> nth_error (factual qs) k = Some q ->
          nth_error (output_lines qs document_name) (8 + k)
          = Some (str_of_int (Z.of_nat k + 1) ++ py ". " ++ q))
    /\ firstn 3 (skipn (8 + Nat.min 7 (length (factual qs)))
                       (output_lines qs document_name))
       = [ []; py "CONCEPTUAL QUESTIONS"; repeat "-"%char 70 ]
    /\ (forall (k : nat) (q : pystr),
          k < 3 -> nth_error (conceptual qs) k = Some q ->
          nth_error (output_lines qs document_name)
                    (11 + Nat.min 7 (length (factual qs)) + k)
          = Some (str_of_int (Z.of_nat k + 1) ++ py ". " ++ q)).
Proof.
  intros qs name Hname Hf Hc. unfold output_lines.
  rewrite (format_output_split qs name Hname Hf Hc).
  set (H8 := [rule; py "GENERATED QUESTIONS"; rule; py "Source Document: " ++ name;
              rule; empty; py "FACTUAL QUESTIONS"; rule]).
  set (NF := numbered 1 (firstn 7 (factual qs))).
  set (M3 := [empty; py "CONCEPTUAL QUESTIONS"; rule]).
  set (NC := numbered 1 (firstn 3 (conceptual qs))).
  assert (LNF : length NF = Nat.min 7 (length (factual qs)))
    by (unfold NF; rewrite numbered_length; apply length_firstn).
  assert (LNC : length NC = Nat.min 3 (length (conceptual qs)))
    by (unfold NC; rewrite numbered_length; apply length_firstn).
  assert (L8 : length H8 = 8) by reflexivity.
  assert (L3 : length M3 = 3) by reflexivity.
  split; [|split; [|split; [|split]]].
  - rewrite !length_app, LNF, LNC, L8, L3. lia.
  - reflexivity.
  - intros k q Hk Hq.
    rewrite nth_error_app2 by (rewrite L8; lia).
    rewrite L8. replace (8 + k - 8) with k by lia.
    rewrite nth_error_app1
      by (rewrite LNF; apply Nat.min_glb_lt; [lia|];
          apply nth_error_Some; congruence).
    unfold NF. rewrite (numbered_nth _ 1 k q (firstn_nth 7 k _ q Hk Hq)).
    replace (1 + Z.of_nat k)%Z with (Z.of_nat k + 1)%Z by lia. reflexivity.
  - rewrite <- LNF, <- L8, <- length_app, app_assoc.
    rewrite skipn_app, skipn_all, Nat.sub_diag. reflexivity.
  - intros k q Hk Hq.
    rewrite nth_error_app2 by (rewrite L8; lia).
    rewrite nth_error_app2 by (rewrite L8, LNF; lia).
    rewrite nth_error_app2 by (rewrite L8, LNF, L3; lia).
    rewrite L8, LNF, L3.
    replace (11 + Nat.min 7 (length (factual qs)) + k - 8
             - Nat.min 7 (length (factual qs)) - 3) with k by lia.
    unfold NC. rewrite (numbered_nth _ 1 k q (firstn_nth 3 k _ q Hk Hq)).
    replace (1 + Z.of_nat k)%Z with (Z.of_nat k + 1)%Z by lia. reflexivity.
Qed.

End Output.

Lemma format_output_numbering_witness :
  nth_error (output_lines (Questions [py "What is a chunk?"; py "Who wrote it?"]
                                     [py "Why is there an overlap?"])
                          (py "paper.pdf")) (8 + 1)
  = Some (py "2. Who wrote it?")
  /\ nth_error (output_lines (Questions [py "What is a chunk?"; py "Who wrote it?"]
                                        [py "Why is there an overlap?"])
                             (py "paper.pdf")) (11 + 2 + 0)
     = Some (py "1. Why is there an overlap?").
Proof.
  destruct (format_output_numbering
              (Questions [py "What is a chunk?"; py "Who wrote it?"]
                         [py "Why is there an overlap?"])
              (py "paper.pdf")) as [_ [_ [Hf [_ Hc]]]].
  - vm_compute. reflexivity.
  - vm_compute. reflexivity.
  - vm_compute. reflexivity.
  - split.
    + apply (Hf 1 (py "Who wrote it?")); [lia | reflexivity].
    + apply (Hc 0 (py "Why is there an overlap?")); [lia | reflexivity].
Defined.

(** ** The cleaner on settled text *)

Section Lines.

Lemma forallb_filter_id {A} (p : A -> bool) (l : list A) :
  forallb p l = true -> filter p l = l.
Proof.
  induction l as [|x l IH]; cbn [forallb filter]; [reflexivity|].
  intros H. apply andb_prop in H as [Hx Hl]. rewrite Hx, (IH Hl). reflexivity.
Qed.

Lemma map_fixed {A} (f : A -> A) (l : list A) :
  (forall x, In x l -> f x = x) -> map f l = l.
Proof.
  induction l as [|x l IH]; intros H; cbn [map]; [reflexivity|].
  rewrite (H x (or_introl eq_refl)), IH; [reflexivity|].
  intros z Hz. apply H. right. exact Hz.
Qed.

Lemma each_pair_adjacent (R : pystr -> pystr -> bool) (pre : list pystr)
      (a b : pystr) (rest : list pystr) :
  each_pair R (pre ++ a :: b :: rest) = true -> R a b = true.
Proof.
  induction pre as [|x pre IH]; cbn [app each_pair]; intros H.
  - apply andb_prop in H as [H _]. exact H.
  - apply andb_prop in H as [_ H]. exact (IH H).
Qed.

Lemma join_cons_char (c : ascii) (s : pystr) (rest : list pystr) :
  join (py "\n") ((c :: s) :: rest) = c :: join (py "\n") (s :: rest).
Proof. destruct rest; reflexivity. Qed.

Lemma join_next (s n : pystr) (rest : list pystr) :
  join (py "\n") (s :: n :: rest) = s ++ Char.nl :: join (py "\n") (n :: rest).
Proof. reflexivity. Qed.

Lemma reads_from_start (lines : list pystr) :
  lines <> [] -> reads_from lines (join (py "\n") lines).
Proof.
  destruct lines as [|l rest]; [congruence|]. intros _.
  exists [], [], l, rest. split; reflexivity.
Qed.

Lemma reads_from_tail (lines : list pystr) (c : ascii) (b : pystr) :
  reads_from lines (c :: b) -> reads_from lines b.
Proof.
  intros [pre [p [s [rest [EL Eb]]]]]. destruct s as [|x s].
  - destruct rest as [|n rest]; [discriminate Eb|].
    rewrite join_next in Eb. cbn [app] in Eb. injection Eb as _ Eb.
    exists (pre ++ [p ++ []]), [], n, rest. split; [|exact Eb].
    rewrite EL, <- app_assoc. reflexivity.
  - rewrite join_cons_char in Eb. injection Eb as _ Eb.
    exists pre, (p ++ [x]), s, rest. split; [|exact Eb].
    rewrite EL, <- app_assoc. reflexivity.
Qed.

Lemma reads_from_skipn (lines : list pystr) (i : nat) :
  forall b, reads_from lines b -> skipn i b <> [] -> reads_from lines (skipn i b).
Proof.
  induction i as [|i IH]; intros b Hb Hne; [exact Hb|].
  destruct b as [|c b]; [exfalso; apply Hne; reflexivity|].
  cbn [skipn] in *. apply IH; [exact (reads_from_tail _ _ _ Hb) | exact Hne].
Qed.

(** The text up to the first newline is determined. *)
Lemma first_newline (u u' v v' : pystr) :
  ~ In Char.nl u -> ~ In Char.nl u' ->
  u ++ Char.nl :: v = u' ++ Char.nl :: v' -> u = u' /\ v = v'.
Proof.
  revert u'. induction u as [|c u IH]; intros [|c' u'] Hu Hu' E; cbn [app] in E.
  - injection E as ->. split; reflexivity.
  - injection E as <- _. exfalso. apply Hu'. left. reflexivity.
  - injection E as -> _. exfalso. apply Hu. left. reflexivity.
  - injection E as -> E.
    destruct (IH u') as [-> ->]; [| |exact E|split; reflexivity].
    + intros H. apply Hu. right. exact H.
    + intros H. apply Hu'. right. exact H.
Qed.

(** A trimmed text does not end in white space. *)
Lemma trimmed_end (a ws : pystr) :
  strip (a ++ ws) = a ++ ws -> forallb Char.isspace ws = true -> ws = [].
Proof.
  intros Hs Hws. destruct ws as [|x ws]; [reflexivity|]. exfalso.
  assert (Hne : x :: ws <> []) by discriminate.
  destruct (exists_last Hne) as [ws' [c E]]. rewrite E in *.
  rewrite forallb_app in Hws. apply andb_prop in Hws as [_ Hc].
  cbn [forallb] in Hc. rewrite andb_true_r in Hc.
  rewrite app_assoc in Hs. apply strip_fixed_trimmed, trimmed_last in Hs.
  congruence.
Qed.

(** Nor does it start with white space. *)
Lemma trimmed_start (ws a : pystr) :
  strip (ws ++ a) = ws ++ a -> forallb Char.isspace ws = true -> ws = [].
Proof.
  intros Hs Hws. destruct ws as [|x ws]; [reflexivity|]. exfalso.
  cbn [forallb] in Hws. apply andb_prop in Hws as [Hx _].
  cbn [app] in Hs. apply strip_fixed_trimmed, trimmed_first in Hs. congruence.
Qed.

End Lines.

Section Settled.

Variable lines : list pystr.
Hypothesis lines_ok : Forall line_ok lines.

Lemma reads_from_parts (b : pystr) :
  reads_from lines b ->
  exists p s rest,
    b = join (py "\n") (s :: rest)
    /\ line_ok (p ++ s) /\ Forall line_ok rest
    /\ exists pre, lines = pre ++ (p ++ s) :: rest.
Proof.
  intros [pre [p [s [rest [EL Eb]]]]].
  exists p, s, rest. split; [exact Eb|].
  pose proof lines_ok as H. rewrite EL in H.
  apply Forall_app in H as [_ H]. inversion H as [|x l Hx Hl]; subst.
  split; [exact Hx|]. split; [exact Hl|]. exists pre. reflexivity.
Qed.

Lemma line_ok_first (n : pystr) :
  line_ok n -> exists c t, n = c :: t /\ Char.isspace c = false.
Proof.
  intros [Hs [Hlen _]]. destruct n as [|c t]; [simpl in Hlen; lia|].
  exists c, t. split; [reflexivity|].
  exact (trimmed_first c t (strip_fixed_trimmed _ Hs)).
Qed.

Lemma nl_space : Char.isspace Char.nl = true.
Proof. reflexivity. Qed.

(** A place from which the text goes on with a newline is the end of a
    line, and the next line follows. *)
Lemma reads_from_newline (b : pystr) :
  reads_from lines (Char.nl :: b) ->
  exists pre l n rest,
    lines = pre ++ l :: n :: rest /\ b = join (py "\n") (n :: rest)
    /\ line_ok n.
Proof.
  intros H. destruct (reads_from_parts _ H) as [p [s [rest [Eb [Hps [Hrest [pre EL]]]]]]].
  destruct s as [|x s].
  - destruct rest as [|n rest]; [discriminate Eb|].
    rewrite join_next in Eb. cbn [app] in Eb. injection Eb as Eb.
    exists pre, (p ++ []), n, rest. split; [exact EL|]. split; [exact Eb|].
    inversion Hrest; assumption.
  - rewrite join_cons_char in Eb. injection Eb as <- _.
    exfalso. destruct Hps as [_ [_ Hnl]]. apply Hnl.
    apply in_or_app. right. left. reflexivity.
Qed.

(** A place from which the text goes on with [u], without newline, and
    then a newline: [u] is the end of a line, and the next line
    follows. *)
Lemma reads_from_line_end (u v : pystr) :
  ~ In Char.nl u ->
  reads_from lines (u ++ Char.nl :: v) ->
  exists pre p n rest,
    lines = pre ++ (p ++ u) :: n :: rest /\ v = join (py "\n") (n :: rest)
    /\ line_ok (p ++ u) /\ line_ok n.
Proof.
  intros Hu H.
  destruct (reads_from_parts _ H) as [p [s [rest [Eb [Hps [Hrest [pre EL]]]]]]].
  assert (Hs : ~ In Char.nl s).
  { destruct Hps as [_ [_ Hnl]]. intros Hin. apply Hnl.
    apply in_or_app. right. exact Hin. }
  destruct rest as [|n rest].
  - cbn [join] in Eb. exfalso. apply Hs. rewrite <- Eb.
    apply in_or_app. right. left. reflexivity.
  - rewrite join_next in Eb.
    destruct (first_newline _ _ _ _ Hu Hs Eb) as [-> ->].
    exists pre, p, n, rest. split; [exact EL|]. split; [reflexivity|].
    split; [exact Hps|]. inversion Hrest; assumption.
Qed.

Lemma join_first (n : pystr) (rest : list pystr) :
  exists z, join (py "\n") (n :: rest) = n ++ z.
Proof.
  destruct rest as [|m rest].
  - exists []. cbn [join]. rewrite app_nil_r. reflexivity.
  - exists (Char.nl :: join (py "\n") (m :: rest)). reflexivity.
Qed.

(** The next line starts where white space was read: there was none. *)
Lemma line_after_spaces (n : pystr) (rest : list pystr) (t w : pystr) :
  line_ok n -> forallb Char.isspace t = true ->
  join (py "\n") (n :: rest) = t ++ w -> t = [].
Proof.
  intros Hn Ht E. destruct t as [|x t]; [reflexivity|]. exfalso.
  destruct (line_ok_first n Hn) as [c [n' [-> Hc]]].
  rewrite join_cons_char in E. cbn [app] in E. injection E as -> _.
  cbn [forallb] in Ht. apply andb_prop in Ht as [Hx _]. congruence.
Qed.

End Settled.

Section Patterns.

Lemma Match_plus_chr_inv (c : cclass) (bef aft : pystr) (q : position) :
  Match false (Plus (Chr c)) (bef, aft) q ->
  exists x ws, cmatch false c x = true /\ forallb (cmatch false c) ws = true
               /\ aft = x :: ws ++ snd q.
Proof.
  unfold Plus. intros HM. apply Match_seq_inv in HM as [m1 [H1 H2]].
  apply Match_chr_inv in H1 as [x [rest [-> [Hx ->]]]].
  apply Match_star_chr_inv in H2 as [ws [Hws [E _]]]. cbn [snd] in E.
  exists x, ws. rewrite E. auto.
Qed.

Lemma Match_group_inv (n : nat) (a : regex) (p q : position) :
  Match false (Group n a) p q -> Match false a p q.
Proof. intros HM. inversion HM; subst. assumption. Qed.

Lemma spells_char (a : ascii) (w : pystr) : spells false [a] w -> w = [a].
Proof.
  intros H. inversion H as [|x y l l' Hx Hl]; subst.
  inversion Hl; subst. cbn [cmatch] in Hx. apply Ascii.eqb_eq in Hx.
  subst. reflexivity.
Qed.

(** A match of the broken-word pattern: word characters, a hyphen,
    white space with a newline in it, word characters. *)
Lemma broken_word_inv (bef b : pystr) (q : position) :
  Match false broken_word (bef, b) q ->
  exists W c1 ws1 ws2 c2 r,
    b = W ++ c1 :: "-"%char :: ws1 ++ Char.nl :: ws2 ++ c2 :: r
    /\ forallb Char.isword W = true /\ Char.isword c1 = true
    /\ forallb Char.isspace ws1 = true /\ forallb Char.isspace ws2 = true
    /\ Char.isword c2 = true.
Proof.
  unfold broken_word. cbn [Cat]. intros HM.
  apply Match_seq_inv in HM as [[b1 a1] [H1 HM]].
  apply Match_group_inv, Match_plus_chr_inv in H1 as [x [ws [Hx [Hws E1]]]].
  cbn [snd] in E1.
  apply Match_seq_inv in HM as [[b2 a2] [H2 HM]].
  apply Match_lit_inv in H2 as [w [Hw [E2 _]]]. cbn [snd] in E2.
  apply spells_char in Hw. subst w.
  apply Match_seq_inv in HM as [[b3 a3] [H3 HM]].
  apply Match_star_chr_inv in H3 as [ws1 [Hws1 [E3 _]]]. cbn [snd] in E3.
  apply Match_seq_inv in HM as [[b4 a4] [H4 HM]].
  apply Match_chr_inv in H4 as [x4 [rest4 [E4 [Hx4 E4']]]].
  apply (cmatch_newline false) in Hx4. subst x4.
  injection E4' as Eb4 Ea4. subst b4 a4.
  apply Match_seq_inv in HM as [[b5 a5] [H5 HM]].
  apply Match_star_chr_inv in H5 as [ws2 [Hws2 [E5 _]]]. cbn [snd] in E5.
  apply Match_group_inv, Match_plus_chr_inv in HM as [c2 [ws' [Hc2 [_ E6]]]].
  assert (HW : x :: ws <> []) by discriminate.
  destruct (exists_last HW) as [W [c1 EW]].
  assert (Hall : forallb Char.isword (W ++ [c1]) = true).
  { rewrite <- EW. cbn [forallb]. cbn [cmatch] in Hx, Hws. rewrite Hx. exact Hws. }
  rewrite forallb_app in Hall. apply andb_prop in Hall as [HWw Hc1].
  cbn [forallb] in Hc1. rewrite andb_true_r in Hc1.
  exists W, c1, ws1, ws2, c2, (ws' ++ snd q).
  split; [|auto].
  change (x :: ws ++ a1) with ((x :: ws) ++ a1) in E1.
  rewrite E1, EW, E2, E3, E4, E5, E6, <- !app_assoc. reflexivity.
Qed.

(** A match of three newlines or more starts with two newlines. *)
Lemma many_newlines_inv (bef b : pystr) (q : position) :
  Match false many_newlines (bef, b) q ->
  exists r, b = Char.nl :: Char.nl :: r.
Proof.
  unfold many_newlines. cbn [Times]. intros HM.
  apply Match_seq_inv in HM as [[b1 a1] [H1 _]].
  apply Match_seq_inv in H1 as [[b2 a2] [H2 H1]].
  apply Match_chr_inv in H2 as [x [rest [-> [Hx E]]]].
  apply (cmatch_newline false) in Hx. subst x. injection E as Eb Ea. subst b2 a2.
  apply Match_seq_inv in H1 as [[b3 a3] [H3 _]].
  apply Match_chr_inv in H3 as [x [rest' [-> [Hx _]]]].
  apply (cmatch_newline false) in Hx. subst x.
  exists rest'. reflexivity.
Qed.

(** A match of the citation pattern starts with a bracket and a
    digit. *)
Lemma citation_inv (bef b : pystr) (q : position) :
  Match false citation (bef, b) q ->
  exists d r, b = "["%char :: d :: r /\ Char.isdecimal d = true.
Proof.
  unfold citation. cbn [Cat]. intros HM.
  apply Match_seq_inv in HM as [[b1 a1] [H1 HM]].
  apply Match_lit_inv in H1 as [w [Hw [E1 _]]]. cbn [snd] in E1.
  apply spells_char in Hw. subst w.
  apply Match_seq_inv in HM as [[b2 a2] [H2 _]].
  apply Match_plus_chr_inv in H2 as [d [ws [Hd [_ E2]]]].
  exists d, (ws ++ snd (b2, a2)). split; [|exact Hd].
  rewrite E1, E2. reflexivity.
Qed.

Lemma bracket_digit_tail (c : ascii) (s : pystr) :
  bracket_digit (c :: s) = false -> bracket_digit s = false.
Proof. cbn [bracket_digit]. intros H. apply orb_false_elim in H as [_ H]. exact H. Qed.

(** Without a bracket before a digit no citation is removed. *)
Lemma sub_citation_fixed (text : pystr) :
  bracket_digit text = false -> re_sub false citation [RText empty] text = text.
Proof.
  intros H. unfold re_sub.
  apply (sub_loop_unmatched false citation _ (fun s => bracket_digit s = false)).
  - exact bracket_digit_tail.
  - intros bef aft Haft. apply match_here_none. intros q HM.
    apply citation_inv in HM as [d [r [-> Hd]]].
    cbn [bracket_digit] in Haft. rewrite Ascii.eqb_refl, Hd in Haft.
    discriminate.
  - exact H.
Qed.

End Patterns.

Section Fixed.

Variable lines : list pystr.
Hypothesis lines_ok : Forall line_ok lines.
Hypothesis lines_ne : lines <> [].

Lemma word_no_newline (W : pystr) :
  forallb Char.isword W = true -> ~ In Char.nl W.
Proof.
  intros H Hin. rewrite forallb_forall in H. apply H in Hin. discriminate Hin.
Qed.

Lemma spaces_split (ws t : pystr) :
  forallb Char.isspace ws = true -> forallb Char.isspace t = true ->
  exists ws0 t0,
    ws ++ Char.nl :: t = ws0 ++ Char.nl :: t0
    /\ ~ In Char.nl ws0
    /\ forallb Char.isspace ws0 = true /\ forallb Char.isspace t0 = true.
Proof.
  intros Hws Ht.
  destruct (in_dec ascii_dec Char.nl ws) as [Hin | Hnin].
  - destruct (first_occurrence ascii_dec Char.nl ws Hin) as [a [b [-> Ha]]].
    rewrite forallb_app in Hws. apply andb_prop in Hws as [Ha' Hb].
    cbn [forallb] in Hb. apply andb_prop in Hb as [_ Hb].
    exists a, (b ++ Char.nl :: t). split; [|split; [exact Ha | split; [exact Ha'|]]].
    + rewrite <- app_assoc. reflexivity.
    + rewrite forallb_app, Hb. cbn [forallb andb]. rewrite Ht. reflexivity.
  - exists ws, t. auto.
Qed.

(** No word is broken at the end of a line of the text, so the pattern of
    the column stage matches nowhere. *)
Lemma no_broken_word (bef b : pystr) :
  each_pair (fun l n => negb (wrapped l n) && negb (broken l n)) lines = true ->
  reads_from lines b -> match_here false broken_word bef b = None.
Proof.
  intros Hpairs Hb. apply match_here_none. intros q HM.
  apply broken_word_inv in HM
    as [W [c1 [ws1 [ws2 [c2 [r [Eb [HW [Hc1 [Hws1 [Hws2 Hc2]]]]]]]]]]].
  destruct (spaces_split ws1 ws2 Hws1 Hws2) as [ws0 [t [E [Hnl0 [Hws0 Ht]]]]].
  assert (Eb' : b = (W ++ c1 :: "-"%char :: ws0) ++ Char.nl :: (t ++ c2 :: r)).
  { rewrite Eb.
    replace (ws1 ++ Char.nl :: ws2 ++ c2 :: r)
      with ((ws1 ++ Char.nl :: ws2) ++ c2 :: r)
      by (rewrite <- app_assoc; reflexivity).
    rewrite E, <- !app_assoc. reflexivity. }
  assert (Hu : ~ In Char.nl (W ++ c1 :: "-"%char :: ws0)).
  { intros Hin. apply in_app_or in Hin as [Hin | [Hin | [Hin | Hin]]].
    - exact (word_no_newline W HW Hin).
    - subst c1. discriminate Hc1.
    - discriminate Hin.
    - exact (Hnl0 Hin). }
  rewrite Eb' in Hb.
  destruct (reads_from_line_end lines lines_ok _ _ Hu Hb)
    as [pre [p [n [rest [EL [Ev [Hl Hn]]]]]]].
  assert (E0 : ws0 = []).
  { destruct Hl as [Hs _].
    replace (p ++ W ++ c1 :: "-"%char :: ws0)
      with ((p ++ W ++ [c1; "-"%char]) ++ ws0) in Hs
      by (rewrite <- !app_assoc; reflexivity).
    exact (trimmed_end _ _ Hs Hws0). }
  subst ws0.
  symmetry in Ev. pose proof (line_after_spaces n rest t (c2 :: r) Hn Ht Ev) as Et.
  subst t. cbn [app] in Ev.
  destruct (line_ok_first n Hn) as [c [n' [En _]]]. subst n.
  rewrite join_cons_char in Ev. injection Ev as -> _.
  rewrite EL in Hpairs. apply each_pair_adjacent in Hpairs.
  apply andb_prop in Hpairs as [_ Hbr]. apply negb_true_iff in Hbr.
  unfold broken in Hbr.
  replace (p ++ W ++ [c1; "-"%char]) with ((p ++ W) ++ [c1; "-"%char]) in Hbr
    by (rewrite <- app_assoc; reflexivity).
  rewrite rev_app_distr in Hbr. cbn [rev app] in Hbr.
  rewrite Ascii.eqb_refl, Hc1, Hc2 in Hbr. discriminate.
Qed.

Lemma sub_broken_fixed :
  each_pair (fun l n => negb (wrapped l n) && negb (broken l n)) lines = true ->
  re_sub false broken_word [RGroup 1; RGroup 2] (join (py "\n") lines)
  = join (py "\n") lines.
Proof.
  intros Hpairs. unfold re_sub.
  apply (sub_loop_unmatched false broken_word _ (reads_from lines)).
  - exact (reads_from_tail lines).
  - intros bef aft H. exact (no_broken_word bef aft Hpairs H).
  - exact (reads_from_start lines lines_ne).
Qed.

(** No line of the text is empty, so there are no two newlines in a
    row. *)
Lemma sub_newlines_fixed :
  re_sub false many_newlines [RText (py "\n\n")] (join (py "\n") lines)
  = join (py "\n") lines.
Proof.
  unfold re_sub.
  apply (sub_loop_unmatched false many_newlines _ (reads_from lines)).
  - exact (reads_from_tail lines).
  - intros bef aft H. apply match_here_none. intros q HM.
    apply many_newlines_inv in HM as [r ->].
    destruct (reads_from_newline lines lines_ok _ H)
      as [pre [l [n [rest [_ [E Hn]]]]]].
    destruct (line_ok_first n Hn) as [c [n' [-> Hc]]].
    rewrite join_cons_char in E. injection E as <- _. discriminate Hc.
  - exact (reads_from_start lines lines_ne).
Qed.

End Fixed.

Section Stages.

Variable lines : list pystr.
Hypothesis lines_ok : Forall line_ok lines.
Hypothesis lines_ne : lines <> [].

Lemma lower_no_newline (w k : pystr) :
  lower w = lower k -> ~ In Char.nl (lower k) -> ~ In Char.nl w.
Proof.
  intros E Hk Hin. apply Hk. rewrite <- E.
  apply (in_map Char.lower) in Hin. exact Hin.
Qed.

(** No line of the text is a reference heading, so the heading patterns
    match nowhere. *)
Lemma no_heading_lines (keyword : string) :
  existsb (pystr_eqb (lower (py keyword)))
          [py "references"; py "bibliography"; py "works cited"] = true ->
  ~ In Char.nl (lower (py keyword)) ->
  forallb (fun l => negb (reference_word l)) lines = true ->
  no_heading keyword (join (py "\n") lines).
Proof.
  intros Hk Hnl Hno i Hat.
  apply heading_at_tight in Hat
    as [ws1 [w [ws2 [rest0 [E [H1 [H2 [Hnl2 Hw]]]]]]]].
  assert (Hr : reads_from lines (skipn i (join (py "\n") lines))).
  { apply reads_from_skipn; [exact (reads_from_start lines lines_ne)|].
    rewrite E. discriminate. }
  rewrite E in Hr.
  destruct (reads_from_newline lines lines_ok _ Hr)
    as [pre [l [n [rest [EL [Ev Hn]]]]]].
  symmetry in Ev.
  pose proof (line_after_spaces n rest ws1 _ Hn H1 Ev) as E1. subst ws1.
  cbn [app] in Ev. rewrite app_assoc in Ev.
  assert (Hu : ~ In Char.nl (w ++ ws2)).
  { intros Hin. apply in_app_or in Hin as [Hin | Hin]; [|exact (Hnl2 Hin)].
    exact (lower_no_newline w _ Hw Hnl Hin). }
  assert (Hnn : ~ In Char.nl n) by (destruct Hn as [_ [_ H]]; exact H).
  destruct rest as [|m rest].
  - cbn [join] in Ev. apply Hnn. rewrite Ev.
    apply in_or_app. right. left. reflexivity.
  - rewrite join_next in Ev.
    destruct (first_newline _ _ _ _ Hnn Hu Ev) as [En _].
    assert (E2 : ws2 = []).
    { destruct Hn as [Hs _]. rewrite En in Hs. exact (trimmed_end _ _ Hs H2). }
    subst ws2. rewrite app_nil_r in En. subst n.
    rewrite forallb_forall in Hno.
    assert (Hin : In w lines).
    { rewrite EL. apply in_or_app. right. right. left. reflexivity. }
    apply Hno in Hin. apply negb_true_iff in Hin.
    unfold reference_word in Hin. rewrite Hw in Hin. congruence.
Qed.

Lemma references_fixed :
  forallb (fun l => negb (reference_word l)) lines = true ->
  _remove_references_section (join (py "\n") lines) = join (py "\n") lines.
Proof.
  intros H. apply references_no_heading; apply no_heading_lines;
    try exact H; try reflexivity; vm_compute; intuition discriminate.
Qed.

Lemma ends_sentence_any (line : pystr) :
  any (endswith line) [py "."; py "!"; py "?"; py ":"] = ends_sentence line.
Proof.
  unfold ends_sentence, any, endswith.
  induction line as [|c line _] using rev_ind; [reflexivity|].
  rewrite last_item_snoc, rev_app_distr.
  cbn [existsb rev app].
  change (py ".!?:") with ["."; "!"; "?"; ":"]%char.
  change (py ".") with ["."%char]. change (py "!") with ["!"%char].
  change (py "?") with ["?"%char]. change (py ":") with [":"%char].
  cbn [existsb rev app startswith].
  rewrite !andb_true_r.
  rewrite (Ascii.eqb_sym c "."), (Ascii.eqb_sym c "!"),
          (Ascii.eqb_sym c "?"), (Ascii.eqb_sym c ":").
  reflexivity.
Qed.

Lemma column_lines_step (line : pystr) (rest : list pystr) :
  column_lines (line :: rest)
  = if length (strip line) <? 3 then column_lines rest
    else match rest with
         | next :: _ =>
             if truthy (strip line)
                && negb (any (endswith (strip line)) [py "."; py "!"; py "?"; py ":"])
                && truthy (strip next)
                && match strip next with c :: _ => Char.islower c | [] => false end
             then column_lines rest
             else strip line :: column_lines rest
         | [] => strip line :: column_lines rest
         end.
Proof. reflexivity. Qed.

(** No line of the text is short, untrimmed or the first half of a
    wrapped line, so the column loop keeps every line as it is. *)
Lemma column_lines_fixed (l : list pystr) :
  Forall line_ok l ->
  each_pair (fun l n => negb (wrapped l n) && negb (broken l n)) l = true ->
  column_lines l = l.
Proof.
  induction l as [|line rest IH]; intros Hok Hp; [reflexivity|].
  inversion Hok as [|x xs [Hs [Hlen _]] Hrest]; subst.
  cbn [each_pair] in Hp. apply andb_prop in Hp as [Hhd Hp].
  rewrite column_lines_step, Hs, (IH Hrest Hp).
  replace (length line <? 3) with false by (symmetry; apply Nat.ltb_ge; lia).
  destruct rest as [|next rest']; [reflexivity|].
  inversion Hrest as [|y ys [Hs' _] _]; subst. rewrite Hs'.
  apply andb_prop in Hhd as [Hw _]. apply negb_true_iff in Hw.
  unfold wrapped, starts_lower in Hw. rewrite ends_sentence_any.
  destruct (negb (ends_sentence line)); cbn [andb] in *.
  - rewrite Hw, !andb_false_r. reflexivity.
  - rewrite andb_false_r. reflexivity.
Qed.

Lemma strip_join_fixed : strip (join (py "\n") lines) = join (py "\n") lines.
Proof.
  apply trimmed_strip. split.
  - destruct lines as [|l1 rest]; [congruence|].
    inversion lines_ok as [|x xs H1 _]; subst.
    destruct (line_ok_first l1 H1) as [c [t [-> Hc]]].
    rewrite join_cons_char. unfold lstrip. apply dropwhile_stop. exact Hc.
  - destruct (last_item_some lines lines_ne) as [ln Hln].
    destruct (join_last (py "\n") ln lines Hln) as [x ->].
    pose proof lines_ok as Hok. rewrite Forall_forall in Hok.
    destruct (Hok ln (last_item_In _ _ Hln)) as [Hs [Hlen _]].
    apply rstrip_app.
    + intros ->. simpl in Hlen. lia.
    + exact (proj2 (strip_fixed_trimmed ln Hs)).
Qed.

End Stages.

Section Normal.

Lemma star_stop (c : cclass) (fuel : nat) (st : mstate) :
  match after st with
  | x :: _ => cmatch false c x = false
  | [] => True
  end ->
  star_loop (m false (Chr c)) Some fuel st = Some st.
Proof.
  intros H. destruct fuel as [|fuel]; cbn [star_loop]; [reflexivity|].
  rewrite m_chr. destruct (after st) as [|x rest]; [reflexivity|].
  rewrite H. reflexivity.
Qed.

Lemma match_blanks (bef rest : pystr) (c : ascii) :
  match_here false blanks bef (c :: rest)
  = if cmatch false (CSet (py " \t")) c
    then star_loop (m false (Chr (CSet (py " \t")))) Some (length rest)
                   (MState (c :: bef) rest [])
    else None.
Proof. reflexivity. Qed.

Lemma blank_char (c : ascii) :
  cmatch false (CSet (py " \t")) c = Ascii.eqb " " c || Ascii.eqb Char.tab c.
Proof.
  change (py " \t") with [" "%char; Char.tab]. cbn [cmatch existsb].
  rewrite orb_false_r. reflexivity.
Qed.

(** Single blanks are put back as they are: without a tab and without
    two blanks in a row the text is left unchanged. *)
Lemma sub_blanks_fixed (aft : pystr) :
  forall bef,
    contains (py "\t") aft = false -> contains (py "  ") aft = false ->
    sub_loop false blanks [RText (py " ")] bef aft 0 = aft.
Proof.
  induction aft as [|c rest IH]; intros bef Ht Hd.
  - reflexivity.
  - change (py "\t") with [Char.tab] in *. change (py "  ") with [" "; " "]%char in *.
    cbn [contains startswith] in Ht, Hd.
    apply orb_false_elim in Ht as [Htc Ht]. apply orb_false_elim in Hd as [Hdc Hd].
    rewrite andb_true_r in Htc.
    cbn [sub_loop]. rewrite match_blanks, blank_char, Htc, orb_false_r.
    destruct (Ascii.eqb " " c) eqn:Ec.
    + apply Ascii.eqb_eq in Ec. subst c.
      rewrite star_stop.
      * cbn [after length]. replace (S (length rest) - length rest) with 1 by lia.
        rewrite (IH _ Ht Hd). reflexivity.
      * cbn [after]. destruct rest as [|x rest']; [exact I|].
        rewrite blank_char. cbn [startswith] in Hdc.
        rewrite andb_true_r in Hdc. cbn [andb] in Hdc.
        cbn [contains startswith] in Ht. apply orb_false_elim in Ht as [Hx _].
        rewrite andb_true_r in Hx. rewrite Hdc, Hx. reflexivity.
    + rewrite (IH _ Ht Hd). reflexivity.
Qed.

Lemma names_content_any (line : pystr) :
  any (fun keyword => contains keyword (strip (lower line)))
      [py "abstract"; py "introduction"; py "i. introduction"]
  = names_content line.
Proof.
  unfold any, names_content. cbn [existsb]. rewrite orb_false_r.
  destruct (contains (py "abstract") (strip (lower line))); [reflexivity|].
  cbn [orb].
  destruct (contains (py "introduction") (strip (lower line))) eqn:E;
    [reflexivity|].
  cbn [orb].
  destruct (contains (py "i. introduction") (strip (lower line))) eqn:E';
    [|reflexivity].
  rewrite (contains_trans (py "introduction") (py "i. introduction") _ eq_refl E') in E.
  discriminate.
Qed.

Lemma content_start_none (l : list pystr) (i : nat) :
  forallb (fun line => negb (names_content line)) l = true ->
  content_start l i = 0.
Proof.
  revert i. induction l as [|line rest IH]; intros i H; cbn [content_start].
  - reflexivity.
  - cbn [forallb] in H. apply andb_prop in H as [Hl Hrest].
    apply negb_true_iff in Hl. rewrite names_content_any, Hl.
    exact (IH _ Hrest).
Qed.

(** The first line names the abstract or the introduction, or no line
    does: the author stage finds nothing above the content. *)
Lemma author_fixed (text : pystr) :
  names_content (hd [] (split (py "\n") text))
  || forallb (fun line => negb (names_content line)) (split (py "\n") text) = true ->
  _remove_author_affiliations text = text.
Proof.
  intros H. unfold _remove_author_affiliations.
  assert (E : content_start (split (py "\n") text) 0 = 0).
  { apply orb_prop in H as [H | H]; [|exact (content_start_none _ _ H)].
    destruct (split (py "\n") text) as [|line rest]; [reflexivity|].
    cbn [hd] in H. cbn [content_start]. rewrite names_content_any, H.
    reflexivity. }
  rewrite E. reflexivity.
Qed.

(** No line names a main section, or the first line does and no line
    ends the main sections: the section stage keeps all lines. *)
Lemma sections_fixed (text : pystr) :
  forallb (fun l => negb (is_header l)) (split (py "\n") text)
  || is_header (hd [] (split (py "\n") text))
     && forallb (fun l => negb (ends_sections l)) (split (py "\n") text) = true ->
  _extract_main_sections text = text.
Proof.
  intros H. unfold _extract_main_sections.
  apply orb_prop in H as [H | H].
  - rewrite <- (app_nil_r (split (py "\n") text)).
    rewrite (section_lines_before _ [] H). reflexivity.
  - apply andb_prop in H as [Hh Hmid].
    pose proof (join_split (py "\n") text) as Hj.
    destruct (split (py "\n") text) as [|h mid]; [discriminate Hh|].
    cbn [hd] in Hh. cbn [forallb] in Hmid. apply andb_prop in Hmid as [_ Hmid].
    rewrite (section_lines_header false h mid Hh).
    assert (Em : section_lines true mid = mid).
    { pose proof (section_lines_inside mid [] Hmid) as Hs.
      cbn [section_lines] in Hs. rewrite !app_nil_r in Hs. exact Hs. }
    rewrite Em. cbn [truthy]. exact Hj.
Qed.

End Normal.

Section Idempotence.

(** The cleaner leaves the joined lines of a settled text as they are. *)
Lemma clean_lines_fixed (lines : list pystr) :
  lines <> [] ->
  Forall line_ok lines ->
  each_pair (fun l n => negb (wrapped l n) && negb (broken l n)) lines = true ->
  forallb keeps_line lines = true ->
  forallb (fun l => negb (reference_word l)) lines = true ->
  names_content (hd [] lines)
  || forallb (fun l => negb (names_content l)) lines = true ->
  forallb (fun l => negb (is_header l)) lines
  || is_header (hd [] lines)
     && forallb (fun l => negb (ends_sections l)) lines = true ->
  contains (py "\t") (join (py "\n") lines) = false ->
  contains (py "  ") (join (py "\n") lines) = false ->
  contains mojibake (join (py "\n") lines) = false ->
  bracket_digit (join (py "\n") lines) = false ->
  clean (join (py "\n") lines) = join (py "\n") lines.
Proof.
  intros Hne Hok Hpairs Hkeep Href Hauth Hsec Htab Hdbl Hmoji Hcit.
  assert (ES : split (py "\n") (join (py "\n") lines) = lines).
  { apply split_join_lines; [exact Hne|].
    apply Forall_forall. intros l Hl. rewrite Forall_forall in Hok.
    destruct (Hok l Hl) as [_ [_ Hnl]].
    apply (contains_char_iff Char.nl). exact Hnl. }
  rewrite clean_stages, (references_fixed lines Hok Hne Href).
  unfold clean_after_references.
  assert (S2 : _handle_two_column_format (join (py "\n") lines) = join (py "\n") lines).
  { unfold _handle_two_column_format.
    rewrite ES, (column_lines_fixed lines Hok Hpairs).
    exact (sub_broken_fixed lines Hok Hne Hpairs). }
  rewrite S2.
  assert (S3 : _remove_author_affiliations (join (py "\n") lines) = join (py "\n") lines).
  { apply author_fixed. rewrite ES. exact Hauth. }
  rewrite S3.
  assert (S4 : _remove_common_headers_footers (join (py "\n") lines)
               = join (py "\n") lines).
  { unfold _remove_common_headers_footers.
    rewrite ES, (forallb_filter_id _ _ Hkeep). reflexivity. }
  rewrite S4.
  assert (S5 : _extract_main_sections (join (py "\n") lines) = join (py "\n") lines).
  { apply sections_fixed. rewrite ES. exact Hsec. }
  rewrite S5.
  unfold normalize.
  rewrite (sub_newlines_fixed lines Hok Hne).
  assert (S6 : re_sub false blanks [RText (py " ")] (join (py "\n") lines)
               = join (py "\n") lines)
    by (exact (sub_blanks_fixed _ [] Htab Hdbl)).
  rewrite S6, ES.
  assert (S7 : map strip lines = lines).
  { apply map_fixed. intros l Hl. rewrite Forall_forall in Hok.
    exact (proj1 (Hok l Hl)). }
  rewrite S7, (strip_join_fixed lines Hok Hne).
  unfold replace. rewrite (split_none _ _ Hmoji). cbn [join].
  exact (sub_citation_fixed _ Hcit).
Qed.

(** The cleaner leaves a settled text as it is. *)
Lemma settled_fixed (text : pystr) : settled text = true -> clean text = text.
Proof.
  intros H. destruct text as [|c0 t0] eqn:Et; [vm_compute; reflexivity|].
  rewrite <- Et in *. unfold settled in H.
  assert (Etr : truthy text = true) by (rewrite Et; reflexivity).
  rewrite Etr in H. cbn [negb orb] in H.
  repeat (apply andb_prop in H as [H ?]).
  repeat match goal with
         | Hn : negb _ = true |- _ => apply negb_true_iff in Hn
         end.
  pose proof (join_split (py "\n") text) as Ej.
  assert (Hok : Forall line_ok (split (py "\n") text)).
  { apply Forall_forall. intros l Hl.
    match goal with
    | Hf : forallb (fun l => pystr_eqb (strip l) l && (3 <=? length l)) _ = true |- _ =>
        rewrite forallb_forall in Hf; apply Hf in Hl as Hl'
    end.
    apply andb_prop in Hl' as [Hs Hlen].
    split; [exact (pystr_eqb_eq _ _ Hs)|]. split; [apply Nat.leb_le; exact Hlen|].
    apply one_line_no_newline. exact (split_lines_free _ _ Hl). }
  assert (Hfix : clean (join (py "\n") (split (py "\n") text))
                 = join (py "\n") (split (py "\n") text)).
  { apply clean_lines_fixed; try rewrite Ej; try assumption.
    apply split_not_nil. }
  rewrite Ej in Hfix. exact Hfix.
Qed.


End Idempotence.

